(** * Tetrahedral mesh construction (Source/Urho3D/Math/TetrahedralMesh.cpp)

    A shallow embedding of the incremental Delaunay tetrahedralisation of
    [TetrahedralMesh]: the super-mesh bootstrap, the carve-and-fill point
    insertion with its retry loop, the stripping of the super mesh, the hull
    surface, the outer cells and the interpolation matrices.

    Conventions of the embedding.
    - [unsigned] values are [N] below [2^32]; additions and subtractions that
      the source performs on them are reduced modulo [2^32].
    - [ea::vector] is [list]; an index is read with an explicit default and a
      write past the end is dropped (the source has undefined behaviour
      there); container sizes are assumed to fit an [unsigned].  The same
      holds for the arrays of four of a cell.  The two unlinking loops, which
      write to a slot found by a search, have a checked variant that returns
      [None] where the source would index outside an array.
    - [float] and [double] share one scalar type, given by the class
      [Scalar].  Two instances are used: IEEE binary64 ([PrimFloat]), with
      which the functions are evaluated, and the real numbers, in which the
      algebraic identities behind the formulas are stated.
    - [assert] is compiled out (a release build); logging is an explicit list
      of events. *)

From Stdlib Require Import Numbers.Cyclic.Int63.Uint63 Floats.PrimFloat.
From Stdlib Require Import ZArith NArith List Bool Lia Reals Lra Sorting.Sorted.
From stdpp Require Import base list.

Set Default Goal Selector "!".
Open Scope N_scope.

(** ** Scalars *)

Class Scalar (F : Type) : Type := {
  s_of_Z : Z -> F;
  s_add : F -> F -> F;
  s_sub : F -> F -> F;
  s_mul : F -> F -> F;
  s_div : F -> F -> F;
  s_opp : F -> F;
  s_abs : F -> F;
  s_sqrt : F -> F;
  s_ltb : F -> F -> bool;
  s_eqb : F -> F -> bool
}.

Declare Scope scalar_scope.
Delimit Scope scalar_scope with S.
Infix "+" := s_add : scalar_scope.
Infix "-" := s_sub : scalar_scope.
Infix "*" := s_mul : scalar_scope.
Infix "/" := s_div : scalar_scope.
Notation "- x" := (s_opp x) : scalar_scope.
Infix "<?" := s_ltb : scalar_scope.

(** The constants the mesh code reads from headers that are not among the
    sources: those of Math/MathDefs.h and the two indices that
    [Tetrahedron] reserves for the vertex at infinity of an outer cell.  They
    are parameters of every function that reads them. *)
Record Constants (F : Type) : Type := {
  M_EPSILON : F;
  M_LARGE_EPSILON : F;
  M_LARGE_VALUE : F;
  M_INFINITY : F;
  Infinity2 : N;
  Infinity3 : N
}.
Arguments M_EPSILON {F} _.
Arguments M_LARGE_EPSILON {F} _.
Arguments M_LARGE_VALUE {F} _.
Arguments M_INFINITY {F} _.
Arguments Infinity2 {F} _.
Arguments Infinity3 {F} _.

(** IEEE binary64. *)
#[export] Instance float_Scalar : Scalar float := {|
  s_of_Z := fun z => match z with
                     | Z0 => PrimFloat.zero
                     | Zpos p => PrimFloat.of_uint63 (Uint63.of_Z (Zpos p))
                     | Zneg p => PrimFloat.opp (PrimFloat.of_uint63 (Uint63.of_Z (Zpos p)))
                     end;
  s_add := PrimFloat.add;
  s_sub := PrimFloat.sub;
  s_mul := PrimFloat.mul;
  s_div := PrimFloat.div;
  s_opp := PrimFloat.opp;
  s_abs := PrimFloat.abs;
  s_sqrt := PrimFloat.sqrt;
  s_ltb := PrimFloat.ltb;
  s_eqb := PrimFloat.eqb
|}.

(** The real numbers: the arithmetic the formulas are derived in. *)
Definition Rltb (a b : R) : bool := if Rlt_dec a b then true else false.
Definition Reqb (a b : R) : bool := if Req_dec_T a b then true else false.

#[export] Instance R_Scalar : Scalar R := {|
  s_of_Z := IZR;
  s_add := Rplus;
  s_sub := Rminus;
  s_mul := Rmult;
  s_div := Rdiv;
  s_opp := Ropp;
  s_abs := Rabs;
  s_sqrt := R_sqrt.sqrt;
  s_ltb := Rltb;
  s_eqb := Reqb
|}.

(** ** Unsigned indices and vectors *)

Definition M_MAX_UNSIGNED : N := 4294967295.
Definition wrap32 (n : N) : N := n mod 4294967296.
Definition uadd (a b : N) : N := wrap32 (a + b).
Definition usub (a b : N) : N := wrap32 (a + 4294967296 - b).

(** [v[i]] with the value read past the end made explicit. *)
Definition at_ {A} (d : A) (v : list A) (i : N) : A :=
  default d (v !! N.to_nat i).

(** [v[i] = x]; past the end nothing is stored. *)
Definition put {A} (v : list A) (i : N) (x : A) : list A :=
  <[N.to_nat i := x]> v.

Definition size {A} (v : list A) : N := N.of_nat (length v).

(** Fixed arrays [T[3]] and [T[4]]. *)
Record Arr3 (A : Type) : Type := mk3 { e30 : A; e31 : A; e32 : A }.
Record Arr4 (A : Type) : Type := mk4 { e40 : A; e41 : A; e42 : A; e43 : A }.
Arguments mk3 {A} _ _ _.
Arguments e30 {A} _.
Arguments e31 {A} _.
Arguments e32 {A} _.
Arguments mk4 {A} _ _ _ _.
Arguments e40 {A} _.
Arguments e41 {A} _.
Arguments e42 {A} _.
Arguments e43 {A} _.

Definition get3 {A} (a : Arr3 A) (i : nat) : A :=
  match i with 0%nat => e30 a | 1%nat => e31 a | _ => e32 a end.
Definition set3 {A} (a : Arr3 A) (i : nat) (x : A) : Arr3 A :=
  match i with
  | 0%nat => mk3 x (e31 a) (e32 a)
  | 1%nat => mk3 (e30 a) x (e32 a)
  | 2%nat => mk3 (e30 a) (e31 a) x
  | _ => a
  end.
Definition get4 {A} (a : Arr4 A) (i : nat) : A :=
  match i with 0%nat => e40 a | 1%nat => e41 a | 2%nat => e42 a | _ => e43 a end.
Definition set4 {A} (a : Arr4 A) (i : nat) (x : A) : Arr4 A :=
  match i with
  | 0%nat => mk4 x (e41 a) (e42 a) (e43 a)
  | 1%nat => mk4 (e40 a) x (e42 a) (e43 a)
  | 2%nat => mk4 (e40 a) (e41 a) x (e43 a)
  | 3%nat => mk4 (e40 a) (e41 a) (e42 a) x
  | _ => a
  end.
Definition list3 {A} (a : Arr3 A) : list A := [e30 a; e31 a; e32 a].
Definition list4 {A} (a : Arr4 A) : list A := [e40 a; e41 a; e42 a; e43 a].

(** ** Geometry primitives *)

Section Geometry.
Context {F : Type} {SF : Scalar F}.
Local Open Scope scalar_scope.

Record Vector3 : Type := mkVector3 { x_ : F; y_ : F; z_ : F }.

(** [HighPrecisionVector3] holds doubles where [Vector3] holds floats; with one
    scalar type the two coincide and the conversion is the identity. *)
Definition HighPrecisionVector3 : Type := Vector3.

Definition Vector3_ZERO : Vector3 := mkVector3 (s_of_Z 0) (s_of_Z 0) (s_of_Z 0).
Definition Vector3_ONE : Vector3 := mkVector3 (s_of_Z 1) (s_of_Z 1) (s_of_Z 1).

(** Modelled from the spec: the vector arithmetic of Math/Vector3.h (sum,
    difference, scaling, component-wise product, dot and cross product,
    squared length), which is not among the sources. *)
Definition vadd (a b : Vector3) : Vector3 :=
  mkVector3 (x_ a + x_ b) (y_ a + y_ b) (z_ a + z_ b).
Definition vsub (a b : Vector3) : Vector3 :=
  mkVector3 (x_ a - x_ b) (y_ a - y_ b) (z_ a - z_ b).
Definition vscale (a : Vector3) (k : F) : Vector3 :=
  mkVector3 (x_ a * k) (y_ a * k) (z_ a * k).
Definition vmul (a b : Vector3) : Vector3 :=
  mkVector3 (x_ a * x_ b) (y_ a * y_ b) (z_ a * z_ b).
Definition vneg (a : Vector3) : Vector3 :=
  mkVector3 (- x_ a) (- y_ a) (- z_ a).
Definition DotProduct (a b : Vector3) : F :=
  x_ a * x_ b + y_ a * y_ b + z_ a * z_ b.
Definition CrossProduct (a b : Vector3) : Vector3 :=
  mkVector3 (y_ a * z_ b - z_ a * y_ b)
            (z_ a * x_ b - x_ a * z_ b)
            (x_ a * y_ b - y_ a * x_ b).
Definition LengthSquared (a : Vector3) : F := DotProduct a a.
Definition veqb (a b : Vector3) : bool :=
  s_eqb (x_ a) (x_ b) && s_eqb (y_ a) (y_ b) && s_eqb (z_ a) (z_ b).

(** Modelled from the spec: [Vector3::Normalize] of Math/Vector3.h, the vector
    divided by its length. *)
Definition Normalize_Vector3 (a : Vector3) : Vector3 :=
  vscale a (s_of_Z 1 / s_sqrt (LengthSquared a)).

Definition s_min (a b : F) : F := if b <? a then b else a.
Definition s_max (a b : F) : F := if a <? b then b else a.

Record BoundingBox : Type := mkBoundingBox { min_ : Vector3; max_ : Vector3 }.

(** Modelled from the spec: the axis-aligned bounding box of the input points
    (Math/BoundingBox.h).  The empty box has [min_] at plus infinity and
    [max_] at minus infinity, and every point is merged into it. *)
Definition BoundingBox_Merge (b : BoundingBox) (p : Vector3) : BoundingBox :=
  mkBoundingBox
    (mkVector3 (s_min (x_ (min_ b)) (x_ p)) (s_min (y_ (min_ b)) (y_ p))
               (s_min (z_ (min_ b)) (z_ p)))
    (mkVector3 (s_max (x_ (max_ b)) (x_ p)) (s_max (y_ (max_ b)) (y_ p))
               (s_max (z_ (max_ b)) (z_ p))).
Definition BoundingBox_of (md : Constants F) (positions : list Vector3) : BoundingBox :=
  let inf := M_INFINITY md in
  foldl BoundingBox_Merge
        (mkBoundingBox (mkVector3 inf inf inf) (mkVector3 (- inf) (- inf) (- inf)))
        positions.
Definition BoundingBox_Size (b : BoundingBox) : Vector3 := vsub (max_ b) (min_ b).

Record HighPrecisionSphere : Type := mkSphere {
  center_ : HighPrecisionVector3;
  radius_ : F
}.

(** Modelled from the spec: the signed distance of a position to the sphere's
    surface ([HighPrecisionSphere::Distance], declared in TetrahedralMesh.h). *)
Definition Sphere_Distance (s : HighPrecisionSphere) (position : Vector3) : F :=
  s_sqrt (LengthSquared (vsub position (center_ s))) - radius_ s.

(** A 3x4 matrix, row by row; a [Matrix3] is stored in it with a zero last
    column. *)
Record Matrix3x4 : Type := mkMatrix3x4 {
  m00_ : F; m01_ : F; m02_ : F; m03_ : F;
  m10_ : F; m11_ : F; m12_ : F; m13_ : F;
  m20_ : F; m21_ : F; m22_ : F; m23_ : F
}.

Definition Matrix3x4_IDENTITY : Matrix3x4 :=
  let o := s_of_Z 0 in let i := s_of_Z 1 in
  mkMatrix3x4 i o o o  o i o o  o o i o.

(** [m * k]: every element scaled. *)
Definition Matrix3x4_scale (m : Matrix3x4) (k : F) : Matrix3x4 :=
  mkMatrix3x4
    (m00_ m * k) (m01_ m * k) (m02_ m * k) (m03_ m * k)
    (m10_ m * k) (m11_ m * k) (m12_ m * k) (m13_ m * k)
    (m20_ m * k) (m21_ m * k) (m22_ m * k) (m23_ m * k).

(** Modelled from the spec: [Matrix3::Inverse] of Math/Matrix3.h, the inverse
    of a 3x3 matrix (adjugate over determinant), given row by row. *)
Definition Matrix3_Inverse (a00 a01 a02 a10 a11 a12 a20 a21 a22 : F) : Matrix3x4 :=
  let det := a00 * a11 * a22 + a10 * a21 * a02 + a20 * a01 * a12
             - a20 * a11 * a02 - a10 * a01 * a22 - a00 * a21 * a12 in
  let invDet := s_of_Z 1 / det in
  let o := s_of_Z 0 in
  mkMatrix3x4
    ((a11 * a22 - a21 * a12) * invDet)
    (- (a01 * a22 - a21 * a02) * invDet)
    ((a01 * a12 - a11 * a02) * invDet)
    o
    (- (a10 * a22 - a20 * a12) * invDet)
    ((a00 * a22 - a20 * a02) * invDet)
    (- (a00 * a12 - a10 * a02) * invDet)
    o
    ((a10 * a21 - a20 * a11) * invDet)
    (- (a00 * a21 - a20 * a01) * invDet)
    ((a00 * a11 - a10 * a01) * invDet)
    o.

(** Modelled from the spec: the matrix applied to a position (the product of
    the 3x3 part with the vector, plus the last column). *)
Definition ApplyMatrix (m : Matrix3x4) (p : Vector3) : Vector3 :=
  mkVector3 (m00_ m * x_ p + m01_ m * y_ p + m02_ m * z_ p + m03_ m)
            (m10_ m * x_ p + m11_ m * y_ p + m12_ m * z_ p + m13_ m)
            (m20_ m * x_ p + m21_ m * y_ p + m22_ m * z_ p + m23_ m).

End Geometry.
Arguments Vector3 F : clear implicits.
Arguments HighPrecisionVector3 F : clear implicits.
Arguments BoundingBox F : clear implicits.
Arguments HighPrecisionSphere F : clear implicits.
Arguments Matrix3x4 F : clear implicits.

(** ** The data model *)

Section DataModel.
Context {F : Type} {SF : Scalar F}.

(** A boundary triangle: its vertices, the neighbour triangle across the edge
    opposite each vertex, the tetrahedron and face it bounds, and the fourth
    vertex of that tetrahedron. *)
Record TetrahedralMeshSurfaceTriangle : Type := mkTriangle {
  tri_indices_ : Arr3 N;
  unusedIndex_ : N;
  tri_neighbors_ : Arr3 N;
  tetIndex_ : N;
  tetFace_ : N
}.

Record TetrahedralMeshSurface : Type := mkSurface {
  faces_ : list TetrahedralMeshSurfaceTriangle
}.

Record Tetrahedron : Type := mkTetrahedron {
  indices_ : Arr4 N;
  neighbors_ : Arr4 N;
  matrix_ : Matrix3x4 F
}.

(** A default-constructed cell: no neighbours. *)
Definition Tetrahedron_default : Tetrahedron :=
  mkTetrahedron (mk4 0 0 0 0)
                (mk4 M_MAX_UNSIGNED M_MAX_UNSIGNED M_MAX_UNSIGNED M_MAX_UNSIGNED)
                Matrix3x4_IDENTITY.

Definition Triangle_default : TetrahedralMeshSurfaceTriangle :=
  mkTriangle (mk3 0 0 0) M_MAX_UNSIGNED
             (mk3 M_MAX_UNSIGNED M_MAX_UNSIGNED M_MAX_UNSIGNED) M_MAX_UNSIGNED 0.

Definition Sphere_default : HighPrecisionSphere F :=
  mkSphere Vector3_ZERO (s_of_Z 0).

Definition set_indices (t : Tetrahedron) (a : Arr4 N) : Tetrahedron :=
  mkTetrahedron a (neighbors_ t) (matrix_ t).
Definition set_neighbors (t : Tetrahedron) (a : Arr4 N) : Tetrahedron :=
  mkTetrahedron (indices_ t) a (matrix_ t).
Definition set_matrix (t : Tetrahedron) (m : Matrix3x4 F) : Tetrahedron :=
  mkTetrahedron (indices_ t) (neighbors_ t) m.
Definition set_index (t : Tetrahedron) (j : nat) (v : N) : Tetrahedron :=
  set_indices t (set4 (indices_ t) j v).
Definition set_neighbor (t : Tetrahedron) (j : nat) (v : N) : Tetrahedron :=
  set_neighbors t (set4 (neighbors_ t) j v).

(** Modelled from the spec: [Tetrahedron::GetNeighborFaceIndex] (declared in
    TetrahedralMesh.h): the first face whose neighbour slot names the cell,
    4 when none does. *)
Definition GetNeighborFaceIndex (t : Tetrahedron) (neighborTetIndex : N) : nat :=
  if e40 (neighbors_ t) =? neighborTetIndex then 0%nat
  else if e41 (neighbors_ t) =? neighborTetIndex then 1%nat
  else if e42 (neighbors_ t) =? neighborTetIndex then 2%nat
  else if e43 (neighbors_ t) =? neighborTetIndex then 3%nat
  else 4%nat.

(** Modelled from the spec: [Tetrahedron::HasNeighbor] (declared in
    TetrahedralMesh.h): one of the four neighbour slots names the cell. *)
Definition HasNeighbor (t : Tetrahedron) (neighborTetIndex : N) : bool :=
  (GetNeighborFaceIndex t neighborTetIndex <? 4)%nat.

(** Modelled from the spec: [Tetrahedron::GetTriangleFace] (declared in
    TetrahedralMesh.h): the face opposite vertex [faceIndex], its three
    vertices in the cell's order, with the given back-reference and no
    adjacency yet. *)
Definition GetFaceIndices (t : Tetrahedron) (faceIndex : nat) : Arr3 N :=
  let i := indices_ t in
  match faceIndex with
  | 0%nat => mk3 (e41 i) (e42 i) (e43 i)
  | 1%nat => mk3 (e40 i) (e42 i) (e43 i)
  | 2%nat => mk3 (e40 i) (e41 i) (e43 i)
  | _ => mk3 (e40 i) (e41 i) (e42 i)
  end.
Definition GetTriangleFace (t : Tetrahedron) (faceIndex : nat) (tetIndex tetFace : N)
  : TetrahedralMeshSurfaceTriangle :=
  mkTriangle (GetFaceIndices t faceIndex) (get4 (indices_ t) faceIndex)
             (mk3 M_MAX_UNSIGNED M_MAX_UNSIGNED M_MAX_UNSIGNED) tetIndex tetFace.

(** Modelled from the spec: the edge of a triangle opposite vertex
    [edgeIndex], as an ordered pair ([TetrahedralMeshSurfaceTriangle::GetEdge],
    declared in TetrahedralMesh.h).  Neighbour slot [j] of a triangle is the
    triangle across this edge: [FillStarShapedHole] copies it into neighbour
    slot [j] of the new cell, the cell across the face opposite vertex [j]. *)
Definition GetEdge (t : TetrahedralMeshSurfaceTriangle) (edgeIndex : nat) : N * N :=
  let a := get3 (tri_indices_ t) ((edgeIndex + 1) mod 3)%nat in
  let b := get3 (tri_indices_ t) ((edgeIndex + 2) mod 3)%nat in
  if b <? a then (b, a) else (a, b).

Definition edge_eqb (e1 e2 : N * N) : bool :=
  (fst e1 =? fst e2) && (snd e1 =? snd e2).

Definition set_tri_neighbor (t : TetrahedralMeshSurfaceTriangle) (j : nat) (v : N)
  : TetrahedralMeshSurfaceTriangle :=
  mkTriangle (tri_indices_ t) (unusedIndex_ t) (set3 (tri_neighbors_ t) j v)
             (tetIndex_ t) (tetFace_ t).

(** Modelled from the spec: [TetrahedralMeshSurfaceTriangle::Normalize]
    (declared in TetrahedralMesh.h): the triangle is wound so that its normal
    [(p2 - p1) x (p3 - p1)] points away from the fourth vertex of the
    tetrahedron it bounds; rewinding exchanges the first two vertices and the
    neighbours across their edges. *)
Definition Normalize (t : TetrahedralMeshSurfaceTriangle) (vertices : list (Vector3 F))
  : TetrahedralMeshSurfaceTriangle :=
  let p0 := at_ Vector3_ZERO vertices (unusedIndex_ t) in
  let p1 := at_ Vector3_ZERO vertices (e30 (tri_indices_ t)) in
  let p2 := at_ Vector3_ZERO vertices (e31 (tri_indices_ t)) in
  let p3 := at_ Vector3_ZERO vertices (e32 (tri_indices_ t)) in
  let normal := CrossProduct (vsub p2 p1) (vsub p3 p1) in
  if (DotProduct (vsub p1 p0) normal <? s_of_Z 0)%S then
    mkTriangle (mk3 (e31 (tri_indices_ t)) (e30 (tri_indices_ t)) (e32 (tri_indices_ t)))
               (unusedIndex_ t)
               (mk3 (e31 (tri_neighbors_ t)) (e30 (tri_neighbors_ t)) (e32 (tri_neighbors_ t)))
               (tetIndex_ t) (tetFace_ t)
  else t.

Definition Surface_Clear : TetrahedralMeshSurface := mkSurface [].
Definition Surface_Size (s : TetrahedralMeshSurface) : N := size (faces_ s).

(** Modelled from the spec: [TetrahedralMeshSurface::AddFace] (declared in
    TetrahedralMesh.h).  Each edge of a triangle records the adjacent triangle
    sharing that edge, and an edge has at most one matching edge: the new face
    is linked, edge by edge, with the faces already present; when an edge to
    be linked already has its neighbour the face is refused and the surface
    is left as it was. *)
Definition link_edges (oldFaceIndex newFaceIndex : N)
    (acc : option (TetrahedralMeshSurfaceTriangle * TetrahedralMeshSurfaceTriangle))
    (e : nat * nat)
  : option (TetrahedralMeshSurfaceTriangle * TetrahedralMeshSurfaceTriangle) :=
  match acc with
  | None => None
  | Some (oldFace, newFace) =>
    let '(oldEdgeIndex, newEdgeIndex) := e in
    if edge_eqb (GetEdge oldFace oldEdgeIndex) (GetEdge newFace newEdgeIndex) then
      if negb (get3 (tri_neighbors_ oldFace) oldEdgeIndex =? M_MAX_UNSIGNED)
         || negb (get3 (tri_neighbors_ newFace) newEdgeIndex =? M_MAX_UNSIGNED)
      then None
      else Some (set_tri_neighbor oldFace oldEdgeIndex newFaceIndex,
                 set_tri_neighbor newFace newEdgeIndex oldFaceIndex)
    else acc
  end.

Definition edge_pairs : list (nat * nat) :=
  [(0,0); (0,1); (0,2); (1,0); (1,1); (1,2); (2,0); (2,1); (2,2)]%nat.

Fixpoint link_faces (newFaceIndex : N) (oldFaceIndex : nat)
    (olds : list TetrahedralMeshSurfaceTriangle)
    (newFace : TetrahedralMeshSurfaceTriangle)
  : option (list TetrahedralMeshSurfaceTriangle * TetrahedralMeshSurfaceTriangle) :=
  match olds with
  | [] => Some ([], newFace)
  | oldFace :: rest =>
    match foldl (link_edges (N.of_nat oldFaceIndex) newFaceIndex)
                (Some (oldFace, newFace)) edge_pairs with
    | None => None
    | Some (oldFace', newFace') =>
      match link_faces newFaceIndex (S oldFaceIndex) rest newFace' with
      | None => None
      | Some (rest', newFace'') => Some (oldFace' :: rest', newFace'')
      end
    end
  end.

Definition AddFace (s : TetrahedralMeshSurface) (newFace : TetrahedralMeshSurfaceTriangle)
  : bool * TetrahedralMeshSurface :=
  match link_faces (Surface_Size s) 0%nat (faces_ s) newFace with
  | None => (false, s)
  | Some (olds, newFace') => (true, mkSurface (olds ++ [newFace']))
  end.

(** The edges of all faces of a surface. *)
Definition surface_edges (s : TetrahedralMeshSurface) : list (N * N) :=
  flat_map (fun t => [GetEdge t 0%nat; GetEdge t 1%nat; GetEdge t 2%nat]) (faces_ s).

Definition count_edge (e : N * N) (es : list (N * N)) : nat :=
  length (filter (fun e' => edge_eqb e e' = true) es).

(** Modelled from the spec: [TetrahedralMeshSurface::IsClosedSurface] (declared
    in TetrahedralMesh.h): a surface is closed iff every edge has exactly one
    matching edge in the surface, that is, it occurs in exactly two faces. *)
Definition IsClosedSurface (s : TetrahedralMeshSurface) : bool :=
  forallb (fun e => (count_edge e (surface_edges s) =? 2)%nat) (surface_edges s).

Record DelaunayContext : Type := mkContext {
  circumspheres_ : list (HighPrecisionSphere F);
  removed_ : list bool;
  holeTriangles_ : list TetrahedralMeshSurfaceTriangle
}.

(** Modelled from the spec: [DelaunayContext::IsInsideCircumsphere] (declared
    in TetrahedralMesh.h): the cached circumsphere of the cell contains the
    position, up to the epsilon of the construction. *)
Definition IsInsideCircumsphere (md : Constants F) (ctx : DelaunayContext)
    (tetIndex : N) (position : Vector3 F) : bool :=
  (Sphere_Distance (at_ Sphere_default (circumspheres_ ctx) tetIndex) position
    <? M_LARGE_EPSILON md)%S.

Inductive LogEvent : Type :=
| LogWarning_DegenerateTetrahedron
| LogError_CannotUpdateMesh (position : Vector3 F)
| LogError_CannotUpdateSurface (position : Vector3 F)
| LogError_SurfaceIncomplete (position : Vector3 F)
| LogWarning_VerticesExcluded (count : N).

Record TetrahedralMesh : Type := mkMesh {
  vertices_ : list (Vector3 F);
  tetrahedrons_ : list Tetrahedron;
  hullNormals_ : list (Vector3 F);
  ignoredVertices_ : list N;
  numInnerTetrahedrons_ : N;
  debugHighlightEdges_ : list (N * N)
}.

Definition Mesh_empty : TetrahedralMesh := mkMesh [] [] [] [] 0 [].

Definition with_vertices (m : TetrahedralMesh) (v : list (Vector3 F)) :=
  mkMesh v (tetrahedrons_ m) (hullNormals_ m) (ignoredVertices_ m)
         (numInnerTetrahedrons_ m) (debugHighlightEdges_ m).
Definition with_tetrahedrons (m : TetrahedralMesh) (t : list Tetrahedron) :=
  mkMesh (vertices_ m) t (hullNormals_ m) (ignoredVertices_ m)
         (numInnerTetrahedrons_ m) (debugHighlightEdges_ m).
Definition with_hullNormals (m : TetrahedralMesh) (h : list (Vector3 F)) :=
  mkMesh (vertices_ m) (tetrahedrons_ m) h (ignoredVertices_ m)
         (numInnerTetrahedrons_ m) (debugHighlightEdges_ m).
Definition with_ignoredVertices (m : TetrahedralMesh) (i : list N) :=
  mkMesh (vertices_ m) (tetrahedrons_ m) (hullNormals_ m) i
         (numInnerTetrahedrons_ m) (debugHighlightEdges_ m).
Definition with_numInner (m : TetrahedralMesh) (n : N) :=
  mkMesh (vertices_ m) (tetrahedrons_ m) (hullNormals_ m) (ignoredVertices_ m)
         n (debugHighlightEdges_ m).
Definition with_debugEdges (m : TetrahedralMesh) (d : list (N * N)) :=
  mkMesh (vertices_ m) (tetrahedrons_ m) (hullNormals_ m) (ignoredVertices_ m)
         (numInnerTetrahedrons_ m) d.

Definition tet (m : TetrahedralMesh) (i : N) : Tetrahedron :=
  at_ Tetrahedron_default (tetrahedrons_ m) i.
Definition vertex (m : TetrahedralMesh) (i : N) : Vector3 F :=
  at_ Vector3_ZERO (vertices_ m) i.

End DataModel.
Arguments TetrahedralMeshSurfaceTriangle : clear implicits.
Arguments Tetrahedron F : clear implicits.
Arguments DelaunayContext F : clear implicits.
Arguments LogEvent F : clear implicits.
Arguments TetrahedralMesh F : clear implicits.

(** ** The mesh operations *)

Section Mesh.
Context {F : Type} {SF : Scalar F}.
Variable md : Constants F.
Local Open Scope scalar_scope.

Abbreviation Tri := TetrahedralMeshSurfaceTriangle.
Abbreviation MAXU := M_MAX_UNSIGNED.

(** Modelled from the spec: the number of super-mesh vertices (declared in
    TetrahedralMesh.h): the eight corners of the padded box. *)
Definition NumSuperMeshVertices : N := 8.

(** The loop counters [0 .. size - 1] of a vector. *)
Definition indices_of {A} (v : list A) : list N := map N.of_nat (seq 0 (length v)).

(** [*ea::min_element(begin, end)]: the first smallest element. *)
Definition min_element (d : F) (v : list F) : F :=
  match v with
  | [] => d
  | x :: rest => foldl (fun best y => if y <? best then y else best) x rest
  end.

Definition GetTetrahedronCircumsphere (m : TetrahedralMesh F) (tetIndex : N)
  : list (LogEvent F) * HighPrecisionSphere F :=
  let tetrahedron := tet m tetIndex in
  let p0 := vertex m (e40 (indices_ tetrahedron)) in
  let p1 := vertex m (e41 (indices_ tetrahedron)) in
  let p2 := vertex m (e42 (indices_ tetrahedron)) in
  let p3 := vertex m (e43 (indices_ tetrahedron)) in
  let u1 := vsub p1 p0 in
  let u2 := vsub p2 p0 in
  let u3 := vsub p3 p0 in
  let d01 := LengthSquared u1 in
  let d02 := LengthSquared u2 in
  let d03 := LengthSquared u3 in
  let u2u3 := CrossProduct u2 u3 in
  let u3u1 := CrossProduct u3 u1 in
  let u1u2 := CrossProduct u1 u2 in
  let radiusNum := vadd (vadd (vscale u2u3 d01) (vscale u3u1 d02)) (vscale u1u2 d03) in
  let radiusDen := s_of_Z 2 * DotProduct u1 u2u3 in
  if s_abs radiusDen <? M_EPSILON md * M_EPSILON md then
    ([LogWarning_DegenerateTetrahedron],
     mkSphere Vector3_ZERO (M_LARGE_VALUE md * M_LARGE_VALUE md))
  else
    let center := vadd p0 (vscale radiusNum (s_of_Z 1 / radiusDen)) in
    let squaredDistances :=
      [ LengthSquared (vsub p0 center); LengthSquared (vsub p1 center);
        LengthSquared (vsub p2 center); LengthSquared (vsub p3 center) ] in
    let radiusSquared := min_element (s_of_Z 0) squaredDistances in
    ([], mkSphere center (s_sqrt radiusSquared)).

Definition superMesh_offsets : list (Vector3 F) :=
  let o := s_of_Z 0 in let i := s_of_Z 1 in
  [ mkVector3 o o o; mkVector3 i o o; mkVector3 o i o; mkVector3 i i o;
    mkVector3 o o i; mkVector3 i o i; mkVector3 o i i; mkVector3 i i i ].

Definition superMesh_indices : list (Arr4 N) :=
  [ mk4 0 1 2 4; mk4 3 1 2 7; mk4 5 1 4 7; mk4 6 2 4 7; mk4 1 2 4 7 ]%N.

Definition superMesh_neighbors : list (Arr4 N) :=
  [ mk4 4 MAXU MAXU MAXU; mk4 4 MAXU MAXU MAXU; mk4 4 MAXU MAXU MAXU;
    mk4 4 MAXU MAXU MAXU; mk4 3 2 1 0 ]%N.

Definition InitializeSuperMesh (m : TetrahedralMesh F) (boundingBox : BoundingBox F)
  : TetrahedralMesh F :=
  let vertices :=
    map (fun offset => vadd (min_ boundingBox) (vmul (BoundingBox_Size boundingBox) offset))
        superMesh_offsets in
  let tetrahedrons :=
    zip_with (fun i n => set_neighbors (set_indices Tetrahedron_default i) n)
             superMesh_indices superMesh_neighbors in
  with_tetrahedrons (with_vertices m vertices) tetrahedrons.

Definition IsAdjacencyValid (m : TetrahedralMesh F) (fullyConnected : bool) : bool :=
  forallb (fun tetIndex =>
    forallb (fun faceIndex =>
      let neighborIndex := get4 (neighbors_ (tet m tetIndex)) faceIndex in
      if negb (neighborIndex =? MAXU)%N then HasNeighbor (tet m neighborIndex) tetIndex
      else negb fullyConnected)
      [0; 1; 2; 3]%nat)
    (indices_of (tetrahedrons_ m)).

(** *** Carving the hole *)

Definition set_removed (ctx : DelaunayContext F) (i : N) (b : bool) : DelaunayContext F :=
  mkContext (circumspheres_ ctx) (put (removed_ ctx) i b) (holeTriangles_ ctx).
Definition set_circumsphere (ctx : DelaunayContext F) (i : N) (s : HighPrecisionSphere F)
  : DelaunayContext F :=
  mkContext (put (circumspheres_ ctx) i s) (removed_ ctx) (holeTriangles_ ctx).
Definition set_holeTriangles (ctx : DelaunayContext F) (t : list Tri) : DelaunayContext F :=
  mkContext (circumspheres_ ctx) (removed_ ctx) t.

(** The flag of a cell; a cell past the end of the flags counts as removed. *)
Definition is_removed (ctx : DelaunayContext F) (i : N) : bool := at_ true (removed_ ctx) i.

(** "Find first tetrahedron to remove". *)
Definition find_first_intersected (m : TetrahedralMesh F) (ctx : DelaunayContext F)
    (position : Vector3 F) : option N :=
  List.find (fun tetIndex => negb (is_removed ctx tetIndex)
                             && IsInsideCircumsphere md ctx tetIndex position)
            (indices_of (tetrahedrons_ m)).

(** "Process neighbors": one face of one queued cell of the breadth search. *)
Definition search_face (position : Vector3 F) (tetrahedron : Tetrahedron F)
    (st : DelaunayContext F * list N) (faceIndex : nat) : DelaunayContext F * list N :=
  let neighborTetIndex := get4 (neighbors_ tetrahedron) faceIndex in
  if (neighborTetIndex =? MAXU)%N then st
  else if is_removed (fst st) neighborTetIndex then st
  else if IsInsideCircumsphere md (fst st) neighborTetIndex position then
    (set_removed (fst st) neighborTetIndex true, snd st ++ [neighborTetIndex])
  else st.

(** "Do breadth search to collect all bad tetrahedrons": the loop
    [for (i = 0; i < removedTetrahedrons.size(); ++i)] over a vector that
    grows while it is read.  [fuel] bounds the number of iterations: every
    cell is queued at most once, so one more than the number of flags is
    enough ([breadth_search_fuel] below). *)
Fixpoint breadth_search (fuel : nat) (m : TetrahedralMesh F) (position : Vector3 F)
    (st : DelaunayContext F * list N) (i : nat) : DelaunayContext F * list N :=
  match fuel with
  | O => st
  | S fuel' =>
    match snd st !! i with
    | None => st
    | Some tetIndex =>
      breadth_search fuel' m position
        (foldl (search_face position (tet m tetIndex)) st [0; 1; 2; 3]%nat) (S i)
    end
  end.

(** "Collect triangles of the hole surface": the faces of one removed cell. *)
Definition hole_face (m : TetrahedralMesh F) (ctx : DelaunayContext F) (tetIndex : N)
    (acc : list Tri) (faceIndex : nat) : list Tri :=
  let tetrahedron := tet m tetIndex in
  let neighborTetIndex := get4 (neighbors_ tetrahedron) faceIndex in
  if (neighborTetIndex =? MAXU)%N then
    acc ++ [GetTriangleFace tetrahedron faceIndex MAXU MAXU]
  else if negb (is_removed ctx neighborTetIndex) then
    let neighborTetrahedron := tet m neighborTetIndex in
    let neighborFaceIndex := GetNeighborFaceIndex neighborTetrahedron tetIndex in
    acc ++ [GetTriangleFace neighborTetrahedron neighborFaceIndex neighborTetIndex
                            (N.of_nat neighborFaceIndex)]
  else acc.

Definition collect_hole_triangles (m : TetrahedralMesh F) (ctx : DelaunayContext F)
    (removedTetrahedrons : list N) : list Tri :=
  foldl (fun acc tetIndex => foldl (hole_face m ctx tetIndex) acc [0; 1; 2; 3]%nat)
        [] removedTetrahedrons.

(** "Verify that all hole triangles are faced in right direction": the
    triangles are normalised in place up to the first one that fails. *)
Fixpoint verify_hole_triangles (m : TetrahedralMesh F) (p0 : HighPrecisionVector3 F)
    (triangles : list Tri) : bool * list Tri :=
  match triangles with
  | [] => (true, [])
  | triangle :: rest =>
    if (tetIndex_ triangle =? MAXU)%N then
      let r := verify_hole_triangles m p0 rest in (fst r, triangle :: snd r)
    else
      let triangle' := Normalize triangle (vertices_ m) in
      let p1 := vertex m (e30 (tri_indices_ triangle')) in
      let p2 := vertex m (e31 (tri_indices_ triangle')) in
      let p3 := vertex m (e32 (tri_indices_ triangle')) in
      let normal := CrossProduct (vsub p2 p1) (vsub p3 p1) in
      let distance := DotProduct (vsub p0 p1) normal in
      if distance <? M_LARGE_EPSILON md then (false, triangle' :: rest)
      else let r := verify_hole_triangles m p0 rest in (fst r, triangle' :: snd r)
  end.

Definition dump_edges (triangles : list Tri) : list (N * N) :=
  flat_map (fun triangle =>
              let i0 := e30 (tri_indices_ triangle) in
              let i1 := e31 (tri_indices_ triangle) in
              let i2 := e32 (tri_indices_ triangle) in
              [(i0, i1); (i1, i2); (i2, i0)]) triangles.

(** "Build hole surface": the faces are added one by one; [None] when one is
    refused. *)
Fixpoint build_hole_surface (s : TetrahedralMeshSurface) (triangles : list Tri)
  : option TetrahedralMeshSurface :=
  match triangles with
  | [] => Some s
  | triangle :: rest =>
    let r := AddFace s triangle in
    if fst r then build_hole_surface (snd r) rest else None
  end.

(** What [FindAndRemoveIntersected] leaves behind: its result, the context,
    the two output arguments, the debug edges and the log. *)
Record Carve : Type := mkCarve {
  carve_ok : bool;
  carve_ctx : DelaunayContext F;
  carve_holeSurface : TetrahedralMeshSurface;
  carve_removedTetrahedrons : list N;
  carve_debugHighlightEdges : list (N * N);
  carve_log : list (LogEvent F)
}.

Definition FindAndRemoveIntersected (m : TetrahedralMesh F) (ctx : DelaunayContext F)
    (position : Vector3 F) (dumpErrors : bool) : Carve :=
  match find_first_intersected m ctx position with
  | None =>
    mkCarve false ctx Surface_Clear [] (debugHighlightEdges_ m)
            [LogError_CannotUpdateMesh position]
  | Some first =>
    let st := breadth_search (S (length (removed_ ctx))) m position
                             (set_removed ctx first true, [first]) 0 in
    let removedTetrahedrons := snd st in
    let v := verify_hole_triangles m position
               (collect_hole_triangles m (fst st) removedTetrahedrons) in
    let valid := fst v in
    let ctx1 := set_holeTriangles (fst st) (snd v) in
    if negb valid || dumpErrors then
      mkCarve false
              (foldl (fun c tetIndex => set_removed c tetIndex false) ctx1 removedTetrahedrons)
              Surface_Clear []
              (if dumpErrors then debugHighlightEdges_ m ++ dump_edges (snd v)
               else debugHighlightEdges_ m)
              []
    else
      match build_hole_surface Surface_Clear (snd v) with
      | None =>
        mkCarve false ctx1 Surface_Clear removedTetrahedrons (debugHighlightEdges_ m)
                [LogError_CannotUpdateSurface position]
      | Some holeSurface =>
        if negb (IsClosedSurface holeSurface) then
          mkCarve false ctx1 Surface_Clear removedTetrahedrons (debugHighlightEdges_ m)
                  [LogError_SurfaceIncomplete position]
        else
          mkCarve true ctx1 holeSurface removedTetrahedrons (debugHighlightEdges_ m) []
      end
  end.

(** *** Filling the hole *)

(** One face of a removed cell in [DisconnectRemovedTetrahedrons].  The slot
    written in the neighbour is the one [GetNeighborFaceIndex] finds.  When
    the neighbour does not name the cell back this is 4, and the source
    writes [neighbors_[4]], past the end of the array, which is undefined;
    nothing is stored here in that case.  [disconnect_face_checked] below is
    the same body with the subscripts checked. *)
Definition disconnect_face (tetIndex : N) (tets : list (Tetrahedron F)) (faceIndex : nat)
  : list (Tetrahedron F) :=
  let neighborTetIndex := get4 (neighbors_ (at_ Tetrahedron_default tets tetIndex)) faceIndex in
  if negb (neighborTetIndex =? MAXU)%N then
    let neighborFaceIndex :=
      GetNeighborFaceIndex (at_ Tetrahedron_default tets neighborTetIndex) tetIndex in
    let tets1 :=
      put tets tetIndex (set_neighbor (at_ Tetrahedron_default tets tetIndex) faceIndex MAXU) in
    put tets1 neighborTetIndex
        (set_neighbor (at_ Tetrahedron_default tets1 neighborTetIndex) neighborFaceIndex MAXU)
  else tets.

Definition DisconnectRemovedTetrahedrons (m : TetrahedralMesh F) (removedTetrahedrons : list N)
  : TetrahedralMesh F :=
  with_tetrahedrons m
    (foldl (fun tets tetIndex => foldl (disconnect_face tetIndex) tets [0; 1; 2; 3]%nat)
           (tetrahedrons_ m) removedTetrahedrons).

(** "Allocate space for new tetrahedrons": the loop
    [while (removedTetrahedrons.size() < holeSurface.Size())], which runs
    [count] times. *)
Fixpoint allocate (count : nat) (m : TetrahedralMesh F) (ctx : DelaunayContext F)
    (removedTetrahedrons : list N) : TetrahedralMesh F * DelaunayContext F * list N :=
  match count with
  | O => (m, ctx, removedTetrahedrons)
  | S count' =>
    allocate count'
      (with_tetrahedrons m (tetrahedrons_ m ++ [Tetrahedron_default]))
      (mkContext (circumspheres_ ctx ++ [Sphere_default]) (removed_ ctx ++ [true])
                 (holeTriangles_ ctx))
      (removedTetrahedrons ++ [size (tetrahedrons_ m)])
  end.

Definition fill_step (outputTetrahedrons : list N) (holeSurface : TetrahedralMeshSurface)
    (centerIndex : N)
    (st : TetrahedralMesh F * DelaunayContext F * list (LogEvent F)) (i : N)
  : TetrahedralMesh F * DelaunayContext F * list (LogEvent F) :=
  let '(m, ctx, log) := st in
  let newTetIndex := at_ 0%N outputTetrahedrons i in
  let holeTriangle := at_ Triangle_default (faces_ holeSurface) i in
  let tetrahedron :=
    foldl (fun t j =>
             set_neighbor (set_index t j (get3 (tri_indices_ holeTriangle) j)) j
                          (at_ 0%N outputTetrahedrons (get3 (tri_neighbors_ holeTriangle) j)))
          (tet m newTetIndex) [0; 1; 2]%nat in
  let tetrahedron := set_neighbor (set_index tetrahedron 3 centerIndex) 3 (tetIndex_ holeTriangle) in
  let tets1 := put (tetrahedrons_ m) newTetIndex tetrahedron in
  let tets2 :=
    if negb (tetIndex_ holeTriangle =? MAXU)%N then
      put tets1 (tetIndex_ holeTriangle)
          (set_neighbor (at_ Tetrahedron_default tets1 (tetIndex_ holeTriangle))
                        (N.to_nat (tetFace_ holeTriangle)) newTetIndex)
    else tets1 in
  let m' := with_tetrahedrons m tets2 in
  let s := GetTetrahedronCircumsphere m' newTetIndex in
  (m', set_circumsphere (set_removed ctx newTetIndex false) newTetIndex (snd s), log ++ fst s).

Definition FillStarShapedHole (m : TetrahedralMesh F) (ctx : DelaunayContext F)
    (outputTetrahedrons : list N) (holeSurface : TetrahedralMeshSurface) (centerIndex : N)
  : TetrahedralMesh F * DelaunayContext F * list (LogEvent F) :=
  foldl (fill_step outputTetrahedrons holeSurface centerIndex) (m, ctx, [])
        (indices_of (faces_ holeSurface)).

(** *** The insertion loop *)

(** The state the triangulation loop threads: the mesh, the context and the
    log. *)
Record Build : Type := mkBuild {
  build_mesh : TetrahedralMesh F;
  build_ctx : DelaunayContext F;
  build_log : list (LogEvent F)
}.

(** The body of [for (unsigned newVertexIndex : verticesQueue)]: one vertex is
    inserted or postponed. *)
Definition insert_vertex (st : Build * list N) (newVertexIndex : N) : Build * list N :=
  let '(b, postponedVertices) := st in
  let m := build_mesh b in
  let c := FindAndRemoveIntersected m (build_ctx b) (vertex m newVertexIndex) false in
  if negb (carve_ok c) then
    (mkBuild m (carve_ctx c) (build_log b ++ carve_log c),
     postponedVertices ++ [newVertexIndex])
  else
    let removedTetrahedrons := carve_removedTetrahedrons c in
    let holeSurface := carve_holeSurface c in
    let m1 := DisconnectRemovedTetrahedrons m removedTetrahedrons in
    let a := allocate (length (faces_ holeSurface) - length removedTetrahedrons)
                      m1 (carve_ctx c) removedTetrahedrons in
    let f := FillStarShapedHole (fst (fst a)) (snd (fst a)) (snd a) holeSurface
                                newVertexIndex in
    (mkBuild (fst (fst f)) (snd (fst f)) (build_log b ++ carve_log c ++ snd f),
     postponedVertices).

(** "Process current bunch of vertices". *)
Definition process_queue (b : Build) (verticesQueue : list N) : Build * list N :=
  foldl insert_vertex (b, []) verticesQueue.

(** "Triangulate": the loop [while (!verticesQueue.empty())].  The result is
    the state and the vertices left in the queue.  [fuel] bounds the number
    of passes. *)
Fixpoint triangulate (fuel : nat) (b : Build) (verticesQueue : list N) : Build * list N :=
  match fuel with
  | O => (b, verticesQueue)
  | S fuel' =>
    match verticesQueue with
    | [] => (b, [])
    | _ =>
      let r := process_queue b verticesQueue in
      let postponedVertices := snd r in
      if (length verticesQueue =? length postponedVertices)%nat then
        (mkBuild (build_mesh (fst r)) (build_ctx (fst r))
                 (build_log (fst r) ++ [LogWarning_VerticesExcluded (size verticesQueue)]),
         postponedVertices)
      else triangulate fuel' (fst r) postponedVertices
    end
  end.

(** "Dump failed attempts for debugging": the body of the loop, which reads
    the first vertex of the queue whatever [ignoredVertex] is. *)
Definition dump_step (verticesQueue : list N) (b : Build) (ignoredVertex : N) : Build :=
  let m := build_mesh b in
  let position := vertex m (at_ 0%N verticesQueue 0) in
  let c := FindAndRemoveIntersected m (build_ctx b) position true in
  mkBuild (with_debugEdges m (carve_debugHighlightEdges c)) (carve_ctx c)
          (build_log b ++ carve_log c).

Definition dump_failed (b : Build) (verticesQueue : list N) : Build :=
  foldl (dump_step verticesQueue) b verticesQueue.

(** *** Finalisation *)

Definition has_super_vertex (t : Tetrahedron F) : bool :=
  existsb (fun j => (get4 (indices_ t) j <? NumSuperMeshVertices)%N) [0; 1; 2; 3]%nat.

(** One face of a flagged cell in [DisconnectSuperMeshTetrahedrons].  The
    source asserts [neighborFaceIndex < 4] before it writes
    [neighbors_[neighborFaceIndex]]; with the assertion compiled out, a
    neighbour that does not name the cell back makes it write
    [neighbors_[4]], which is undefined, and nothing is stored here in that
    case.  [disconnect_super_face_checked] below is the same body with the
    subscripts checked. *)
Definition disconnect_super_face (tetIndex : N) (tetrahedron_neighbors : Arr4 N)
    (tets : list (Tetrahedron F)) (faceIndex : nat) : list (Tetrahedron F) :=
  let neighborIndex := get4 tetrahedron_neighbors faceIndex in
  if negb (neighborIndex =? MAXU)%N then
    let neighborTetrahedron := at_ Tetrahedron_default tets neighborIndex in
    let neighborFaceIndex := GetNeighborFaceIndex neighborTetrahedron tetIndex in
    put tets neighborIndex (set_neighbor neighborTetrahedron neighborFaceIndex MAXU)
  else tets.

Definition disconnect_super_step (st : list (Tetrahedron F) * list bool) (tetIndex : N)
  : list (Tetrahedron F) * list bool :=
  let '(tets, removed) := st in
  let removed1 :=
    if has_super_vertex (at_ Tetrahedron_default tets tetIndex)
    then put removed tetIndex true else removed in
  if negb (at_ true removed1 tetIndex) then (tets, removed1)
  else
    (foldl (fun ts faceIndex =>
              disconnect_super_face tetIndex
                (neighbors_ (at_ Tetrahedron_default ts tetIndex)) ts faceIndex)
           tets [0; 1; 2; 3]%nat,
     removed1).

Definition DisconnectSuperMeshTetrahedrons (m : TetrahedralMesh F) (removed : list bool)
  : TetrahedralMesh F * list bool :=
  let r := foldl disconnect_super_step (tetrahedrons_ m, removed)
                 (indices_of (tetrahedrons_ m)) in
  (with_tetrahedrons m (fst r), snd r).

(** "Rebuild array and create index". *)
Definition rebuild_step (removed : list bool)
    (st : list (Tetrahedron F) * list N) (old : N * Tetrahedron F)
  : list (Tetrahedron F) * list N :=
  if at_ true removed (fst old) then (fst st, snd st ++ [MAXU])
  else (fst st ++ [snd old], snd st ++ [size (fst st)]).

(** "Adjust neighbor indices". *)
Definition remap_neighbors (oldToNewIndexMap : list N) (t : Tetrahedron F) : Tetrahedron F :=
  foldl (fun t' faceIndex =>
           let oldIndex := get4 (neighbors_ t') faceIndex in
           if negb (oldIndex =? MAXU)%N
           then set_neighbor t' faceIndex (at_ 0%N oldToNewIndexMap oldIndex)
           else t')
        t [0; 1; 2; 3]%nat.

Definition RemoveMarkedTetrahedrons (m : TetrahedralMesh F) (removed : list bool)
  : TetrahedralMesh F :=
  let tetrahedronsCopy := tetrahedrons_ m in
  let r := foldl (rebuild_step removed) ([], [])
                 (zip (indices_of tetrahedronsCopy) tetrahedronsCopy) in
  with_tetrahedrons m (map (remap_neighbors (snd r)) (fst r)).

Definition shift_debug_index (vertexCount : N) (index : N) : N :=
  if (index <? NumSuperMeshVertices)%N
  then uadd index (usub vertexCount NumSuperMeshVertices)
  else usub index NumSuperMeshVertices.

Definition RemoveSuperMeshVertices (m : TetrahedralMesh F) : TetrahedralMesh F :=
  let k := N.to_nat NumSuperMeshVertices in
  let vertices := drop k (vertices_ m) ++ take k (vertices_ m) in
  let tets :=
    map (fun t => foldl (fun t' faceIndex =>
                           set_index t' faceIndex
                             (usub (get4 (indices_ t') faceIndex) NumSuperMeshVertices))
                        t [0; 1; 2; 3]%nat)
        (tetrahedrons_ m) in
  let edges :=
    map (fun edge => (shift_debug_index (size vertices) (fst edge),
                      shift_debug_index (size vertices) (snd edge)))
        (debugHighlightEdges_ m) in
  with_debugEdges (with_tetrahedrons (with_vertices m vertices) tets) edges.

Definition UpdateIgnoredVertices (m : TetrahedralMesh F) : TetrahedralMesh F :=
  let ignored :=
    foldl (fun ig t => foldl (fun ig' faceIndex => put ig' (get4 (indices_ t) faceIndex) false)
                             ig [0; 1; 2; 3]%nat)
          (replicate (length (vertices_ m)) true) (tetrahedrons_ m) in
  let candidates :=
    map N.of_nat (seq 0 (length (vertices_ m) - N.to_nat NumSuperMeshVertices)) in
  with_ignoredVertices m (filter (fun vertexIndex => at_ true ignored vertexIndex = true) candidates).

(** *** Hull and outer cells *)

Definition hull_face (tetIndex : N) (tetrahedron : Tetrahedron F)
    (hullSurface : TetrahedralMeshSurface) (faceIndex : nat) : TetrahedralMeshSurface :=
  if negb (get4 (neighbors_ tetrahedron) faceIndex =? MAXU)%N then hullSurface
  else snd (AddFace hullSurface
                    (GetTriangleFace tetrahedron faceIndex tetIndex (N.of_nat faceIndex))).

Definition BuildHullSurface (m : TetrahedralMesh F) : TetrahedralMeshSurface :=
  let s := foldl (fun hs (it : N * Tetrahedron F) =>
                    foldl (hull_face (fst it) (snd it)) hs [0; 1; 2; 3]%nat)
                 Surface_Clear
                 (zip (indices_of (tetrahedrons_ m)) (tetrahedrons_ m)) in
  mkSurface (map (fun hullTriangle => Normalize hullTriangle (vertices_ m)) (faces_ s)).

(** [v.resize(n)]: the elements kept, then default ones. *)
Definition resize {A} (d : A) (v : list A) (n : nat) : list A :=
  take n v ++ replicate (n - length v) d.

Definition accumulate_normal (m : TetrahedralMesh F) (normals : list (Vector3 F)) (triangle : Tri)
  : list (Vector3 F) :=
  let p1 := vertex m (e30 (tri_indices_ triangle)) in
  let p2 := vertex m (e31 (tri_indices_ triangle)) in
  let p3 := vertex m (e32 (tri_indices_ triangle)) in
  let normal := CrossProduct (vsub p2 p1) (vsub p3 p1) in
  foldl (fun ns j =>
           let k := get3 (tri_indices_ triangle) j in
           put ns k (vadd (at_ Vector3_ZERO ns k) normal))
        normals [0; 1; 2]%nat.

Definition CalculateHullNormals (m : TetrahedralMesh F) (hullSurface : TetrahedralMeshSurface)
  : TetrahedralMesh F :=
  let normals := resize Vector3_ZERO (hullNormals_ m) (length (vertices_ m)) in
  let normals := foldl (accumulate_normal m) normals (faces_ hullSurface) in
  with_hullNormals m
    (map (fun normal => if negb (veqb normal Vector3_ZERO) then Normalize_Vector3 normal
                        else normal) normals).

Definition outer_step (numInnerTetrahedrons : N) (hullSurface : TetrahedralMeshSurface)
    (tets : list (Tetrahedron F)) (tetIndex : N) : list (Tetrahedron F) :=
  let hullTriangle :=
    at_ Triangle_default (faces_ hullSurface) (tetIndex - numInnerTetrahedrons) in
  let tetrahedron :=
    foldl (fun t faceIndex =>
             set_neighbor (set_index t faceIndex (get3 (tri_indices_ hullTriangle) faceIndex))
                          faceIndex
                          (uadd numInnerTetrahedrons
                                (get3 (tri_neighbors_ hullTriangle) faceIndex)))
          (at_ Tetrahedron_default tets tetIndex) [0; 1; 2]%nat in
  let tetrahedron :=
    set_neighbor (set_index tetrahedron 3 (Infinity3 md)) 3 (tetIndex_ hullTriangle) in
  let tets1 := put tets tetIndex tetrahedron in
  put tets1 (tetIndex_ hullTriangle)
      (set_neighbor (at_ Tetrahedron_default tets1 (tetIndex_ hullTriangle))
                    (N.to_nat (tetFace_ hullTriangle)) tetIndex).

Definition BuildOuterTetrahedrons (m : TetrahedralMesh F) (hullSurface : TetrahedralMeshSurface)
  : TetrahedralMesh F :=
  let numInner := length (tetrahedrons_ m) in
  let tets := resize Tetrahedron_default (tetrahedrons_ m)
                     (numInner + length (faces_ hullSurface)) in
  let outer := map N.of_nat (seq numInner (length tets - numInner)) in
  with_tetrahedrons (with_numInner m (N.of_nat numInner))
    (foldl (outer_step (N.of_nat numInner) hullSurface) tets outer).

(** *** Matrices *)

Definition inner_matrix (m : TetrahedralMesh F) (tetrahedron : Tetrahedron F) : Matrix3x4 F :=
  let p0 := vertex m (e40 (indices_ tetrahedron)) in
  let p1 := vertex m (e41 (indices_ tetrahedron)) in
  let p2 := vertex m (e42 (indices_ tetrahedron)) in
  let p3 := vertex m (e43 (indices_ tetrahedron)) in
  let u1 := vsub p1 p0 in
  let u2 := vsub p2 p0 in
  let u3 := vsub p3 p0 in
  Matrix3_Inverse (x_ u1) (x_ u2) (x_ u3) (y_ u1) (y_ u2) (y_ u3) (z_ u1) (z_ u2) (z_ u3).

Definition CalculateInnerMatrices (m : TetrahedralMesh F) : TetrahedralMesh F :=
  with_tetrahedrons m
    (zip_with (fun tetIndex t =>
                 if (tetIndex <? numInnerTetrahedrons_ m)%N
                 then set_matrix t (inner_matrix m t) else t)
              (indices_of (tetrahedrons_ m)) (tetrahedrons_ m)).

(** The leading coefficient [a] of the cubic of an outer cell. *)
Definition outer_leading (Ap Bp Cp : Vector3 F) : F :=
    x_ Ap * y_ Bp * z_ Cp
  - y_ Ap * x_ Bp * z_ Cp
  + z_ Ap * x_ Bp * y_ Cp
  - z_ Ap * y_ Bp * x_ Cp
  + y_ Ap * z_ Bp * x_ Cp
  - x_ Ap * z_ Bp * y_ Cp.

(** The matrix of an outer cell before it is scaled. *)
Definition outer_matrix (A Ap B Bp P2 Cp : Vector3 F) : Matrix3x4 F :=
  let m00 := y_ Ap * z_ Bp - z_ Ap * y_ Bp in
  let m01 := - x_ Ap * z_ Bp + z_ Ap * x_ Bp in
  let m02 := x_ Ap * y_ Bp - y_ Ap * x_ Bp in
  let m03 :=
      x_ A * y_ Bp * z_ Cp
    - y_ A * x_ Bp * z_ Cp
    + x_ Ap * y_ B * z_ Cp
    - y_ Ap * x_ B * z_ Cp
    + z_ A * x_ Bp * y_ Cp
    - z_ A * y_ Bp * x_ Cp
    + z_ Ap * x_ B * y_ Cp
    - z_ Ap * y_ B * x_ Cp
    - x_ A * z_ Bp * y_ Cp
    + y_ A * z_ Bp * x_ Cp
    - x_ Ap * z_ B * y_ Cp
    + y_ Ap * z_ B * x_ Cp in
  let m03 := m03 - (x_ P2 * m00 + y_ P2 * m01 + z_ P2 * m02) in
  let m10 := y_ Ap * z_ B + y_ A * z_ Bp - z_ Ap * y_ B - z_ A * y_ Bp in
  let m11 := - x_ A * z_ Bp - x_ Ap * z_ B + z_ A * x_ Bp + z_ Ap * x_ B in
  let m12 := x_ A * y_ Bp - y_ A * x_ Bp + x_ Ap * y_ B - y_ Ap * x_ B in
  let m13 :=
      x_ A * y_ B * z_ Cp
    - y_ A * x_ B * z_ Cp
    - x_ A * z_ B * y_ Cp
    + y_ A * z_ B * x_ Cp
    + z_ A * x_ B * y_ Cp
    - z_ A * y_ B * x_ Cp in
  let m13 := m13 - (x_ P2 * m10 + y_ P2 * m11 + z_ P2 * m12) in
  let m20 := - z_ A * y_ B + y_ A * z_ B in
  let m21 := - x_ A * z_ B + z_ A * x_ B in
  let m22 := x_ A * y_ B - y_ A * x_ B in
  let m23 := s_of_Z 0 in
  let m23 := m23 - (x_ P2 * m20 + y_ P2 * m21 + z_ P2 * m22) in
  mkMatrix3x4 m00 m01 m02 m03 m10 m11 m12 m13 m20 m21 m22 m23.

(** The body of the loop of [CalculateOuterMatrices] for one outer cell. *)
Definition outer_cell_matrix (m : TetrahedralMesh F) (tetrahedron : Tetrahedron F)
  : Tetrahedron F :=
  let position i := vertex m (get4 (indices_ tetrahedron) i) in
  let normal i := at_ Vector3_ZERO (hullNormals_ m) (get4 (indices_ tetrahedron) i) in
  let A := vsub (position 0%nat) (position 2%nat) in
  let Ap := vsub (normal 0%nat) (normal 2%nat) in
  let B := vsub (position 1%nat) (position 2%nat) in
  let Bp := vsub (normal 1%nat) (normal 2%nat) in
  let P2 := position 2%nat in
  let Cp := vneg (normal 2%nat) in
  let mat := outer_matrix A Ap B Bp P2 Cp in
  let a := outer_leading Ap Bp Cp in
  if M_EPSILON md <? s_abs a then
    set_matrix tetrahedron (Matrix3x4_scale mat (s_of_Z 1 / a))
  else
    set_index (set_matrix tetrahedron mat) 3 (Infinity2 md).

Definition CalculateOuterMatrices (m : TetrahedralMesh F) : TetrahedralMesh F :=
  with_tetrahedrons m
    (zip_with (fun tetIndex t =>
                 if (tetIndex <? numInnerTetrahedrons_ m)%N then t
                 else outer_cell_matrix m t)
              (indices_of (tetrahedrons_ m)) (tetrahedrons_ m)).

(** *** The build *)

Definition initial_context (m : TetrahedralMesh F) : DelaunayContext F * list (LogEvent F) :=
  let spheres := map (GetTetrahedronCircumsphere m) (indices_of (tetrahedrons_ m)) in
  (mkContext (map snd spheres) (replicate (length (tetrahedrons_ m)) false) [],
   flat_map fst spheres).

(** The triangulation proper: the part of [BuildTetrahedrons] up to and
    including the loop, with the vertices left in the queue. *)
Definition triangulate_points (m : TetrahedralMesh F) (positions : list (Vector3 F))
  : Build * list N :=
  let c := initial_context m in
  let startVertex := length (vertices_ m) in
  let m1 := with_vertices m (vertices_ m ++ positions) in
  let verticesQueue := map N.of_nat (seq startVertex (length positions)) in
  triangulate (S (length verticesQueue)) (mkBuild m1 (fst c) (snd c)) verticesQueue.

(** "Finalize triangulation": the four calls before the hull is built. *)
Definition finalize (b : Build) : TetrahedralMesh F :=
  let d := DisconnectSuperMeshTetrahedrons (build_mesh b) (removed_ (build_ctx b)) in
  UpdateIgnoredVertices (RemoveSuperMeshVertices (RemoveMarkedTetrahedrons (fst d) (snd d))).

(** [BuildTetrahedrons] up to the assertion [IsAdjacencyValid(false)]: the
    stripped mesh and the log. *)
Definition triangulate_and_strip (m : TetrahedralMesh F) (positions : list (Vector3 F))
  : TetrahedralMesh F * list (LogEvent F) :=
  let t := triangulate_points m positions in
  let b := dump_failed (mkBuild (with_debugEdges (build_mesh (fst t)) [])
                                (build_ctx (fst t)) (build_log (fst t)))
                       (snd t) in
  (finalize b, build_log b).

(** "Build the outer space": the hull surface, the hull normals and the outer
    cells, up to the assertion [IsAdjacencyValid(true)]. *)
Definition build_outer_space (m1 : TetrahedralMesh F) : TetrahedralMesh F :=
  let hullSurface := BuildHullSurface m1 in
  let m2 := CalculateHullNormals m1 hullSurface in
  BuildOuterTetrahedrons m2 hullSurface.

Definition BuildTetrahedrons (m : TetrahedralMesh F) (positions : list (Vector3 F))
  : TetrahedralMesh F * list (LogEvent F) :=
  let s := triangulate_and_strip m positions in
  let m3 := build_outer_space (fst s) in
  (CalculateOuterMatrices (CalculateInnerMatrices m3), snd s).

(** The box [Define] hands to [InitializeSuperMesh]: the bounding box of the
    positions with one unit added on every side ([maxSize] is computed by the
    source and not used). *)
Definition padded_box (positions : list (Vector3 F)) : BoundingBox F :=
  let boundingBox := BoundingBox_of md positions in
  mkBoundingBox (vsub (min_ boundingBox) Vector3_ONE) (vadd (max_ boundingBox) Vector3_ONE).

Definition Define (m : TetrahedralMesh F) (positions : list (Vector3 F))
  : TetrahedralMesh F * list (LogEvent F) :=
  BuildTetrahedrons (InitializeSuperMesh m (padded_box positions)) positions.

End Mesh.
Arguments Carve F : clear implicits.
Arguments Build F : clear implicits.

(** * Properties *)

(** ** The super mesh *)

Section SuperMesh.
Context {F : Type} {SF : Scalar F}.

(** The three vertices of a face, as a set: two faces match when they have the
    same vertices. *)
Definition same_face (a b : Arr3 N) : Prop :=
  forall v : N, In v (list3 a) <-> In v (list3 b).

Definition corner_cell (t : Tetrahedron F) (central : N) : Prop :=
  neighbors_ t = mk4 central M_MAX_UNSIGNED M_MAX_UNSIGNED M_MAX_UNSIGNED.

Lemma InitializeSuperMesh_tetrahedrons (m : TetrahedralMesh F) (bb : BoundingBox F) :
  map (fun t => (indices_ t, neighbors_ t)) (tetrahedrons_ (InitializeSuperMesh m bb))
  = zip superMesh_indices superMesh_neighbors.
Proof. reflexivity. Qed.

Lemma InitializeSuperMesh_adjacency (m : TetrahedralMesh F) (bb : BoundingBox F) :
  IsAdjacencyValid (InitializeSuperMesh m bb) false = true.
Proof. reflexivity. Qed.

End SuperMesh.

(** The corner of a box chosen by three flags (false: the minimum, true: the
    maximum of the coordinate). *)
Definition box_corner (bb : BoundingBox R) (bx by_ bz : bool) : Vector3 R :=
  mkVector3 (if bx then x_ (max_ bb) else x_ (min_ bb))
            (if by_ then y_ (max_ bb) else y_ (min_ bb))
            (if bz then z_ (max_ bb) else z_ (min_ bb)).

Lemma InitializeSuperMesh_corners (m : TetrahedralMesh R) (bb : BoundingBox R) :
  vertices_ (InitializeSuperMesh m bb)
  = [ box_corner bb false false false; box_corner bb true false false;
      box_corner bb false true false;  box_corner bb true true false;
      box_corner bb false false true;  box_corner bb true false true;
      box_corner bb false true true;   box_corner bb true true true ].
Proof.
  destruct bb as [[x0 y0 z0] [x1 y1 z1]].
  unfold InitializeSuperMesh, box_corner; cbn.
  unfold vadd, vmul, BoundingBox_Size, vsub; cbn.
  repeat (f_equal; try lra).
Qed.

(** C6.  [InitializeSuperMesh] produces exactly eight vertices, which in real
    arithmetic are the eight corners of the box it is given, and exactly five
    tetrahedra: four corner cells, whose only neighbour is the central cell 4
    (slot 0, the other three slots hold the sentinel), and the central cell
    (1, 2, 4, 7), whose slot [k] names a corner cell that shares with it the
    face opposite its vertex [k] and names it back across that face.  The
    adjacency check [IsAdjacencyValid(false)] accepts the mesh, which is not
    empty. *)
Theorem C6_InitializeSuperMesh_bootstrap :
  (forall (F : Type) (SF : Scalar F) (m : TetrahedralMesh F) (bb : BoundingBox F),
     let m' := InitializeSuperMesh m bb in
     length (vertices_ m') = 8%nat /\
     length (tetrahedrons_ m') = 5%nat /\
     map (fun t => list4 (indices_ t)) (tetrahedrons_ m')
       = [[0;1;2;4]; [3;1;2;7]; [5;1;4;7]; [6;2;4;7]; [1;2;4;7]] /\
     (forall i : N, i < 4 -> corner_cell (tet m' i) 4) /\
     neighbors_ (tet m' 4) = mk4 3 2 1 0 /\
     (forall k : nat, (k < 4)%nat ->
        let corner := get4 (neighbors_ (tet m' 4)) k in
        corner < 4 /\
        GetNeighborFaceIndex (tet m' corner) 4 = 0%nat /\
        same_face (GetFaceIndices (tet m' 4) k) (GetFaceIndices (tet m' corner) 0)) /\
     IsAdjacencyValid m' false = true) /\
  (forall (m : TetrahedralMesh R) (bb : BoundingBox R),
     vertices_ (InitializeSuperMesh m bb)
     = [ box_corner bb false false false; box_corner bb true false false;
         box_corner bb false true false;  box_corner bb true true false;
         box_corner bb false false true;  box_corner bb true false true;
         box_corner bb false true true;   box_corner bb true true true ]).
Proof.
  split; [| exact InitializeSuperMesh_corners].
  intros F SF m bb m'.
  split; [reflexivity| ]. split; [reflexivity| ]. split; [reflexivity| ].
  split.
  { intros i Hi. unfold corner_cell.
    assert (Hc : i = 0 \/ i = 1 \/ i = 2 \/ i = 3) by lia.
    destruct Hc as [->|[->|[->| ->]]]; reflexivity. }
  split; [reflexivity| ]. split; [| reflexivity].
  intros k Hk.
  assert (Hc : (k = 0 \/ k = 1 \/ k = 2 \/ k = 3)%nat) by lia.
  subst m'.
  destruct Hc as [->|[->|[->| ->]]];
    (split; [reflexivity | ]; split; [reflexivity | ]; intros v; cbv; tauto).
Qed.

(** ** The circumsphere *)

Section Circumsphere.
Context {F : Type} {SF : Scalar F}.
Variable md : Constants F.
Local Open Scope scalar_scope.

(** The four corner positions of a cell. *)
Definition corner (m : TetrahedralMesh F) (tetIndex : N) (k : nat) : Vector3 F :=
  vertex m (get4 (indices_ (tet m tetIndex)) k).

(** The denominator [radiusDen = 2 * u1 . (u2 x u3)]. *)
Definition circum_den (p0 p1 p2 p3 : Vector3 F) : F :=
  s_of_Z 2 * DotProduct (vsub p1 p0) (CrossProduct (vsub p2 p0) (vsub p3 p0)).





End Circumsphere.

(** Unfolds the scalar operations at the instance of the real numbers. *)
Ltac real_ops :=
  cbn [s_of_Z s_add s_sub s_mul s_div s_opp s_abs s_sqrt s_ltb s_eqb R_Scalar] in *.








Local Open Scope R_scope.





Local Close Scope R_scope.


(** A unit corner tetrahedron, whose circumsphere is centred at
    (1/2, 1/2, 1/2). *)
Definition unit_tetrahedron_mesh : TetrahedralMesh R :=
  mkMesh [ mkVector3 0 0 0; mkVector3 1 0 0; mkVector3 0 1 0; mkVector3 0 0 1 ]%R
         [ mkTetrahedron (mk4 0 1 2 3)
                         (mk4 M_MAX_UNSIGNED M_MAX_UNSIGNED M_MAX_UNSIGNED M_MAX_UNSIGNED)
                         Matrix3x4_IDENTITY ]
         [] [] 1 [].


Lemma unit_tetrahedron_den :
  circum_den (corner unit_tetrahedron_mesh 0 0) (corner unit_tetrahedron_mesh 0 1)
             (corner unit_tetrahedron_mesh 0 2) (corner unit_tetrahedron_mesh 0 3) = 2%R.
Proof.
  change (corner unit_tetrahedron_mesh 0 0) with (mkVector3 0 0 0)%R.
  change (corner unit_tetrahedron_mesh 0 1) with (mkVector3 1 0 0)%R.
  change (corner unit_tetrahedron_mesh 0 2) with (mkVector3 0 1 0)%R.
  change (corner unit_tetrahedron_mesh 0 3) with (mkVector3 0 0 1)%R.
  unfold circum_den, DotProduct, CrossProduct, vsub; cbn [x_ y_ z_]; real_ops. lra.
Qed.


(** ** Vectors as lists *)

Section Vectors.
Context {A : Type}.

Lemma at_put_eq (d : A) (v : list A) (i : N) (x : A) :
  (N.to_nat i < length v)%nat -> at_ d (put v i x) i = x.
Proof. intros H. unfold at_, put. now rewrite list_lookup_insert_eq. Qed.

Lemma at_put_ne (d : A) (v : list A) (i j : N) (x : A) :
  i <> j -> at_ d (put v i x) j = at_ d v j.
Proof.
  intros H. unfold at_, put. rewrite list_lookup_insert_ne; [reflexivity | lia].
Qed.

Lemma length_put (v : list A) (i : N) (x : A) : length (put v i x) = length v.
Proof. apply length_insert. Qed.

Lemma size_put (v : list A) (i : N) (x : A) : size (put v i x) = size v.
Proof. unfold size. now rewrite length_put. Qed.

Lemma put_out_of_range (v : list A) (i : N) (x : A) :
  (length v <= N.to_nat i)%nat -> put v i x = v.
Proof. intros H. now apply list_insert_ge. Qed.

Lemma at_in_range (d : A) (v : list A) (i : N) :
  (N.to_nat i < length v)%nat -> v !! N.to_nat i = Some (at_ d v i).
Proof.
  intros H. unfold at_. destruct (lookup_lt_is_Some_2 v _ H) as [x ->]. reflexivity.
Qed.

Lemma at_out_of_range (d : A) (v : list A) (i : N) :
  (length v <= N.to_nat i)%nat -> at_ d v i = d.
Proof. intros H. unfold at_. now rewrite lookup_ge_None_2. Qed.

Lemma indices_of_length (v : list A) : length (indices_of v) = length v.
Proof. unfold indices_of. now rewrite length_map, length_seq. Qed.

Lemma indices_of_lookup (v : list A) (i : nat) :
  (i < length v)%nat -> indices_of v !! i = Some (N.of_nat i).
Proof.
  intros H. unfold indices_of. rewrite list_lookup_fmap, lookup_seq_lt by exact H.
  reflexivity.
Qed.

Lemma elem_of_indices_of (v : list A) (i : N) :
  i ∈ indices_of v <-> (N.to_nat i < length v)%nat.
Proof.
  unfold indices_of. rewrite list_elem_of_fmap. split.
  - intros (k & -> & Hk). apply elem_of_seq in Hk. lia.
  - intros H. exists (N.to_nat i). split; [lia | apply elem_of_seq; lia].
Qed.

Lemma at_zip_with_indices {B : Type} (d : B) (f : N -> A -> B) (da : A) (v : list A) (i : N) :
  (N.to_nat i < length v)%nat ->
  at_ d (zip_with f (indices_of v) v) i = f i (at_ da v i).
Proof.
  intros H. unfold at_ at 1. rewrite lookup_zip_with.
  rewrite indices_of_lookup by exact H. cbn.
  rewrite (at_in_range da) by exact H. cbn. now rewrite N2Nat.id.
Qed.

End Vectors.

(** ** The matrices of the inner cells *)

Section InnerMatrices.
Local Open Scope R_scope.

(** The four corners are affinely independent: the edge vectors from corner 0
    have a non-zero determinant. *)
Definition affinely_independent (p0 p1 p2 p3 : Vector3 R) : Prop :=
  DotProduct (vsub p1 p0) (CrossProduct (vsub p2 p0) (vsub p3 p0)) <> 0.

(** The 3x3 matrix with the given columns. *)
Definition Matrix3_of_columns (u1 u2 u3 : Vector3 R) : Matrix3x4 R :=
  mkMatrix3x4 (x_ u1) (x_ u2) (x_ u3) 0
              (y_ u1) (y_ u2) (y_ u3) 0
              (z_ u1) (z_ u2) (z_ u3) 0.

(** The product of the 3x3 parts of two matrices. *)
Definition Matrix3_mul (a b : Matrix3x4 R) : Matrix3x4 R :=
  mkMatrix3x4
    (m00_ a * m00_ b + m01_ a * m10_ b + m02_ a * m20_ b)
    (m00_ a * m01_ b + m01_ a * m11_ b + m02_ a * m21_ b)
    (m00_ a * m02_ b + m01_ a * m12_ b + m02_ a * m22_ b)
    0
    (m10_ a * m00_ b + m11_ a * m10_ b + m12_ a * m20_ b)
    (m10_ a * m01_ b + m11_ a * m11_ b + m12_ a * m21_ b)
    (m10_ a * m02_ b + m11_ a * m12_ b + m12_ a * m22_ b)
    0
    (m20_ a * m00_ b + m21_ a * m10_ b + m22_ a * m20_ b)
    (m20_ a * m01_ b + m21_ a * m11_ b + m22_ a * m21_ b)
    (m20_ a * m02_ b + m21_ a * m12_ b + m22_ a * m22_ b)
    0.

Definition Matrix3_IDENTITY : Matrix3x4 R := mkMatrix3x4 1 0 0 0  0 1 0 0  0 0 1 0.

Lemma Matrix3_Inverse_correct (u1 u2 u3 : Vector3 R) :
  DotProduct u1 (CrossProduct u2 u3) <> 0 ->
  let M := Matrix3_Inverse (x_ u1) (x_ u2) (x_ u3) (y_ u1) (y_ u2) (y_ u3)
                           (z_ u1) (z_ u2) (z_ u3) in
  Matrix3_mul M (Matrix3_of_columns u1 u2 u3) = Matrix3_IDENTITY /\
  Matrix3_mul (Matrix3_of_columns u1 u2 u3) M = Matrix3_IDENTITY /\
  ApplyMatrix M u1 = mkVector3 1 0 0 /\
  ApplyMatrix M u2 = mkVector3 0 1 0 /\
  ApplyMatrix M u3 = mkVector3 0 0 1 /\
  ApplyMatrix M Vector3_ZERO = mkVector3 0 0 0.
Proof.
  destruct u1 as [a1 a2 a3], u2 as [b1 b2 b3], u3 as [c1 c2 c3].
  unfold DotProduct, CrossProduct, Matrix3_Inverse, Matrix3_mul, Matrix3_of_columns,
    Matrix3_IDENTITY, ApplyMatrix, Vector3_ZERO.
  cbn [x_ y_ z_ m00_ m01_ m02_ m03_ m10_ m11_ m12_ m13_ m20_ m21_ m22_ m23_]; real_ops.
  intros H.
  assert (H' : a1 * b2 * c3 + a2 * b3 * c1 + a3 * b1 * c2
               - a3 * b2 * c1 - a2 * b1 * c3 - a1 * b3 * c2 <> 0)
    by (intros E; apply H; rewrite <- E; ring).
  repeat split; f_equal; field; exact H'.
Qed.

Lemma vsub_self (p : Vector3 R) : vsub p p = Vector3_ZERO.
Proof. destruct p. unfold vsub, Vector3_ZERO; cbn [x_ y_ z_]; real_ops. f_equal; lra. Qed.

Lemma CalculateInnerMatrices_tet (m : TetrahedralMesh R) (tetIndex : N) :
  (N.to_nat tetIndex < length (tetrahedrons_ m))%nat ->
  (tetIndex < numInnerTetrahedrons_ m)%N ->
  tet (CalculateInnerMatrices m) tetIndex
  = set_matrix (tet m tetIndex) (inner_matrix m (tet m tetIndex)).
Proof.
  intros Hlen Hinner. unfold tet at 1, CalculateInnerMatrices. cbn [tetrahedrons_ with_tetrahedrons].
  rewrite (at_zip_with_indices _ _ Tetrahedron_default) by exact Hlen.
  apply N.ltb_lt in Hinner. now rewrite Hinner.
Qed.

(** C9.  In real arithmetic, for an inner cell whose four corners are affinely
    independent, the matrix stored by [CalculateInnerMatrices] is the inverse
    of the matrix whose columns are the edge vectors [p1 - p0], [p2 - p0],
    [p3 - p0] (both products are the identity); applied to [p_i - p0] it gives
    the unit vector of coordinate [i] for [i] in 1, 2, 3, and applied to
    [p0 - p0] it gives the zero vector. *)
Theorem C9_inner_matrix_is_inverse (m : TetrahedralMesh R) (tetIndex : N) :
  (N.to_nat tetIndex < length (tetrahedrons_ m))%nat ->
  (tetIndex < numInnerTetrahedrons_ m)%N ->
  let p := corner m tetIndex in
  affinely_independent (p 0%nat) (p 1%nat) (p 2%nat) (p 3%nat) ->
  let M := matrix_ (tet (CalculateInnerMatrices m) tetIndex) in
  let E := Matrix3_of_columns (vsub (p 1%nat) (p 0%nat)) (vsub (p 2%nat) (p 0%nat))
                              (vsub (p 3%nat) (p 0%nat)) in
  Matrix3_mul M E = Matrix3_IDENTITY /\
  Matrix3_mul E M = Matrix3_IDENTITY /\
  ApplyMatrix M (vsub (p 1%nat) (p 0%nat)) = mkVector3 1 0 0 /\
  ApplyMatrix M (vsub (p 2%nat) (p 0%nat)) = mkVector3 0 1 0 /\
  ApplyMatrix M (vsub (p 3%nat) (p 0%nat)) = mkVector3 0 0 1 /\
  ApplyMatrix M (vsub (p 0%nat) (p 0%nat)) = mkVector3 0 0 0.
Proof.
  intros Hlen Hinner p Hindep M E. subst M E.
  rewrite CalculateInnerMatrices_tet by assumption.
  cbn [matrix_ set_matrix]. rewrite vsub_self.
  exact (Matrix3_Inverse_correct _ _ _ Hindep).
Qed.

Lemma C9_witness :
  let M := matrix_ (tet (CalculateInnerMatrices unit_tetrahedron_mesh) 0) in
  ApplyMatrix M (vsub (corner unit_tetrahedron_mesh 0 1) (corner unit_tetrahedron_mesh 0 0))
  = mkVector3 1 0 0.
Proof.
  refine (proj1 (proj2 (proj2 (C9_inner_matrix_is_inverse unit_tetrahedron_mesh 0 _ _ _)))).
  - cbn. lia.
  - reflexivity.
  - unfold affinely_independent.
    pose proof unit_tetrahedron_den as H. unfold circum_den in H. real_ops. lra.
Defined.

End InnerMatrices.

(** ** The matrices of the outer cells *)

Section OuterMatrices.
Context {F : Type} {SF : Scalar F}.
Variable md : Constants F.

(** The inputs of the closed form for one outer cell: [A], [Ap], [B], [Bp],
    [P2] and [Cp], from the positions and hull normals of its three real
    corners. *)
Definition outer_position (m : TetrahedralMesh F) (t : Tetrahedron F) (i : nat) : Vector3 F :=
  vertex m (get4 (indices_ t) i).
Definition outer_normal (m : TetrahedralMesh F) (t : Tetrahedron F) (i : nat) : Vector3 F :=
  at_ Vector3_ZERO (hullNormals_ m) (get4 (indices_ t) i).
Definition outer_a (m : TetrahedralMesh F) (t : Tetrahedron F) : F :=
  outer_leading (vsub (outer_normal m t 0) (outer_normal m t 2))
                (vsub (outer_normal m t 1) (outer_normal m t 2))
                (vneg (outer_normal m t 2)).
Definition outer_unscaled (m : TetrahedralMesh F) (t : Tetrahedron F) : Matrix3x4 F :=
  outer_matrix (vsub (outer_position m t 0) (outer_position m t 2))
               (vsub (outer_normal m t 0) (outer_normal m t 2))
               (vsub (outer_position m t 1) (outer_position m t 2))
               (vsub (outer_normal m t 1) (outer_normal m t 2))
               (outer_position m t 2)
               (vneg (outer_normal m t 2)).

Lemma outer_cell_matrix_cases (m : TetrahedralMesh F) (t : Tetrahedron F) :
  outer_cell_matrix md m t =
  if s_ltb (M_EPSILON md) (s_abs (outer_a m t))
  then set_matrix t (Matrix3x4_scale (outer_unscaled m t) (s_div (s_of_Z 1) (outer_a m t)))
  else set_index (set_matrix t (outer_unscaled m t)) 3 (Infinity2 md).
Proof. reflexivity. Qed.

(** The vertex indices that [BuildOuterTetrahedrons] gives the outer cell
    [tetIndex]. *)
Definition outer_indices (numInner : N) (hullSurface : TetrahedralMeshSurface) (tetIndex : N)
  : Arr4 N :=
  let hullTriangle := at_ Triangle_default (faces_ hullSurface) (tetIndex - numInner) in
  mk4 (e30 (tri_indices_ hullTriangle)) (e31 (tri_indices_ hullTriangle))
      (e32 (tri_indices_ hullTriangle)) (Infinity3 md).

Lemma fmap_indices_put_neighbor (tets : list (Tetrahedron F)) (j : N) (f : nat) (v : N) :
  indices_ <$> put tets j (set_neighbor (at_ Tetrahedron_default tets j) f v)
  = indices_ <$> tets.
Proof.
  unfold put. rewrite list_fmap_insert. cbn [indices_ set_neighbor set_neighbors].
  destruct (decide (N.to_nat j < length tets)%nat) as [Hlt|Hge].
  - apply list_insert_id. rewrite list_lookup_fmap, (at_in_range Tetrahedron_default) by exact Hlt.
    reflexivity.
  - apply list_insert_ge. rewrite length_fmap. lia.
Qed.

Lemma outer_step_indices (numInner : N) (hullSurface : TetrahedralMeshSurface)
    (tets : list (Tetrahedron F)) (tetIndex : N) :
  indices_ <$> outer_step md numInner hullSurface tets tetIndex
  = <[N.to_nat tetIndex := outer_indices numInner hullSurface tetIndex]> (indices_ <$> tets).
Proof.
  unfold outer_step. rewrite fmap_indices_put_neighbor.
  unfold put. rewrite list_fmap_insert. reflexivity.
Qed.

Lemma outer_step_length (numInner : N) (hullSurface : TetrahedralMeshSurface)
    (tets : list (Tetrahedron F)) (tetIndex : N) :
  length (outer_step md numInner hullSurface tets tetIndex) = length tets.
Proof. unfold outer_step. now rewrite !length_put. Qed.

Lemma foldl_outer_step_length (numInner : N) (hullSurface : TetrahedralMeshSurface)
    (l : list N) (tets : list (Tetrahedron F)) :
  length (foldl (outer_step md numInner hullSurface) tets l) = length tets.
Proof.
  revert tets. induction l as [|k l IH]; intros tets; [reflexivity | ].
  cbn [foldl]. now rewrite IH, outer_step_length.
Qed.




Lemma CalculateInnerMatrices_length (m : TetrahedralMesh F) :
  length (tetrahedrons_ (CalculateInnerMatrices m)) = length (tetrahedrons_ m).
Proof.
  unfold CalculateInnerMatrices. cbn [tetrahedrons_ with_tetrahedrons].
  rewrite length_zip_with, indices_of_length. lia.
Qed.


Lemma CalculateOuterMatrices_inner (m : TetrahedralMesh F) (k : N) :
  k < numInnerTetrahedrons_ m ->
  (N.to_nat k < length (tetrahedrons_ m))%nat ->
  tet (CalculateOuterMatrices md m) k = tet m k.
Proof.
  intros Hk Hlen. unfold tet at 1, CalculateOuterMatrices.
  cbn [tetrahedrons_ with_tetrahedrons].
  rewrite (at_zip_with_indices _ _ Tetrahedron_default) by exact Hlen.
  apply N.ltb_lt in Hk. now rewrite Hk.
Qed.

End OuterMatrices.


(** The constants as the headers of the engine give them, in binary64: the
    single-precision values of [M_EPSILON = 0.000001f],
    [M_LARGE_EPSILON = 0.00005f] and [M_LARGE_VALUE = 100000000.0f]. *)
Definition float_constants : Constants float := {|
  M_EPSILON := 0x1.0c6f7ap-20%float;
  M_LARGE_EPSILON := 0x1.a36e2ep-15%float;
  M_LARGE_VALUE := 100000000%float;
  M_INFINITY := PrimFloat.infinity;
  Infinity2 := 4294967294;
  Infinity3 := 4294967295
|}.

(** A position with integer coordinates. *)
Definition point {F : Type} {SF : Scalar F} (x y z : Z) : Vector3 F :=
  mkVector3 (s_of_Z x) (s_of_Z y) (s_of_Z z).

(** A single inner cell, as the stripping leaves it. *)
Definition single_cell_mesh : TetrahedralMesh float :=
  mkMesh [ point 0 0 0; point 1 0 0; point 0 1 0; point 0 0 1 ]
         [ mkTetrahedron (mk4 0 1 2 3)
                         (mk4 M_MAX_UNSIGNED M_MAX_UNSIGNED M_MAX_UNSIGNED M_MAX_UNSIGNED)
                         Matrix3x4_IDENTITY ]
         [] [] 0 [].


(** ** The insertion loop *)

Section RetryLoop.
Context {F : Type} {SF : Scalar F}.
Variable md : Constants F.

(** *** The breadth search runs to completion *)

(** The number of cells not yet flagged as removed. *)
Definition live_count (flags : list bool) : nat := length (List.filter negb flags).

Lemma live_count_put (flags : list bool) (i : N) :
  at_ true flags i = false ->
  S (live_count (put flags i true)) = live_count flags.
Proof.
  unfold at_, put, live_count. generalize (N.to_nat i) as n. clear i.
  induction flags as [|b flags IH]; intros n H.
  - rewrite lookup_nil in H. discriminate H.
  - destruct n as [|n].
    + cbn in H. subst b. reflexivity.
    + cbn in H. specialize (IH n H). cbn. destruct b; cbn [negb length];
        [exact IH | f_equal; exact IH].
Qed.

Lemma live_count_le (flags : list bool) : (live_count flags <= length flags)%nat.
Proof. unfold live_count. apply List.filter_length_le. Qed.

Definition search_weight (st : DelaunayContext F * list N) : nat :=
  (length (snd st) + live_count (removed_ (fst st)))%nat.

Lemma search_face_weight (position : Vector3 F) (t : Tetrahedron F)
    (st : DelaunayContext F * list N) (faceIndex : nat) :
  search_weight (search_face md position t st faceIndex) = search_weight st /\
  (length (snd st) <= length (snd (search_face md position t st faceIndex)))%nat.
Proof.
  unfold search_face.
  destruct (get4 (neighbors_ t) faceIndex =? M_MAX_UNSIGNED); [split; reflexivity | ].
  destruct (is_removed (fst st) (get4 (neighbors_ t) faceIndex)) eqn:Hr; [split; reflexivity | ].
  destruct (IsInsideCircumsphere md (fst st) (get4 (neighbors_ t) faceIndex) position);
    [ | split; reflexivity].
  unfold search_weight. cbn [fst snd set_removed removed_].
  rewrite length_app. cbn [length].
  pose proof (live_count_put _ _ Hr). split; lia.
Qed.

Lemma search_faces_weight (position : Vector3 F) (t : Tetrahedron F)
    (faces : list nat) (st : DelaunayContext F * list N) :
  search_weight (foldl (search_face md position t) st faces) = search_weight st /\
  (length (snd st) <= length (snd (foldl (search_face md position t) st faces)))%nat.
Proof.
  revert st. induction faces as [|f faces IH]; intros st; [split; reflexivity | ].
  cbn [foldl]. destruct (IH (search_face md position t st f)) as [H1 H2].
  destruct (search_face_weight position t st f) as [H3 H4]. split; [congruence | lia].
Qed.

(** Once the fuel exceeds the cells still to visit, more fuel changes
    nothing: the search stops because the queue is exhausted. *)
Lemma breadth_search_stable (m : TetrahedralMesh F) (position : Vector3 F) (fuel : nat) :
  forall (st : DelaunayContext F * list N) (i : nat),
    (i <= length (snd st))%nat ->
    (search_weight st - i < fuel)%nat ->
    breadth_search md (S fuel) m position st i = breadth_search md fuel m position st i.
Proof.
  induction fuel as [|fuel IH]; intros st i Hi Hw; [lia | ].
  cbn [breadth_search].
  destruct (snd st !! i) as [tetIndex|] eqn:Hl; [ | reflexivity].
  apply lookup_lt_Some in Hl.
  destruct (search_faces_weight position (tet m tetIndex) [0; 1; 2; 3]%nat st) as [H1 H2].
  change (breadth_search md (S fuel) m position
            (foldl (search_face md position (tet m tetIndex)) st [0; 1; 2; 3]%nat) (S i)
          = breadth_search md fuel m position
            (foldl (search_face md position (tet m tetIndex)) st [0; 1; 2; 3]%nat) (S i)).
  apply IH; unfold search_weight in *; lia.
Qed.

Lemma breadth_search_more_fuel (m : TetrahedralMesh F) (position : Vector3 F)
    (st : DelaunayContext F * list N) (i fuel extra : nat) :
  (i <= length (snd st))%nat ->
  (search_weight st - i < fuel)%nat ->
  breadth_search md (fuel + extra) m position st i = breadth_search md fuel m position st i.
Proof.
  intros Hi Hw. induction extra as [|extra IH].
  - now rewrite Nat.add_0_r.
  - rewrite Nat.add_succ_r, breadth_search_stable by lia. exact IH.
Qed.

(** The fuel that [FindAndRemoveIntersected] gives the search is enough. *)
Lemma breadth_search_fuel (m : TetrahedralMesh F) (ctx : DelaunayContext F)
    (position : Vector3 F) (first : N) (extra : nat) :
  find_first_intersected md m ctx position = Some first ->
  breadth_search md (S (length (removed_ ctx)) + extra) m position
                 (set_removed ctx first true, [first]) 0
  = breadth_search md (S (length (removed_ ctx))) m position
                   (set_removed ctx first true, [first]) 0.
Proof.
  intros Hfirst. apply breadth_search_more_fuel; [cbn; lia | ].
  unfold find_first_intersected in Hfirst. apply find_some in Hfirst as [_ Hf].
  apply andb_prop in Hf as [Hf _]. apply negb_true_iff in Hf.
  unfold search_weight. cbn [fst snd set_removed removed_ length].
  pose proof (live_count_put _ _ Hf). pose proof (live_count_le (removed_ ctx)). lia.
Qed.

(** *** One pass *)

Lemma insert_vertex_postponed (st : Build F * list N) (v : N) :
  snd (insert_vertex md st v) = snd st \/ snd (insert_vertex md st v) = snd st ++ [v].
Proof.
  destruct st as [b postponed]. unfold insert_vertex.
  destruct (negb (carve_ok _)); cbn [snd]; auto.
Qed.

Lemma process_queue_sublist_gen (queue : list N) :
  forall (st : Build F * list N),
    exists kept, snd (foldl (insert_vertex md) st queue) = snd st ++ kept /\ sublist kept queue.
Proof.
  induction queue as [|v queue IH]; intros st.
  - exists []. cbn. rewrite app_nil_r. split; [reflexivity | constructor].
  - cbn [foldl]. destruct (IH (insert_vertex md st v)) as (kept & Hk & Hs).
    destruct (insert_vertex_postponed st v) as [E|E]; rewrite E in Hk.
    + exists kept. split; [exact Hk | now apply sublist_cons].
    + exists (v :: kept). rewrite <- app_assoc in Hk. split; [exact Hk | now apply sublist_skip].
Qed.

(** The vertices a pass postpones are vertices of its queue, in order. *)
Lemma process_queue_sublist (b : Build F) (queue : list N) :
  sublist (snd (process_queue md b queue)) queue.
Proof.
  destruct (process_queue_sublist_gen queue (b, [])) as (kept & Hk & Hs).
  unfold process_queue. now rewrite Hk.
Qed.

Lemma sublist_same_length {A} (l k : list A) :
  sublist l k -> length l = length k -> l = k.
Proof.
  induction 1 as [|x l k Hs IH|x l k Hs IH]; intros Hlen; cbn in *.
  - reflexivity.
  - f_equal. apply IH. lia.
  - apply sublist_length in Hs. lia.
Qed.

(** *** The loop *)

(** What the loop does when it stops for lack of progress. *)
Definition stop_excluding (b : Build F) (queue : list N) : Build F * list N :=
  (mkBuild (build_mesh b) (build_ctx b)
           (build_log b ++ [LogWarning_VerticesExcluded (size queue)]),
   queue).

Lemma triangulate_step (fuel : nat) (b : Build F) (queue : list N) :
  queue <> [] ->
  let r := process_queue md b queue in
  ((length (snd r) < length queue)%nat /\
   triangulate md (S fuel) b queue = triangulate md fuel (fst r) (snd r)) \/
  (snd r = queue /\ triangulate md (S fuel) b queue = stop_excluding (fst r) queue).
Proof.
  intros Hne r. pose proof (process_queue_sublist b queue) as Hs. fold r in Hs.
  cbn [triangulate]. destruct queue as [|v queue]; [congruence | ].
  fold r. destruct (Nat.eqb_spec (length (v :: queue)) (length (snd r))) as [E|E].
  - right. assert (Hq : snd r = v :: queue) by (apply sublist_same_length; [exact Hs | lia]).
    split; [exact Hq | ]. unfold stop_excluding. rewrite <- Hq at 2. rewrite Hq. reflexivity.
  - left. apply sublist_length in Hs. split; [lia | reflexivity].
Qed.

Lemma triangulate_stable (fuel : nat) :
  forall (b : Build F) (queue : list N),
    (length queue < fuel)%nat ->
    triangulate md (S fuel) b queue = triangulate md fuel b queue.
Proof.
  induction fuel as [|fuel IH]; intros b queue Hlen; [lia | ].
  destruct queue as [|v queue]; [reflexivity | ].
  destruct (triangulate_step (S fuel) b (v :: queue)) as [[Hlt E]|[Hq E]]; [congruence | | ].
  - destruct (triangulate_step fuel b (v :: queue)) as [[_ E']|[Hq' _]]; [congruence | | ].
    + rewrite E, E'. apply IH. lia.
    + rewrite Hq' in Hlt. lia.
  - destruct (triangulate_step fuel b (v :: queue)) as [[Hlt' _]|[_ E']]; [congruence | | ].
    + rewrite Hq in Hlt'. lia.
    + now rewrite E, E'.
Qed.

Lemma triangulate_more_fuel (b : Build F) (queue : list N) (fuel : nat) :
  (length queue < fuel)%nat ->
  triangulate md fuel b queue = triangulate md (S (length queue)) b queue.
Proof.
  intros Hlen. replace fuel with (S (length queue) + (fuel - S (length queue)))%nat by lia.
  generalize (fuel - S (length queue))%nat as extra. intros extra.
  induction extra as [|extra IH].
  - now rewrite Nat.add_0_r.
  - rewrite Nat.add_succ_r, triangulate_stable by lia. exact IH.
Qed.

(** How the loop ends: with an empty queue, or after a pass that postponed
    every vertex of its queue, with the warning as last log entry. *)
Inductive loop_exit (r : Build F * list N) : Prop :=
| exit_empty : snd r = [] -> loop_exit r
| exit_no_progress (b : Build F) :
    snd r <> [] ->
    snd (process_queue md b (snd r)) = snd r ->
    r = stop_excluding (fst (process_queue md b (snd r))) (snd r) ->
    loop_exit r.

Lemma triangulate_exit (fuel : nat) :
  forall (b : Build F) (queue : list N),
    (length queue < fuel)%nat ->
    sublist (snd (triangulate md fuel b queue)) queue /\
    loop_exit (triangulate md fuel b queue).
Proof.
  induction fuel as [|fuel IH]; intros b queue Hlen; [lia | ].
  destruct queue as [|v queue].
  - cbn. split; [constructor | now apply exit_empty].
  - destruct (triangulate_step fuel b (v :: queue)) as [[Hlt E]|[Hq E]]; [congruence | | ].
    + rewrite E. destruct (IH (fst (process_queue md b (v :: queue)))
                              (snd (process_queue md b (v :: queue)))) as [Hs He]; [lia | ].
      split; [ | exact He].
      etransitivity; [exact Hs | apply process_queue_sublist].
    + rewrite E. split; [reflexivity | ].
      apply (exit_no_progress _ b); cbn [snd stop_excluding]; [congruence | exact Hq | ].
      reflexivity.
Qed.

(** After the loop nothing is inserted any more: the dump of the failed
    attempts leaves the cells and the vertices as they are. *)
Lemma dump_failed_mesh (b : Build F) (queue : list N) :
  tetrahedrons_ (build_mesh (dump_failed md b queue)) = tetrahedrons_ (build_mesh b) /\
  vertices_ (build_mesh (dump_failed md b queue)) = vertices_ (build_mesh b).
Proof.
  unfold dump_failed. generalize queue at 1 3 as positions. intros positions.
  revert b. induction queue as [|v queue IH]; intros b; [split; reflexivity | ].
  cbn [foldl]. destruct (IH (dump_step md positions b v)) as [H1 H2].
  split; [rewrite H1 | rewrite H2]; reflexivity.
Qed.

End RetryLoop.

(** C5.  The retry loop terminates and has no failing exit.  A pass postpones
    only vertices of its queue, so after it the queue is strictly shorter or
    unchanged; in the first case the loop goes on with the shorter queue, in
    the second it stops, logs the number of excluded vertices and leaves them
    in the queue, never to be inserted.  With a queue of [n] vertices at most
    [n] passes run: the fuel [n + 1] that [BuildTetrahedrons] gives the loop
    is never exhausted (more fuel changes nothing), and the same holds for
    the breadth search inside every insertion attempt.  The loop ends with an
    empty queue or after a pass without progress, and the rest of the build
    is a composition of total functions applied to that state: the dump of
    the failed vertices leaves cells and vertices untouched. *)
Theorem C5_retry_loop_terminates :
  forall (F : Type) (SF : Scalar F) (md : Constants F) (b : Build F) (queue : list N),
    sublist (snd (process_queue md b queue)) queue /\
    (forall fuel : nat,
       queue <> [] ->
       let r := process_queue md b queue in
       ((length (snd r) < length queue)%nat /\
        triangulate md (S fuel) b queue = triangulate md fuel (fst r) (snd r)) \/
       (snd r = queue /\ triangulate md (S fuel) b queue = stop_excluding (fst r) queue)) /\
    (forall fuel : nat,
       (length queue < fuel)%nat ->
       triangulate md fuel b queue = triangulate md (S (length queue)) b queue) /\
    (let r := triangulate md (S (length queue)) b queue in
     sublist (snd r) queue /\ loop_exit md r /\
     tetrahedrons_ (build_mesh (dump_failed md (fst r) (snd r)))
       = tetrahedrons_ (build_mesh (fst r))) /\
    (forall (m : TetrahedralMesh F) (ctx : DelaunayContext F) (position : Vector3 F)
            (first : N) (extra : nat),
       find_first_intersected md m ctx position = Some first ->
       breadth_search md (S (length (removed_ ctx)) + extra) m position
                      (set_removed ctx first true, [first]) 0
       = breadth_search md (S (length (removed_ ctx))) m position
                        (set_removed ctx first true, [first]) 0).
Proof.
  intros F SF md b queue.
  split; [apply process_queue_sublist | ].
  split; [intros fuel Hne; now apply triangulate_step | ].
  split; [intros fuel Hlen; now apply triangulate_more_fuel | ].
  split.
  - destruct (triangulate_exit md (S (length queue)) b queue) as [Hs He]; [lia | ].
    split; [exact Hs | ]. split; [exact He | ]. apply dump_failed_mesh.
  - intros m ctx position first extra Hfirst. now apply breadth_search_fuel.
Qed.

(** The state in which [BuildTetrahedrons] enters its loop for one input point
    at the origin. *)
Definition one_point_build : Build float :=
  let m := InitializeSuperMesh Mesh_empty
             (mkBoundingBox (point (-1) (-1) (-1)) (point 1 1 1)) in
  let c := initial_context float_constants m in
  mkBuild (with_vertices m (vertices_ m ++ [point 0 0 0])) (fst c) (snd c).

Lemma C5_witness :
  triangulate float_constants 5 one_point_build [8]
  = triangulate float_constants 2 one_point_build [8].
Proof.
  refine (proj1 (proj2 (proj2 (C5_retry_loop_terminates float _ float_constants
                                 one_point_build [8]))) 5%nat _).
  cbn. lia.
Defined.

(** ** Filling the hole *)

Lemma get4_set4_eq {A} (a : Arr4 A) (f : nat) (x : A) :
  (f < 4)%nat -> get4 (set4 a f x) f = x.
Proof.
  intros H. destruct f as [|[|[|[|f]]]]; try reflexivity. lia.
Qed.

Lemma get4_set4_ne {A} (a : Arr4 A) (f g : nat) (x : A) :
  (g < 4)%nat -> f <> g -> get4 (set4 a f x) g = get4 a g.
Proof.
  intros Hg Hne.
  destruct f as [|[|[|[|f]]]]; destruct g as [|[|[|[|g]]]]; try reflexivity; lia.
Qed.

Section Allocate.
Context {F : Type} {SF : Scalar F}.

Lemma allocate_closed_form (count : nat) :
  forall (m : TetrahedralMesh F) (ctx : DelaunayContext F) (removed : list N),
    allocate count m ctx removed
    = (with_tetrahedrons m (tetrahedrons_ m ++ replicate count Tetrahedron_default),
       mkContext (circumspheres_ ctx ++ replicate count Sphere_default)
                 (removed_ ctx ++ replicate count true) (holeTriangles_ ctx),
       removed ++ map N.of_nat (seq (length (tetrahedrons_ m)) count)).
Proof.
  induction count as [|count IH]; intros m ctx removed.
  - cbn. rewrite !app_nil_r. destruct m, ctx; reflexivity.
  - cbn [allocate]. rewrite IH.
    cbn [tetrahedrons_ with_tetrahedrons circumspheres_ removed_ holeTriangles_
         vertices_ hullNormals_ ignoredVertices_ numInnerTetrahedrons_ debugHighlightEdges_].
    rewrite length_app. cbn [length]. rewrite Nat.add_1_r.
    rewrite <- !app_assoc. cbn [app replicate seq map]. unfold size. reflexivity.
Qed.

End Allocate.

Section FillHole.
Context {F : Type} {SF : Scalar F}.
Variable md : Constants F.
Variable m2 : TetrahedralMesh F.
Variable ctx2 : DelaunayContext F.
Variable outputTetrahedrons : list N.
Variable holeSurface : TetrahedralMeshSurface.
Variable centerIndex : N.

Abbreviation n := (length (faces_ holeSurface)).
Definition out_ (i : nat) : N := at_ 0%N outputTetrahedrons (N.of_nat i).
Definition face_ (i : nat) : TetrahedralMeshSurfaceTriangle :=
  at_ Triangle_default (faces_ holeSurface) (N.of_nat i).

(** The cell built on hole face [i]: the three vertices of the face and the
    inserted vertex; across the side faces the cells built on the adjacent
    hole faces, across the base the cell the face belongs to. *)
Definition new_cell (i : nat) : Tetrahedron F :=
  mkTetrahedron
    (mk4 (e30 (tri_indices_ (face_ i))) (e31 (tri_indices_ (face_ i)))
         (e32 (tri_indices_ (face_ i))) centerIndex)
    (mk4 (at_ 0%N outputTetrahedrons (e30 (tri_neighbors_ (face_ i))))
         (at_ 0%N outputTetrahedrons (e31 (tri_neighbors_ (face_ i))))
         (at_ 0%N outputTetrahedrons (e32 (tri_neighbors_ (face_ i))))
         (tetIndex_ (face_ i)))
    (matrix_ (tet m2 (out_ i))).

(** The state after the first [j] iterations of the loop. *)
Definition fill_prefix (j : nat) : TetrahedralMesh F * DelaunayContext F * list (LogEvent F) :=
  foldl (fill_step md outputTetrahedrons holeSurface centerIndex) (m2, ctx2, [])
        (map N.of_nat (seq 0 j)).

Lemma fill_prefix_S (j : nat) :
  fill_prefix (S j)
  = fill_step md outputTetrahedrons holeSurface centerIndex (fill_prefix j) (N.of_nat j).
Proof.
  unfold fill_prefix. rewrite seq_S, map_app, foldl_app. reflexivity.
Qed.

Lemma FillStarShapedHole_prefix :
  FillStarShapedHole md m2 ctx2 outputTetrahedrons holeSurface centerIndex = fill_prefix n.
Proof. reflexivity. Qed.

Hypothesis out_NoDup : forall i k : nat, (i < n)%nat -> (k < n)%nat -> out_ i = out_ k -> i = k.
Hypothesis out_range :
  forall i : nat, (i < n)%nat -> (N.to_nat (out_ i) < length (tetrahedrons_ m2))%nat.
Hypothesis removed_length : length (removed_ ctx2) = length (tetrahedrons_ m2).
Hypothesis spheres_length : length (circumspheres_ ctx2) = length (tetrahedrons_ m2).
Hypothesis face_range :
  forall i : nat, (i < n)%nat -> tetIndex_ (face_ i) <> M_MAX_UNSIGNED -> tetFace_ (face_ i) < 4.
Hypothesis back_range :
  forall i : nat, (i < n)%nat ->
    tetIndex_ (face_ i) <> M_MAX_UNSIGNED ->
    (N.to_nat (tetIndex_ (face_ i)) < length (tetrahedrons_ m2))%nat /\
    forall k : nat, (k < n)%nat -> out_ k <> tetIndex_ (face_ i).
Hypothesis back_distinct :
  forall i k : nat, (i < n)%nat -> (k < n)%nat -> i <> k ->
    tetIndex_ (face_ i) <> M_MAX_UNSIGNED ->
    tetIndex_ (face_ i) = tetIndex_ (face_ k) -> tetFace_ (face_ i) <> tetFace_ (face_ k).

Abbreviation mesh_at j := (fst (fst (fill_prefix j))).
Abbreviation ctx_at j := (snd (fst (fill_prefix j))).

(** What holds after [j] iterations. *)
Record fill_invariant (j : nat) : Prop := {
  inv_length : length (tetrahedrons_ (mesh_at j)) = length (tetrahedrons_ m2);
  inv_vertices : vertices_ (mesh_at j) = vertices_ m2;
  inv_removed_length : length (removed_ (ctx_at j)) = length (removed_ ctx2);
  inv_spheres_length : length (circumspheres_ (ctx_at j)) = length (circumspheres_ ctx2);
  inv_new : forall i : nat, (i < j)%nat -> tet (mesh_at j) (out_ i) = new_cell i;
  inv_back : forall i : nat, (i < j)%nat ->
    tetIndex_ (face_ i) <> M_MAX_UNSIGNED ->
    get4 (neighbors_ (tet (mesh_at j) (tetIndex_ (face_ i)))) (N.to_nat (tetFace_ (face_ i)))
    = out_ i;
  inv_other : forall k : N, (forall i : nat, (i < j)%nat -> out_ i <> k) ->
    indices_ (tet (mesh_at j) k) = indices_ (tet m2 k) /\
    matrix_ (tet (mesh_at j) k) = matrix_ (tet m2 k) /\
    forall f : nat, (f < 4)%nat ->
      (forall i : nat, (i < j)%nat ->
         ~ (tetIndex_ (face_ i) <> M_MAX_UNSIGNED /\ tetIndex_ (face_ i) = k /\
            N.to_nat (tetFace_ (face_ i)) = f)) ->
      get4 (neighbors_ (tet (mesh_at j) k)) f = get4 (neighbors_ (tet m2 k)) f;
  inv_flag : forall i : nat, (i < j)%nat -> at_ true (removed_ (ctx_at j)) (out_ i) = false;
  inv_flag_other : forall k : N, (forall i : nat, (i < j)%nat -> out_ i <> k) ->
    at_ true (removed_ (ctx_at j)) k = at_ true (removed_ ctx2) k;
  inv_sphere : forall i : nat, (i < j)%nat ->
    at_ Sphere_default (circumspheres_ (ctx_at j)) (out_ i)
    = snd (GetTetrahedronCircumsphere md (with_tetrahedrons m2 [new_cell i]) 0)
}.

Lemma GetTetrahedronCircumsphere_ext (mA mB : TetrahedralMesh F) (kA kB : N) :
  vertices_ mA = vertices_ mB ->
  indices_ (tet mA kA) = indices_ (tet mB kB) ->
  GetTetrahedronCircumsphere md mA kA = GetTetrahedronCircumsphere md mB kB.
Proof.
  intros Hv Hi. unfold GetTetrahedronCircumsphere, vertex. now rewrite Hv, Hi.
Qed.

Lemma fill_invariant_0 : fill_invariant 0.
Proof.
  constructor; cbn; try reflexivity; try (intros; lia); auto.
Qed.

(** The cells after one iteration on face [i]. *)
Definition step_tets (tets : list (Tetrahedron F)) (i : nat) : list (Tetrahedron F) :=
  let cell :=
    mkTetrahedron (indices_ (new_cell i)) (neighbors_ (new_cell i))
                  (matrix_ (at_ Tetrahedron_default tets (out_ i))) in
  let tets1 := put tets (out_ i) cell in
  if negb (tetIndex_ (face_ i) =? M_MAX_UNSIGNED) then
    put tets1 (tetIndex_ (face_ i))
        (set_neighbor (at_ Tetrahedron_default tets1 (tetIndex_ (face_ i)))
                      (N.to_nat (tetFace_ (face_ i))) (out_ i))
  else tets1.

Lemma fill_step_mesh (st : TetrahedralMesh F * DelaunayContext F * list (LogEvent F)) (i : nat) :
  fst (fst (fill_step md outputTetrahedrons holeSurface centerIndex st (N.of_nat i)))
  = with_tetrahedrons (fst (fst st)) (step_tets (tetrahedrons_ (fst (fst st))) i).
Proof. destruct st as [[m c] l]. reflexivity. Qed.

Lemma fill_step_ctx (st : TetrahedralMesh F * DelaunayContext F * list (LogEvent F)) (i : nat) :
  snd (fst (fill_step md outputTetrahedrons holeSurface centerIndex st (N.of_nat i)))
  = set_circumsphere (set_removed (snd (fst st)) (out_ i) false) (out_ i)
      (snd (GetTetrahedronCircumsphere md
              (with_tetrahedrons (fst (fst st)) (step_tets (tetrahedrons_ (fst (fst st))) i))
              (out_ i))).
Proof. destruct st as [[m c] l]. reflexivity. Qed.

Lemma step_tets_length (tets : list (Tetrahedron F)) (i : nat) :
  length (step_tets tets i) = length tets.
Proof.
  unfold step_tets. destruct (negb _); now rewrite ?length_put.
Qed.

(** The effect of one iteration on the cell [k], for cells in range. *)
Lemma step_tets_at (tets : list (Tetrahedron F)) (i : nat) (k : N) :
  (N.to_nat (out_ i) < length tets)%nat ->
  (tetIndex_ (face_ i) <> M_MAX_UNSIGNED ->
   (N.to_nat (tetIndex_ (face_ i)) < length tets)%nat /\ out_ i <> tetIndex_ (face_ i)) ->
  at_ Tetrahedron_default (step_tets tets i) k
  = if decide (tetIndex_ (face_ i) <> M_MAX_UNSIGNED /\ k = tetIndex_ (face_ i)) then
      set_neighbor (at_ Tetrahedron_default tets k) (N.to_nat (tetFace_ (face_ i))) (out_ i)
    else if decide (k = out_ i) then
      mkTetrahedron (indices_ (new_cell i)) (neighbors_ (new_cell i))
                    (matrix_ (at_ Tetrahedron_default tets (out_ i)))
    else at_ Tetrahedron_default tets k.
Proof.
  intros Ha Hb. unfold step_tets.
  destruct (N.eqb_spec (tetIndex_ (face_ i)) M_MAX_UNSIGNED) as [E|E]; cbn [negb].
  - rewrite decide_False by tauto.
    destruct (decide (k = out_ i)) as [->|Hk].
    + now rewrite at_put_eq.
    + now rewrite at_put_ne by congruence.
  - destruct (Hb E) as [Hb1 Hb2].
    destruct (decide (tetIndex_ (face_ i) <> M_MAX_UNSIGNED /\ k = tetIndex_ (face_ i)))
      as [[_ ->]|Hk].
    + rewrite at_put_eq by (rewrite length_put; exact Hb1).
      now rewrite at_put_ne by exact Hb2.
    + rewrite at_put_ne by (intros E0; apply Hk; split; [exact E | now symmetry]).
      destruct (decide (k = out_ i)) as [->|Hk'].
      * now rewrite at_put_eq.
      * now rewrite at_put_ne by congruence.
Qed.

Lemma fill_invariant_S (j : nat) : (j < n)%nat -> fill_invariant j -> fill_invariant (S j).
Proof.
  intros Hj IH.
  pose proof (fill_step_mesh (fill_prefix j) j) as Hm.
  pose proof (fill_step_ctx (fill_prefix j) j) as Hc.
  rewrite <- fill_prefix_S in Hm, Hc.
  set (T := tetrahedrons_ (mesh_at j)) in *.
  assert (HT : length T = length (tetrahedrons_ m2)) by apply (inv_length j IH).
  assert (Ha : (N.to_nat (out_ j) < length T)%nat) by (rewrite HT; now apply out_range).
  assert (Hb : tetIndex_ (face_ j) <> M_MAX_UNSIGNED ->
               (N.to_nat (tetIndex_ (face_ j)) < length T)%nat /\
               out_ j <> tetIndex_ (face_ j)).
  { intros E. destruct (back_range j Hj E) as [H1 H2]. split; [lia | now apply H2]. }
  assert (Hfresh : forall i : nat, (i < j)%nat -> out_ i <> out_ j).
  { intros i Hi E. apply out_NoDup in E; lia. }
  assert (Hcell : mkTetrahedron (indices_ (new_cell j)) (neighbors_ (new_cell j))
                                (matrix_ (at_ Tetrahedron_default T (out_ j))) = new_cell j).
  { destruct (inv_other j IH (out_ j) Hfresh) as (_ & Hmat & _).
    unfold tet in Hmat. fold T in Hmat. rewrite Hmat. reflexivity. }
  assert (Hat : forall k : N,
             tet (mesh_at (S j)) k
             = if decide (tetIndex_ (face_ j) <> M_MAX_UNSIGNED /\ k = tetIndex_ (face_ j)) then
                 set_neighbor (tet (mesh_at j) k) (N.to_nat (tetFace_ (face_ j))) (out_ j)
               else if decide (k = out_ j) then new_cell j
               else tet (mesh_at j) k).
  { intros k. unfold tet. rewrite Hm. cbn [tetrahedrons_ with_tetrahedrons].
    rewrite step_tets_at by assumption. fold T. now rewrite Hcell. }
  assert (Hflags : removed_ (ctx_at (S j)) = put (removed_ (ctx_at j)) (out_ j) false)
    by (rewrite Hc; reflexivity).
  assert (Hspheres : circumspheres_ (ctx_at (S j))
                     = put (circumspheres_ (ctx_at j)) (out_ j)
                           (snd (GetTetrahedronCircumsphere md (mesh_at (S j)) (out_ j))))
    by (rewrite Hc, Hm; reflexivity).
  assert (Hnew : tet (mesh_at (S j)) (out_ j) = new_cell j).
  { rewrite Hat. rewrite decide_False; [now rewrite decide_True | ].
    intros [E1 E2]. destruct (Hb E1) as [_ Hne]. congruence. }
  constructor.
  - rewrite Hm. cbn [tetrahedrons_ with_tetrahedrons]. now rewrite step_tets_length.
  - rewrite Hm. cbn [vertices_ with_tetrahedrons]. apply (inv_vertices j IH).
  - rewrite Hflags, length_put. apply (inv_removed_length j IH).
  - rewrite Hspheres, length_put. apply (inv_spheres_length j IH).
  - intros i Hi. destruct (decide (i = j)) as [->|Hne]; [exact Hnew | ].
    rewrite Hat. rewrite decide_False.
    + rewrite decide_False by (apply Hfresh; lia). apply (inv_new j IH). lia.
    + intros [E1 E2]. destruct (back_range j Hj E1) as [_ H2]. apply (H2 i); [lia | exact E2].
  - intros i Hi Ei. rewrite Hat.
    destruct (decide (i = j)) as [->|Hne].
    + rewrite decide_True by tauto. cbn [neighbors_ set_neighbor set_neighbors].
      apply get4_set4_eq. pose proof (face_range j Hj Ei). lia.
    + destruct (decide (tetIndex_ (face_ j) <> M_MAX_UNSIGNED /\
                        tetIndex_ (face_ i) = tetIndex_ (face_ j))) as [[E1 E2]|Hk].
      * cbn [neighbors_ set_neighbor set_neighbors].
        rewrite get4_set4_ne.
        -- apply (inv_back j IH); [lia | exact Ei].
        -- pose proof (face_range i ltac:(lia) Ei). lia.
        -- intros E. apply (back_distinct i j); try lia; assumption.
      * rewrite decide_False.
        -- apply (inv_back j IH); [lia | exact Ei].
        -- intros E. destruct (back_range i ltac:(lia) Ei) as [_ H2].
           apply (H2 j Hj). congruence.
  - intros k Hk. rewrite Hat.
    assert (Hkj : k <> out_ j) by (intros ->; apply (Hk j); [lia | reflexivity]).
    assert (Hk' : forall i : nat, (i < j)%nat -> out_ i <> k) by (intros i Hi; apply Hk; lia).
    destruct (inv_other j IH k Hk') as (H1 & H2 & H3).
    destruct (decide (tetIndex_ (face_ j) <> M_MAX_UNSIGNED /\ k = tetIndex_ (face_ j)))
      as [[E1 E2]|Hd].
    + cbn [indices_ matrix_ neighbors_ set_neighbor set_neighbors].
      split; [exact H1 | ]. split; [exact H2 | ].
      intros f Hf Hno. rewrite get4_set4_ne.
      * apply H3; [exact Hf | ]. intros i Hi. apply Hno. lia.
      * exact Hf.
      * intros E. apply (Hno j); [lia | ]. split; [exact E1 | ]. split; [congruence | exact E].
    + rewrite decide_False by exact Hkj.
      split; [exact H1 | ]. split; [exact H2 | ].
      intros f Hf Hno. apply H3; [exact Hf | ]. intros i Hi. apply Hno. lia.
  - intros i Hi. rewrite Hflags.
    destruct (decide (i = j)) as [->|Hne].
    + apply at_put_eq. rewrite (inv_removed_length j IH), removed_length. now apply out_range.
    + rewrite at_put_ne by (intros E; symmetry in E; apply Hfresh in E; lia).
      apply (inv_flag j IH). lia.
  - intros k Hk. rewrite Hflags.
    rewrite at_put_ne by (apply Hk; lia).
    apply (inv_flag_other j IH). intros i Hi. apply Hk. lia.
  - intros i Hi. rewrite Hspheres.
    destruct (decide (i = j)) as [->|Hne].
    + rewrite at_put_eq
        by (rewrite (inv_spheres_length j IH), spheres_length; now apply out_range).
      f_equal. apply GetTetrahedronCircumsphere_ext.
      * rewrite Hm. cbn [vertices_ with_tetrahedrons]. apply (inv_vertices j IH).
      * rewrite Hnew. reflexivity.
    + rewrite at_put_ne by (intros E; symmetry in E; apply Hfresh in E; lia).
      apply (inv_sphere j IH). lia.
Qed.

Lemma fill_invariant_all (j : nat) : (j <= n)%nat -> fill_invariant j.
Proof.
  induction j as [|j IH]; intros Hj; [apply fill_invariant_0 | ].
  apply fill_invariant_S; [lia | apply IH; lia].
Qed.

End FillHole.

Section FillTheorem.
Context {F : Type} {SF : Scalar F}.
Variable md : Constants F.

(** The output slots: the removed cells first, then the appended ones. *)
Lemma output_slots (removed : list N) (base count : nat) (i : nat) :
  (i < length removed + count)%nat ->
  out_ (removed ++ map N.of_nat (seq base count)) i
  = if decide (i < length removed)%nat then at_ 0%N removed (N.of_nat i)
    else N.of_nat (base + (i - length removed)).
Proof.
  intros Hi. unfold out_, at_. rewrite Nat2N.id.
  destruct (decide (i < length removed)%nat) as [Hlt|Hge].
  - now rewrite lookup_app_l.
  - rewrite lookup_app_r by lia. rewrite list_lookup_fmap, lookup_seq_lt by lia. reflexivity.
Qed.

Lemma output_NoDup (removed : list N) (base count : nat) :
  NoDup removed ->
  (forall k : N, k ∈ removed -> (N.to_nat k < base)%nat) ->
  NoDup (removed ++ map N.of_nat (seq base count)).
Proof.
  intros Hnd Hr. apply NoDup_app. split; [exact Hnd | ]. split.
  - intros k Hk Hk'. apply Hr in Hk. apply list_elem_of_fmap in Hk' as (x & -> & Hx).
    apply elem_of_seq in Hx. lia.
  - apply NoDup_fmap_2; [ | apply NoDup_seq]. intros x y. apply Nat2N.inj.
Qed.

(** C4.  After a hole is carved, the allocation appends cells only when the
    removed cells are fewer than the faces of the hole, so the output slots
    are the removed cells followed by the new slots; [FillStarShapedHole]
    then writes exactly one cell per hole face, into the first slots in
    order.  The cell of face [i] has the three vertices of the face and the
    inserted vertex as fourth; its neighbour [j] for [j < 3] is the cell of
    the hole face adjacent across edge [j], its neighbour 3 is the cell the
    face referenced (or the sentinel), and that cell points back at it
    through the referenced face.  Its removed flag is cleared and its cached
    circumsphere is the one of its four vertices.  The cells in other slots
    keep their vertices and their flag. *)
Theorem C4_FillStarShapedHole_star
    (m : TetrahedralMesh F) (ctx : DelaunayContext F) (removed : list N)
    (holeSurface : TetrahedralMeshSurface) (centerIndex : N) :
  let n := length (faces_ holeSurface) in
  let a := allocate (n - length removed) m ctx removed in
  let m2 := fst (fst a) in
  let out := snd a in
  let r := FillStarShapedHole md m2 (snd (fst a)) out holeSurface centerIndex in
  let m3 := fst (fst r) in
  let ctx3 := snd (fst r) in
  NoDup removed ->
  (forall k : N, k ∈ removed -> (N.to_nat k < length (tetrahedrons_ m))%nat) ->
  length (removed_ ctx) = length (tetrahedrons_ m) ->
  length (circumspheres_ ctx) = length (tetrahedrons_ m) ->
  (forall i : nat, (i < n)%nat ->
     tetIndex_ (face_ holeSurface i) <> M_MAX_UNSIGNED -> tetFace_ (face_ holeSurface i) < 4) ->
  (forall i : nat, (i < n)%nat ->
     tetIndex_ (face_ holeSurface i) <> M_MAX_UNSIGNED ->
     (N.to_nat (tetIndex_ (face_ holeSurface i)) < length (tetrahedrons_ m))%nat /\
     tetIndex_ (face_ holeSurface i) ∉ removed) ->
  (forall i k : nat, (i < n)%nat -> (k < n)%nat -> i <> k ->
     tetIndex_ (face_ holeSurface i) <> M_MAX_UNSIGNED ->
     tetIndex_ (face_ holeSurface i) = tetIndex_ (face_ holeSurface k) ->
     tetFace_ (face_ holeSurface i) <> tetFace_ (face_ holeSurface k)) ->
  out = removed ++ map N.of_nat (seq (length (tetrahedrons_ m)) (n - length removed)) /\
  length (tetrahedrons_ m3) = (length (tetrahedrons_ m) + (n - length removed))%nat /\
  NoDup out /\ (n <= length out)%nat /\
  (forall i : nat, (i < n)%nat ->
     let triangle := face_ holeSurface i in
     let cell := tet m3 (out_ out i) in
     indices_ cell = mk4 (e30 (tri_indices_ triangle)) (e31 (tri_indices_ triangle))
                         (e32 (tri_indices_ triangle)) centerIndex /\
     neighbors_ cell = mk4 (at_ 0%N out (e30 (tri_neighbors_ triangle)))
                           (at_ 0%N out (e31 (tri_neighbors_ triangle)))
                           (at_ 0%N out (e32 (tri_neighbors_ triangle)))
                           (tetIndex_ triangle) /\
     (tetIndex_ triangle <> M_MAX_UNSIGNED ->
        get4 (neighbors_ (tet m3 (tetIndex_ triangle))) (N.to_nat (tetFace_ triangle))
        = out_ out i) /\
     at_ true (removed_ ctx3) (out_ out i) = false /\
     at_ Sphere_default (circumspheres_ ctx3) (out_ out i)
     = snd (GetTetrahedronCircumsphere md m3 (out_ out i))) /\
  (forall k : N, (forall i : nat, (i < n)%nat -> out_ out i <> k) ->
     indices_ (tet m3 k) = indices_ (tet m2 k) /\
     at_ true (removed_ ctx3) k = at_ true (removed_ (snd (fst a))) k).
Proof.
  intros n a m2 out r m3 ctx3 Hnd Hrange Hfl Hsp Hface Hback Hdist.
  assert (Ha : a = (with_tetrahedrons m
                      (tetrahedrons_ m ++ replicate (n - length removed) Tetrahedron_default),
                    mkContext (circumspheres_ ctx ++ replicate (n - length removed) Sphere_default)
                              (removed_ ctx ++ replicate (n - length removed) true)
                              (holeTriangles_ ctx),
                    removed ++ map N.of_nat (seq (length (tetrahedrons_ m))
                                                 (n - length removed))))
    by apply allocate_closed_form.
  assert (Hout : out = removed ++ map N.of_nat (seq (length (tetrahedrons_ m))
                                                    (n - length removed)))
    by (unfold out; rewrite Ha; reflexivity).
  assert (Hlen2 : length (tetrahedrons_ m2)
                  = (length (tetrahedrons_ m) + (n - length removed))%nat).
  { unfold m2. rewrite Ha. cbn [fst tetrahedrons_ with_tetrahedrons].
    now rewrite length_app, length_replicate. }
  assert (Hndout : NoDup out) by (rewrite Hout; now apply output_NoDup).
  assert (Hlenout : (n <= length out)%nat).
  { rewrite Hout, length_app, length_map, length_seq. lia. }
  assert (Hslot : forall i : nat, (i < n)%nat -> out !! i = Some (out_ out i)).
  { intros i Hi. unfold out_. rewrite <- (Nat2N.id i) at 1. apply at_in_range.
    rewrite Nat2N.id. lia. }
  assert (Hinv : fill_invariant md m2 (snd (fst a)) out holeSurface centerIndex n).
  { apply fill_invariant_all; try lia.
    - intros i k Hi Hk E. apply (NoDup_lookup out i k (out_ out i)); [exact Hndout | | ].
      + now apply Hslot.
      + rewrite E. now apply Hslot.
    - intros i Hi. rewrite Hlen2, Hout.
      rewrite output_slots by lia. destruct (decide (i < length removed)%nat) as [Hlt|Hge].
      + assert (Hin : at_ 0%N removed (N.of_nat i) ∈ removed).
        { apply list_elem_of_lookup. exists i. rewrite <- (Nat2N.id i) at 1.
          apply at_in_range. now rewrite Nat2N.id. }
        apply Hrange in Hin. lia.
      + lia.
    - unfold m2. rewrite Ha. cbn [fst snd removed_ tetrahedrons_ with_tetrahedrons].
      rewrite !length_app, !length_replicate. lia.
    - unfold m2. rewrite Ha. cbn [fst snd circumspheres_ tetrahedrons_ with_tetrahedrons].
      rewrite !length_app, !length_replicate. lia.
    - exact Hface.
    - intros i Hi E. destruct (Hback i Hi E) as [H1 H2]. split; [lia | ].
      intros k Hk Ek. rewrite Hout in Ek. rewrite output_slots in Ek by lia.
      destruct (decide (k < length removed)%nat) as [Hlt|Hge].
      + apply H2. rewrite <- Ek. apply list_elem_of_lookup. exists k.
        rewrite <- (Nat2N.id k) at 1. apply at_in_range. now rewrite Nat2N.id.
      + lia.
    - exact Hdist. }
  assert (Hm3 : m3 = fst (fst (fill_prefix md m2 (snd (fst a)) out holeSurface centerIndex n)))
    by reflexivity.
  assert (Hctx3 : ctx3 = snd (fst (fill_prefix md m2 (snd (fst a)) out holeSurface
                                               centerIndex n)))
    by reflexivity.
  clearbody m3 ctx3. clear r. subst m3 ctx3.
  split; [exact Hout | ].
  split; [rewrite (inv_length _ _ _ _ _ _ _ Hinv); exact Hlen2 | ].
  split; [exact Hndout | ]. split; [exact Hlenout | ].
  split.
  - intros i Hi triangle cell.
    assert (Hcell : cell = new_cell m2 out holeSurface centerIndex i)
      by apply (inv_new _ _ _ _ _ _ _ Hinv i Hi).
    split; [rewrite Hcell; reflexivity | ]. split; [rewrite Hcell; reflexivity | ].
    split; [apply (inv_back _ _ _ _ _ _ _ Hinv i Hi) | ].
    split; [apply (inv_flag _ _ _ _ _ _ _ Hinv i Hi) | ].
    rewrite (inv_sphere _ _ _ _ _ _ _ Hinv i Hi).
    f_equal. apply GetTetrahedronCircumsphere_ext.
    + symmetry. apply (inv_vertices _ _ _ _ _ _ _ Hinv).
    + fold cell. rewrite Hcell. reflexivity.
  - intros k Hk. destruct (inv_other _ _ _ _ _ _ _ Hinv k Hk) as (H1 & _ & _).
    split; [exact H1 | ]. apply (inv_flag_other _ _ _ _ _ _ _ Hinv k Hk).
Qed.

End FillTheorem.

(** The state after the first of two points is inserted, and the hole carved
    for the second. *)
Definition two_point_build : Build float :=
  Eval vm_compute in
  let m := InitializeSuperMesh Mesh_empty
             (mkBoundingBox (point (-3) (-3) (-3)) (point 3 3 3)) in
  let c := initial_context float_constants m in
  fst (insert_vertex float_constants
         (mkBuild (with_vertices m (vertices_ m ++ [point 0 0 0; point 1 0 1]))
                  (fst c) (snd c), [])
         8).

Definition second_carve : Carve float :=
  Eval vm_compute in
  FindAndRemoveIntersected float_constants (build_mesh two_point_build)
    (build_ctx two_point_build) (point 1 0 1) false.

Definition second_disconnected : TetrahedralMesh float :=
  Eval vm_compute in
  DisconnectRemovedTetrahedrons (build_mesh two_point_build)
                                (carve_removedTetrahedrons second_carve).

(** Decides a closed decidable proposition by evaluation. *)
Ltac by_evaluation :=
  match goal with
  | |- ?P => apply (@bool_decide_eq_true_1 P _); vm_compute; reflexivity
  end.

(** An implication whose premise excludes the sentinel: the premise is
    refuted when the value is the sentinel, and the conclusion is evaluated
    otherwise. *)
Ltac sentinel_or_evaluation :=
  first [ solve [ let E := fresh in intros E; exfalso; apply E; reflexivity ]
        | intros _; by_evaluation ].

Lemma C4_witness :
  let holeSurface := carve_holeSurface second_carve in
  let removed := carve_removedTetrahedrons second_carve in
  let a := allocate (length (faces_ holeSurface) - length removed)
                    second_disconnected (carve_ctx second_carve) removed in
  let r := FillStarShapedHole float_constants (fst (fst a)) (snd (fst a)) (snd a)
                              holeSurface 9 in
  length (tetrahedrons_ (fst (fst r))) = 18%nat /\ NoDup (snd a).
Proof.
  intros holeSurface removed a r.
  pose proof (C4_FillStarShapedHole_star float_constants second_disconnected
                (carve_ctx second_carve) removed holeSurface 9) as H.
  cbv zeta in H.
  assert (H1 : NoDup removed) by by_evaluation.
  assert (H2 : forall k : N, k ∈ removed ->
                 (N.to_nat k < length (tetrahedrons_ second_disconnected))%nat).
  { intros k Hk. change removed with [2; 6; 7; 10] in Hk.
    repeat (apply elem_of_cons in Hk as [->|Hk]); try by_evaluation.
    inversion Hk. }
  assert (H3 : length (removed_ (carve_ctx second_carve))
               = length (tetrahedrons_ second_disconnected)) by (vm_compute; reflexivity).
  assert (H4 : length (circumspheres_ (carve_ctx second_carve))
               = length (tetrahedrons_ second_disconnected)) by (vm_compute; reflexivity).
  specialize (H H1 H2 H3 H4).
  assert (Hn : length (faces_ holeSurface) = 10%nat) by (vm_compute; reflexivity).
  destruct H as (_ & Hlen & Hnd & _).
  - intros i Hi. rewrite Hn in Hi.
    do 10 (destruct i as [|i]; [sentinel_or_evaluation | ]). lia.
  - intros i Hi. rewrite Hn in Hi.
    do 10 (destruct i as [|i]; [sentinel_or_evaluation | ]). lia.
  - intros i k Hi Hk Hne. rewrite Hn in Hi, Hk.
    do 10 (destruct i as [|i];
           [ first [ solve [ let E := fresh in intros E; exfalso; apply E; reflexivity ]
                   | intros _;
                     do 10 (destruct k as [|k]; [first [ lia | by_evaluation ] | ]); lia ]
           | ]).
    lia.
  - split; [ | exact Hnd]. fold holeSurface removed a r in Hlen. rewrite Hlen.
    vm_compute. reflexivity.
Defined.

(** ** The hull of a pinched mesh *)

(** Six points: two thin tetrahedra, far apart, that share the edge between
    the first two points. *)
Definition pinched_points : list (Vector3 float) :=
  [ point 0 0 0; point 1 1 5; point 9 (-1) 1; point 10 2 1;
    point (-10) 1 2; point (-8) (-2) 4 ].

(** The mesh of the six points after the super mesh is stripped, with the log
    of the build. *)
Definition pinched_stripped : TetrahedralMesh float * list (LogEvent float) :=
  Eval vm_compute in
  triangulate_and_strip float_constants
    (InitializeSuperMesh Mesh_empty (padded_box float_constants pinched_points))
    pinched_points.

Lemma pinched_stripped_eq :
  pinched_stripped
  = triangulate_and_strip float_constants
      (InitializeSuperMesh Mesh_empty (padded_box float_constants pinched_points))
      pinched_points.
Proof. vm_compute. reflexivity. Qed.

(** The faces of the cells whose neighbour slot holds the sentinel. *)
Definition sentinel_faces {F : Type} (m : TetrahedralMesh F)
  : list TetrahedralMeshSurfaceTriangle :=
  flat_map (fun it : N * Tetrahedron F =>
              flat_map (fun faceIndex =>
                          if get4 (neighbors_ (snd it)) faceIndex =? M_MAX_UNSIGNED
                          then [GetTriangleFace (snd it) faceIndex (fst it) (N.of_nat faceIndex)]
                          else [])
                       [0; 1; 2; 3]%nat)
           (zip (indices_of (tetrahedrons_ m)) (tetrahedrons_ m)).

(** The number of faces of a list that contain the edge. *)
Definition faces_on_edge (e : N * N) (faces : list TetrahedralMeshSurfaceTriangle) : nat :=
  count_edge e (surface_edges (mkSurface faces)).

(** C7 (the code departs from the claim).  [Define] on the six points inserts
    every point without a failure (the log is empty and no vertex is
    ignored) and the stripped mesh passes [IsAdjacencyValid(false)]; it has
    two cells, (0, 1, 4, 5) and (0, 1, 2, 3), with eight faces on the
    sentinel.  Four of these faces contain the edge (0, 1).  The surface that
    [BuildHullSurface] assembles holds six faces, not the eight, and is not
    closed. *)
Theorem C7_hull_not_closed :
  let m := fst pinched_stripped in
  snd pinched_stripped = [] /\
  ignoredVertices_ m = [] /\
  IsAdjacencyValid m false = true /\
  map (fun t => list4 (indices_ t)) (tetrahedrons_ m) = [[0; 1; 4; 5]; [0; 1; 2; 3]] /\
  length (sentinel_faces m) = 8%nat /\
  faces_on_edge (0, 1) (sentinel_faces m) = 4%nat /\
  length (faces_ (BuildHullSurface m)) = 6%nat /\
  IsClosedSurface (BuildHullSurface m) = false /\
  IsClosedSurface (mkSurface (sentinel_faces m)) = false.
Proof. vm_compute. repeat split; reflexivity. Qed.

(** ** Adjacency at the stable states *)

(** The states after each vertex of a queue is handled, with the vertices
    postponed so far. *)
Fixpoint insertion_states {F : Type} {SF : Scalar F} (md : Constants F)
    (st : Build F * list N) (queue : list N) : list (Build F * list N) :=
  match queue with
  | [] => []
  | v :: rest =>
    let st' := insert_vertex md st v in
    st' :: insertion_states md st' rest
  end.

(** The state in which [BuildTetrahedrons] enters its loop. *)
Definition initial_build {F : Type} {SF : Scalar F} (md : Constants F)
    (m : TetrahedralMesh F) (positions : list (Vector3 F)) : Build F :=
  let c := initial_context md m in
  mkBuild (with_vertices m (vertices_ m ++ positions)) (fst c) (snd c).

(** C1 (the code departs from the claim).  The super mesh passes
    [IsAdjacencyValid(false)] for every box.  For the six points of the
    pinched mesh the check also passes after each of the six insertions, all
    of them committed, and after the super mesh is stripped; but after
    [BuildOuterTetrahedrons] the check [IsAdjacencyValid(true)], which the
    source asserts there, returns false: two faces of cell 1 were refused by
    the hull surface and keep the sentinel.  The outer cells were linked
    through the neighbour slots of a surface that is not closed: the
    sentinel in such a slot, added to the number of inner cells, wraps
    around to cell 1, which outer cell 6 names across three of its faces
    (the check without the flag still passes, since cell 1 names cell 6). *)
Theorem C1_adjacency_after_outer_cells :
  (forall (F : Type) (SF : Scalar F) (m : TetrahedralMesh F) (bb : BoundingBox F),
     IsAdjacencyValid (InitializeSuperMesh m bb) false = true) /\
  (let m0 := InitializeSuperMesh Mesh_empty (padded_box float_constants pinched_points) in
   let states := insertion_states float_constants
                   (initial_build float_constants m0 pinched_points, [])
                   [8; 9; 10; 11; 12; 13] in
   forallb (fun st => IsAdjacencyValid (build_mesh (fst st)) false
                      && bool_decide (snd st = [])) states = true /\
   length states = 6%nat /\
   IsAdjacencyValid (fst pinched_stripped) false = true /\
   let m3 := build_outer_space float_constants (fst pinched_stripped) in
   numInnerTetrahedrons_ m3 = 2 /\
   length (tetrahedrons_ m3) = 8%nat /\
   neighbors_ (tet m3 1) = mk4 6 7 M_MAX_UNSIGNED M_MAX_UNSIGNED /\
   neighbors_ (tet m3 6) = mk4 7 1 1 1 /\
   IsAdjacencyValid m3 false = true /\
   IsAdjacencyValid m3 true = false /\
   IsAdjacencyValid (fst (Define float_constants Mesh_empty pinched_points)) true = false).
Proof.
  split; [intros; apply InitializeSuperMesh_adjacency | ].
  vm_compute. repeat split; reflexivity.
Qed.

(** ** The conflict region of an insertion *)

Lemma flag_put_live (flags : list bool) (i : N) :
  at_ true flags i = false -> at_ true (put flags i true) i = true.
Proof.
  intros H. apply at_put_eq.
  destruct (Nat.lt_ge_cases (N.to_nat i) (length flags)) as [Hlt|Hge]; [exact Hlt | ].
  rewrite at_out_of_range in H by exact Hge. discriminate H.
Qed.

Lemma flag_put_kept (flags : list bool) (i j : N) :
  at_ true flags j = true -> at_ true (put flags i true) j = true.
Proof.
  intros H. destruct (N.eq_dec i j) as [->|Hne].
  - destruct (Nat.lt_ge_cases (N.to_nat j) (length flags)) as [Hlt|Hge].
    + now apply at_put_eq.
    + now rewrite put_out_of_range.
  - now rewrite at_put_ne.
Qed.

Section ConflictRegion.
Context {F : Type} {SF : Scalar F}.
Variable md : Constants F.
Variable m : TetrahedralMesh F.
Variable ctx : DelaunayContext F.
Variable position : Vector3 F.

Lemma IsInsideCircumsphere_spheres (c : DelaunayContext F) (tetIndex : N) :
  circumspheres_ c = circumspheres_ ctx ->
  IsInsideCircumsphere md c tetIndex position = IsInsideCircumsphere md ctx tetIndex position.
Proof. intros H. unfold IsInsideCircumsphere. now rewrite H. Qed.

(** The neighbour across a face has been dealt with: it is flagged, or the
    position is not in its circumsphere. *)
Definition face_settled (c : DelaunayContext F) (tetrahedron : Tetrahedron F)
    (faceIndex : nat) : Prop :=
  let neighborTetIndex := get4 (neighbors_ tetrahedron) faceIndex in
  neighborTetIndex <> M_MAX_UNSIGNED ->
  is_removed c neighborTetIndex = true \/
  IsInsideCircumsphere md ctx neighborTetIndex position = false.

(** What holds of the flags and the queue throughout the search. *)
Record search_state (st : DelaunayContext F * list N) : Prop := {
  ss_spheres : circumspheres_ (fst st) = circumspheres_ ctx;
  ss_queue : forall tetIndex, tetIndex ∈ snd st ->
    is_removed (fst st) tetIndex = true /\
    IsInsideCircumsphere md ctx tetIndex position = true;
  ss_length : length (removed_ (fst st)) = length (removed_ ctx);
  ss_live : forall tetIndex, tetIndex ∈ snd st -> is_removed ctx tetIndex = false;
  ss_untouched : forall tetIndex, tetIndex ∉ snd st ->
    is_removed (fst st) tetIndex = is_removed ctx tetIndex
}.

(** One state follows another in the search: flags are only set, the queue
    only grows at its end. *)
Definition search_extends (st st' : DelaunayContext F * list N) : Prop :=
  (forall tetIndex, is_removed (fst st) tetIndex = true ->
                    is_removed (fst st') tetIndex = true) /\
  exists queued, snd st' = snd st ++ queued.

Lemma search_extends_refl (st : DelaunayContext F * list N) : search_extends st st.
Proof. split; [auto | exists []; now rewrite app_nil_r]. Qed.

Lemma search_extends_trans (st1 st2 st3 : DelaunayContext F * list N) :
  search_extends st1 st2 -> search_extends st2 st3 -> search_extends st1 st3.
Proof.
  intros [H1 [q1 E1]] [H2 [q2 E2]]. split; [auto | ].
  exists (q1 ++ q2). now rewrite E2, E1, app_assoc.
Qed.

Lemma face_settled_extends (st st' : DelaunayContext F * list N)
    (tetrahedron : Tetrahedron F) (faceIndex : nat) :
  search_extends st st' ->
  face_settled (fst st) tetrahedron faceIndex ->
  face_settled (fst st') tetrahedron faceIndex.
Proof.
  intros [Hm _] H Hn. destruct (H Hn) as [Hr|Hr]; [left; now apply Hm | now right].
Qed.

Lemma search_face_settles (tetrahedron : Tetrahedron F)
    (st : DelaunayContext F * list N) (faceIndex : nat) :
  search_state st ->
  let st' := search_face md position tetrahedron st faceIndex in
  search_state st' /\ search_extends st st' /\ face_settled (fst st') tetrahedron faceIndex.
Proof.
  intros Hst. pose proof Hst as [Hs Hq Hlen Hlive Hun]. unfold search_face, face_settled.
  destruct (get4 (neighbors_ tetrahedron) faceIndex =? M_MAX_UNSIGNED) eqn:Hmax.
  { apply N.eqb_eq in Hmax. split; [exact Hst | split; [apply search_extends_refl | ]].
    intros Hn. now destruct Hn. }
  destruct (is_removed (fst st) (get4 (neighbors_ tetrahedron) faceIndex)) eqn:Hr.
  { split; [exact Hst | split; [apply search_extends_refl | ]]. intros _. now left. }
  destruct (IsInsideCircumsphere md (fst st) (get4 (neighbors_ tetrahedron) faceIndex) position)
    eqn:Hi.
  - rewrite IsInsideCircumsphere_spheres in Hi by exact Hs.
    assert (Hnew : is_removed (set_removed (fst st) (get4 (neighbors_ tetrahedron) faceIndex) true)
                              (get4 (neighbors_ tetrahedron) faceIndex) = true)
      by (apply flag_put_live; exact Hr).
    split; [ | split; [split | ]]; cbn [fst snd].
    + assert (Hfresh : get4 (neighbors_ tetrahedron) faceIndex ∉ snd st).
      { intros Hin. destruct (Hq _ Hin) as [H1 _]. congruence. }
      constructor; cbn [fst snd set_removed removed_].
      * exact Hs.
      * intros t Ht. apply elem_of_app in Ht as [Ht|Ht].
        -- destruct (Hq t Ht) as [H1 H2]. split; [now apply flag_put_kept | exact H2].
        -- apply list_elem_of_singleton in Ht. subst t. split; [exact Hnew | exact Hi].
      * now rewrite length_put.
      * intros t Ht. apply elem_of_app in Ht as [Ht|Ht]; [now apply Hlive | ].
        apply list_elem_of_singleton in Ht. subst t. rewrite <- (Hun _ Hfresh). exact Hr.
      * intros t Ht. rewrite not_elem_of_app, not_elem_of_cons in Ht.
        destruct Ht as [Ht [Hne _]]. rewrite <- (Hun _ Ht).
        unfold is_removed. cbn [removed_]. apply at_put_ne. congruence.
    + intros t Ht. now apply flag_put_kept.
    + now eexists.
    + intros _. left. exact Hnew.
  - rewrite IsInsideCircumsphere_spheres in Hi by exact Hs.
    split; [exact Hst | split; [apply search_extends_refl | ]]. intros _. now right.
Qed.

Lemma search_faces_settle (tetrahedron : Tetrahedron F) (faces : list nat) :
  forall st : DelaunayContext F * list N,
    search_state st ->
    let st' := foldl (search_face md position tetrahedron) st faces in
    search_state st' /\ search_extends st st' /\
    forall faceIndex, faceIndex ∈ faces -> face_settled (fst st') tetrahedron faceIndex.
Proof.
  induction faces as [|f faces IH]; intros st Hst.
  - cbn. split; [exact Hst | split; [apply search_extends_refl | ]].
    intros faceIndex Hf. inversion Hf.
  - cbn [foldl]. destruct (search_face_settles tetrahedron st f Hst) as (H1 & H2 & H3).
    destruct (IH _ H1) as (H4 & H5 & H6). split; [exact H4 | split].
    + eapply search_extends_trans; eassumption.
    + intros faceIndex Hf. apply elem_of_cons in Hf as [->|Hf]; [ | now apply H6].
      eapply face_settled_extends; eassumption.
Qed.

(** The cells of the queue before position [i] have all their faces
    settled. *)
Definition processed (st : DelaunayContext F * list N) (i : nat) : Prop :=
  forall k tetIndex faceIndex,
    (k < i)%nat -> snd st !! k = Some tetIndex -> faceIndex ∈ [0; 1; 2; 3]%nat ->
    face_settled (fst st) (tet m tetIndex) faceIndex.

Lemma breadth_search_settles (fuel : nat) :
  forall (st : DelaunayContext F * list N) (i : nat),
    (i <= length (snd st))%nat ->
    (search_weight st - i < fuel)%nat ->
    search_state st -> processed st i ->
    let st' := breadth_search md fuel m position st i in
    search_state st' /\ search_extends st st' /\ processed st' (length (snd st')).
Proof.
  induction fuel as [|fuel IH]; intros st i Hi Hw Hst Hp; [lia | ].
  cbn [breadth_search].
  destruct (snd st !! i) as [tetIndex|] eqn:Hl.
  - pose proof (lookup_lt_Some _ _ _ Hl) as Hlt.
    destruct (search_faces_settle (tet m tetIndex) [0; 1; 2; 3]%nat st Hst) as (H1 & H2 & H3).
    destruct (search_faces_weight md position (tet m tetIndex) [0; 1; 2; 3]%nat st) as [W1 W2].
    set (st1 := foldl (search_face md position (tet m tetIndex)) st [0; 1; 2; 3]%nat) in *.
    destruct (IH st1 (S i)) as (J1 & J2 & J3);
      [lia | unfold search_weight in *; lia | exact H1 | | ].
    + intros k t faceIndex Hk Ht Hf.
      destruct H2 as [Hm [queued Hq]].
      destruct (Nat.eq_dec k i) as [->|Hne].
      * rewrite Hq, lookup_app_l, Hl in Ht by exact Hlt. injection Ht as <-. now apply H3.
      * assert (Hki : (k < i)%nat) by lia.
        rewrite Hq, lookup_app_l in Ht by lia.
        eapply face_settled_extends; [split; [exact Hm | now exists queued] | ].
        now apply (Hp k).
    + split; [exact J1 | split; [ | exact J3]].
      eapply search_extends_trans; eassumption.
  - apply lookup_ge_None_1 in Hl. split; [exact Hst | split; [apply search_extends_refl | ]].
    intros k t faceIndex Hk Ht Hf. apply (Hp k); [lia | exact Ht | exact Hf].
Qed.

(** The search as [FindAndRemoveIntersected] starts it, from the first cell
    found. *)
Lemma breadth_search_from_first (first : N) :
  find_first_intersected md m ctx position = Some first ->
  let st := breadth_search md (S (length (removed_ ctx))) m position
                           (set_removed ctx first true, [first]) 0 in
  search_state st /\ processed st (length (snd st)) /\ first ∈ snd st.
Proof.
  intros Hfirst. unfold find_first_intersected in Hfirst.
  apply find_some in Hfirst as [_ Hf].
  apply andb_prop in Hf as [Hlive Hin]. apply negb_true_iff in Hlive.
  destruct (breadth_search_settles (S (length (removed_ ctx)))
              (set_removed ctx first true, [first]) 0) as (H1 & [_ [queued H2]] & H3).
  - cbn. lia.
  - unfold search_weight. cbn [fst snd set_removed removed_ length].
    pose proof (live_count_put _ _ Hlive). pose proof (live_count_le (removed_ ctx)). lia.
  - constructor; cbn [fst snd set_removed removed_ circumspheres_].
    + reflexivity.
    + intros t Ht. apply list_elem_of_singleton in Ht. subst t.
      split; [now apply flag_put_live | exact Hin].
    + now rewrite length_put.
    + intros t Ht. apply list_elem_of_singleton in Ht. subst t. exact Hlive.
    + intros t Ht. rewrite not_elem_of_cons in Ht. destruct Ht as [Hne _].
      unfold is_removed. apply at_put_ne. congruence.
  - intros k t faceIndex Hk. lia.
  - split; [exact H1 | split; [exact H3 | ]].
    cbn [snd] in H2. rewrite H2. apply list_elem_of_here.
Qed.

(** Two vectors of the same length that agree at every index are equal. *)
Lemma vector_eq_at {A : Type} (d : A) (v w : list A) :
  length v = length w -> (forall i : N, at_ d v i = at_ d w i) -> v = w.
Proof.
  intros Hlen Hat. apply list_eq. intros k.
  destruct (Nat.lt_ge_cases k (length v)) as [Hlt|Hge].
  - specialize (Hat (N.of_nat k)).
    rewrite <- (Nat2N.id k) at 1 2.
    rewrite (at_in_range d v), (at_in_range d w) by (rewrite Nat2N.id; lia).
    now rewrite Hat.
  - rewrite !lookup_ge_None_2 by lia. reflexivity.
Qed.

(** "Revert all changes": the loop that clears the flags of the queued
    cells. *)
Lemma revert_flags (queue : list N) :
  forall c : DelaunayContext F,
    let c' := foldl (fun c0 tetIndex => set_removed c0 tetIndex false) c queue in
    length (removed_ c') = length (removed_ c) /\
    (forall tetIndex, tetIndex ∈ queue ->
       (N.to_nat tetIndex < length (removed_ c))%nat -> is_removed c' tetIndex = false) /\
    (forall tetIndex, tetIndex ∉ queue -> is_removed c' tetIndex = is_removed c tetIndex).
Proof.
  induction queue as [|t queue IH]; intros c.
  - cbn. split; [reflexivity | split; [ | reflexivity]]. intros tetIndex H. inversion H.
  - cbn [foldl]. destruct (IH (set_removed c t false)) as (H1 & H2 & H3).
    cbn [set_removed removed_] in H1, H2. rewrite length_put in H1, H2.
    split; [exact H1 | split].
    + intros tetIndex Hin Hlt. destruct (decide (tetIndex ∈ queue)) as [Hq|Hq].
      * now apply H2.
      * rewrite (H3 _ Hq). apply elem_of_cons in Hin as [->|Hin]; [ | contradiction].
        unfold is_removed. cbn [set_removed removed_]. now apply at_put_eq.
    + intros tetIndex Hout. rewrite not_elem_of_cons in Hout. destruct Hout as [Hne Hout].
      rewrite (H3 _ Hout). unfold is_removed. cbn [set_removed removed_].
      apply at_put_ne. congruence.
Qed.

(** After the search, clearing the flags of the queued cells gives back the
    flags the search started from. *)
Lemma revert_flags_restores (st : DelaunayContext F * list N)
    (triangles : list TetrahedralMeshSurfaceTriangle) :
  search_state st ->
  removed_ (foldl (fun c0 tetIndex => set_removed c0 tetIndex false)
                  (set_holeTriangles (fst st) triangles) (snd st))
  = removed_ ctx.
Proof.
  intros [_ _ Hlen Hlive Hun].
  destruct (revert_flags (snd st) (set_holeTriangles (fst st) triangles)) as (H1 & H2 & H3).
  cbn [set_holeTriangles removed_] in H1, H2.
  apply (vector_eq_at true); [congruence | ].
  intros i. destruct (decide (i ∈ snd st)) as [Hq|Hq].
  - pose proof (Hlive _ Hq) as Hl. fold (is_removed ctx i). rewrite Hl. apply H2; [exact Hq | ].
    rewrite Hlen. destruct (Nat.lt_ge_cases (N.to_nat i) (length (removed_ ctx))) as [Hlt|Hge];
      [exact Hlt | ].
    unfold is_removed in Hl. rewrite at_out_of_range in Hl by exact Hge. discriminate Hl.
  - pose proof (H3 _ Hq) as E. unfold is_removed in E at 2. cbn [set_holeTriangles removed_] in E.
    fold (is_removed (fst st) i) in E. rewrite (Hun _ Hq) in E. exact E.
Qed.

End ConflictRegion.

(** ** The empty-circumsphere property *)

Section Delaunay.
Context {F : Type} {SF : Scalar F}.
Variable md : Constants F.

Definition is_corner (tetrahedron : Tetrahedron F) (vertexIndex : N) : bool :=
  existsb (N.eqb vertexIndex) (list4 (indices_ tetrahedron)).

Definition is_excluded (m : TetrahedralMesh F) (vertexIndex : N) : bool :=
  existsb (N.eqb vertexIndex) (ignoredVertices_ m).

(** The vertex is closer to the centre of the circumsphere of the cell than
    the radius less [margin]; the sphere is the one
    [GetTetrahedronCircumsphere] computes for the cell. *)
Definition inside_by (m : TetrahedralMesh F) (tetIndex vertexIndex : N) (margin : F) : bool :=
  let sphere := snd (GetTetrahedronCircumsphere md m tetIndex) in
  (s_sqrt (LengthSquared (vsub (vertex m vertexIndex) (center_ sphere))) + margin
     <? radius_ sphere)%S.

(** The input vertices of a finished mesh: all but the eight of the super
    mesh, which [RemoveSuperMeshVertices] moved to the end. *)
Definition input_vertices (m : TetrahedralMesh F) : list N :=
  map N.of_nat (seq 0 (length (vertices_ m) - N.to_nat NumSuperMeshVertices)).

Definition inner_cells (m : TetrahedralMesh F) : list N :=
  map N.of_nat (seq 0 (N.to_nat (numInnerTetrahedrons_ m))).

(** No inner cell has another input vertex, not excluded, inside its
    circumsphere by more than the epsilon of the construction. *)
Definition circumspheres_empty (m : TetrahedralMesh F) : bool :=
  forallb (fun tetIndex =>
    forallb (fun vertexIndex =>
               is_corner (tet m tetIndex) vertexIndex
               || is_excluded m vertexIndex
               || negb (inside_by m tetIndex vertexIndex (M_LARGE_EPSILON md)))
            (input_vertices m))
    (inner_cells m).

End Delaunay.

(** X17.  What a committed carve establishes for the inserted position: the
    cached circumspheres are unchanged, every cell it removed is flagged and
    has the position in its cached circumsphere ([IsInsideCircumsphere]),
    and every live cell across a face of a removed cell does not.  Cells
    that share no face with a removed cell are not tested. *)
Theorem FindAndRemoveIntersected_conflict_region {F : Type} {SF : Scalar F} (md : Constants F)
    (m : TetrahedralMesh F) (ctx : DelaunayContext F) (position : Vector3 F)
    (dumpErrors : bool) :
  let carve := FindAndRemoveIntersected md m ctx position dumpErrors in
  carve_ok carve = true ->
  circumspheres_ (carve_ctx carve) = circumspheres_ ctx /\
  (forall tetIndex, tetIndex ∈ carve_removedTetrahedrons carve ->
     is_removed (carve_ctx carve) tetIndex = true /\
     IsInsideCircumsphere md ctx tetIndex position = true) /\
  (forall tetIndex faceIndex,
     tetIndex ∈ carve_removedTetrahedrons carve -> (faceIndex < 4)%nat ->
     let neighborTetIndex := get4 (neighbors_ (tet m tetIndex)) faceIndex in
     neighborTetIndex <> M_MAX_UNSIGNED ->
     is_removed (carve_ctx carve) neighborTetIndex = false ->
     IsInsideCircumsphere md ctx neighborTetIndex position = false).
Proof.
  intros carve. subst carve. unfold FindAndRemoveIntersected.
  destruct (find_first_intersected md m ctx position) as [first|] eqn:Hfirst;
    [ | intros H; discriminate H].
  cbv zeta.
  set (st := breadth_search md (S (length (removed_ ctx))) m position
                            (set_removed ctx first true, [first]) 0).
  destruct (negb (fst (verify_hole_triangles md m position
                         (collect_hole_triangles m (fst st) (snd st)))) || dumpErrors);
    [intros H; discriminate H | ].
  destruct (build_hole_surface _ _) as [holeSurface|]; [ | intros H; discriminate H].
  destruct (negb (IsClosedSurface holeSurface)); [intros H; discriminate H | ].
  intros _. cbn [carve_ctx carve_removedTetrahedrons].
  destruct (breadth_search_from_first md m ctx position first Hfirst) as (Hst & Hp & _).
  fold st in Hst, Hp.
  destruct Hst as [Hs Hq _ _ _]. split; [exact Hs | split].
  - intros t Ht. exact (Hq t Ht).
  - intros t faceIndex Ht Hface Hn Hlive'.
    apply list_elem_of_lookup_1 in Ht as [k Hk].
    assert (Hf : faceIndex ∈ [0; 1; 2; 3]%nat).
    { do 4 (destruct faceIndex as [|faceIndex];
            [repeat first [apply list_elem_of_here | apply list_elem_of_further] | ]). lia. }
    destruct (Hp k t faceIndex (lookup_lt_Some _ _ _ Hk) Hk Hf Hn) as [H|H]; [ | exact H].
    unfold is_removed in *. cbn [set_holeTriangles removed_] in Hlive'.
    congruence.
Qed.

Lemma FindAndRemoveIntersected_conflict_region_witness :
  let m := InitializeSuperMesh Mesh_empty (padded_box float_constants [point 0 0 0]) in
  let ctx := fst (initial_context float_constants m) in
  let carve := FindAndRemoveIntersected float_constants m ctx (point 0 0 0) false in
  carve_ok carve = true /\
  forall tetIndex, tetIndex ∈ carve_removedTetrahedrons carve ->
    IsInsideCircumsphere float_constants ctx tetIndex (point 0 0 0) = true.
Proof.
  intros m ctx carve.
  assert (Hok : carve_ok carve = true) by (vm_compute; reflexivity).
  split; [exact Hok | ].
  intros tetIndex Ht.
  exact (proj2 (proj1 (proj2 (FindAndRemoveIntersected_conflict_region float_constants m ctx (point 0 0 0)
                                false Hok)) tetIndex Ht)).
Defined.

(** A position whose coordinates are multiples of 2^-15 (exact in single and
    double precision). *)
Definition fine_point (x y z : Z) : Vector3 float :=
  let unit := s_of_Z 32768 in
  mkVector3 (s_div (s_of_Z x) unit) (s_div (s_of_Z y) unit) (s_div (s_of_Z z) unit).

(** Four corners of a rectangle, the first one lifted out of its plane by
    2^-14, and the point (2, 2, 2), at the same distance from the four. *)
Definition sliver_points : list (Vector3 float) :=
  [ fine_point 0 32768 65538; point 2 2 2; point 2 0 1; point 0 2 1; point 2 1 0 ].

(** C2 (the code departs from the claim).  [Define] on the five points
    inserts every point (empty log, no vertex ignored) and leaves three
    inner cells; the first, with the corners 0, 2, 3 and 4, has vertex 1,
    which is none of its corners and is not excluded, more than two units
    inside its circumsphere: the empty-circumsphere property fails by far
    more than the epsilon of the construction. *)
Lemma C2_sliver_counterexample :
  let r := Define float_constants Mesh_empty sliver_points in
  let m := fst r in
  snd r = [] /\
  ignoredVertices_ m = [] /\
  numInnerTetrahedrons_ m = 3 /\
  list4 (indices_ (tet m 0)) = [0; 2; 3; 4] /\
  is_corner (tet m 0) 1 = false /\
  inside_by float_constants m 0 1 (s_of_Z 2) = true /\
  circumspheres_empty float_constants m = false.
Proof. vm_compute. repeat split; reflexivity. Qed.

(** ** A failed insertion *)

Section Failure.
Context {F : Type} {SF : Scalar F}.





End Failure.


(** Three points less than 2^-7 apart. *)
Definition close_points : list (Vector3 float) :=
  [ fine_point 0 0 0; fine_point 128 0 0; fine_point 0 128 0 ].

(** The state of [BuildTetrahedrons] on the three points after the first two
    are inserted. *)
Definition close_build : Build float :=
  Eval vm_compute in
  let m0 := InitializeSuperMesh Mesh_empty (padded_box float_constants close_points) in
  fst (process_queue float_constants (initial_build float_constants m0 close_points) [8; 9]).

Lemma close_build_eq :
  let m0 := InitializeSuperMesh Mesh_empty (padded_box float_constants close_points) in
  process_queue float_constants (initial_build float_constants m0 close_points) [8; 9]
  = (close_build, []).
Proof. vm_compute. reflexivity. Qed.







(** * Further properties *)

(** ** Stripping the super mesh *)

Lemma usub_ge (i k : N) : k <= i -> i < 4294967296 -> usub i k = i - k.
Proof.
  intros Hk Hi. unfold usub, wrap32.
  replace (i + 4294967296 - k) with (i - k + 1 * 4294967296) by lia.
  rewrite N.Div0.mod_add. apply N.mod_small. lia.
Qed.

Lemma uadd_small (a b : N) : a + b < 4294967296 -> uadd a b = a + b.
Proof. intros H. unfold uadd, wrap32. now apply N.mod_small. Qed.

Section StripVertices.
Context {F : Type} {SF : Scalar F}.

(** The loop over the four corners of a cell in [RemoveSuperMeshVertices]. *)
Definition shift_corners (t : Tetrahedron F) : Tetrahedron F :=
  foldl (fun t' faceIndex =>
           set_index t' faceIndex (usub (get4 (indices_ t') faceIndex) NumSuperMeshVertices))
        t [0; 1; 2; 3]%nat.

Lemma shift_corners_indices (t : Tetrahedron F) (j : nat) :
  get4 (indices_ (shift_corners t)) j = usub (get4 (indices_ t) j) NumSuperMeshVertices.
Proof.
  destruct t as [[i0 i1 i2 i3] n mat].
  destruct j as [|[|[|j]]]; reflexivity.
Qed.

Lemma shift_corners_neighbors (t : Tetrahedron F) :
  neighbors_ (shift_corners t) = neighbors_ t /\ matrix_ (shift_corners t) = matrix_ t.
Proof. destruct t as [[i0 i1 i2 i3] n mat]. split; reflexivity. Qed.

Lemma RemoveSuperMeshVertices_tet (m : TetrahedralMesh F) (tetIndex : N) :
  (N.to_nat tetIndex < length (tetrahedrons_ m))%nat ->
  tet (RemoveSuperMeshVertices m) tetIndex = shift_corners (tet m tetIndex).
Proof.
  intros H. unfold tet, RemoveSuperMeshVertices. cbn [tetrahedrons_ with_debugEdges with_tetrahedrons].
  unfold at_. rewrite list_lookup_fmap.
  destruct (lookup_lt_is_Some_2 (tetrahedrons_ m) _ H) as [t ->]. reflexivity.
Qed.

Lemma rotated_vertex (v : list (Vector3 F)) (i : N) :
  (8 <= length v)%nat -> 8 <= i -> (N.to_nat i < length v)%nat ->
  at_ Vector3_ZERO (drop 8 v ++ take 8 v) (i - 8) = at_ Vector3_ZERO v i.
Proof.
  intros Hn Hi Hlt. unfold at_.
  rewrite lookup_app_l by (rewrite length_drop; lia).
  rewrite lookup_drop. do 2 f_equal. lia.
Qed.

Lemma rotated_super_vertex (v : list (Vector3 F)) (i : N) :
  (8 <= length v)%nat -> i < 8 ->
  at_ Vector3_ZERO (drop 8 v ++ take 8 v) (N.of_nat (length v) - 8 + i) = at_ Vector3_ZERO v i.
Proof.
  intros Hn Hi. unfold at_.
  rewrite lookup_app_r by (rewrite length_drop; lia).
  rewrite length_drop, lookup_take_lt by lia. do 2 f_equal. lia.
Qed.

End StripVertices.

(** X1.  [RemoveSuperMeshVertices] renumbers without moving anything: the
    vertex list keeps its length, a corner of a cell that is not a super-mesh
    vertex still names the same position, the neighbour slots are untouched,
    the eight super-mesh vertices are found at the end of the list, and an
    index of a debug edge is sent to the place its vertex went to. *)
Theorem RemoveSuperMeshVertices_keeps_positions {F : Type} {SF : Scalar F}
    (m : TetrahedralMesh F) :
  (8 <= length (vertices_ m))%nat ->
  size (vertices_ m) < 4294967296 ->
  let m' := RemoveSuperMeshVertices m in
  length (vertices_ m') = length (vertices_ m) /\
  length (tetrahedrons_ m') = length (tetrahedrons_ m) /\
  (forall (tetIndex : N) (j : nat),
     8 <= get4 (indices_ (tet m tetIndex)) j ->
     (N.to_nat (get4 (indices_ (tet m tetIndex)) j) < length (vertices_ m))%nat ->
     vertex m' (get4 (indices_ (tet m' tetIndex)) j)
     = vertex m (get4 (indices_ (tet m tetIndex)) j)) /\
  (forall tetIndex : N, neighbors_ (tet m' tetIndex) = neighbors_ (tet m tetIndex)) /\
  (forall i : N, i < 8 -> vertex m' (size (vertices_ m) - 8 + i) = vertex m i) /\
  (forall index : N,
     (N.to_nat index < length (vertices_ m))%nat ->
     vertex m' (shift_debug_index (size (vertices_ m')) index) = vertex m index).
Proof.
  intros Hn Hsize m'.
  assert (Hlen : length (vertices_ m') = length (vertices_ m)).
  { subst m'. unfold RemoveSuperMeshVertices. cbn [vertices_ with_debugEdges with_tetrahedrons with_vertices].
    change (N.to_nat NumSuperMeshVertices) with 8%nat.
    rewrite length_app, length_drop, length_take. lia. }
  assert (Hv : vertices_ m' = drop 8 (vertices_ m) ++ take 8 (vertices_ m)) by reflexivity.
  unfold size in *.
  split; [exact Hlen | split; [ | split; [ | split; [ | split]]]].
  - subst m'. unfold RemoveSuperMeshVertices.
    cbn [tetrahedrons_ with_debugEdges with_tetrahedrons]. apply length_map.
  - intros tetIndex j H8 Hlt.
    destruct (Nat.lt_ge_cases (N.to_nat tetIndex) (length (tetrahedrons_ m))) as [Hin|Hout].
    + subst m'. rewrite RemoveSuperMeshVertices_tet by exact Hin.
      rewrite shift_corners_indices.
      change NumSuperMeshVertices with 8. rewrite usub_ge by lia.
      unfold vertex. rewrite Hv. now apply rotated_vertex.
    + exfalso. unfold tet in H8. rewrite at_out_of_range in H8 by exact Hout.
      destruct j as [|[|[|j]]]; cbn in H8; lia.
  - intros tetIndex.
    destruct (Nat.lt_ge_cases (N.to_nat tetIndex) (length (tetrahedrons_ m))) as [Hin|Hout].
    + subst m'. rewrite RemoveSuperMeshVertices_tet by exact Hin.
      apply shift_corners_neighbors.
    + unfold tet. rewrite !at_out_of_range; [reflexivity | exact Hout | ].
      subst m'. unfold RemoveSuperMeshVertices.
      cbn [tetrahedrons_ with_debugEdges with_tetrahedrons]. now rewrite length_map.
  - intros i Hi. unfold vertex. rewrite Hv. now apply rotated_super_vertex.
  - intros index Hlt. unfold vertex, shift_debug_index. rewrite Hlen, Hv.
    change NumSuperMeshVertices with 8.
    destruct (index <? 8) eqn:Hlow.
    + apply N.ltb_lt in Hlow. rewrite usub_ge by lia. rewrite uadd_small by lia.
      rewrite N.add_comm. now apply rotated_super_vertex.
    + apply N.ltb_ge in Hlow. rewrite usub_ge by lia. now apply rotated_vertex.
Qed.

Lemma RemoveSuperMeshVertices_keeps_positions_witness :
  let m := with_vertices (InitializeSuperMesh Mesh_empty
                            (padded_box float_constants [point 0 0 0]))
                         (vertices_ (InitializeSuperMesh Mesh_empty
                                       (padded_box float_constants [point 0 0 0]))
                          ++ [point 0 0 0]) in
  vertex (RemoveSuperMeshVertices m) 0 = point 0 0 0.
Proof.
  intros m.
  assert (H8 : (8 <= length (vertices_ m))%nat) by (vm_compute; lia).
  assert (Hsize : size (vertices_ m) < 4294967296) by (vm_compute; reflexivity).
  pose proof (proj2 (proj2 (proj2 (proj2 (proj2
                (RemoveSuperMeshVertices_keeps_positions m H8 Hsize))))) 8
                ltac:(vm_compute; lia)) as H.
  exact H.
Defined.

Section IgnoredVertices.
Context {F : Type} {SF : Scalar F}.

(** The marks after the corners of one cell are cleared. *)
Lemma clear_marks (corners : list N) :
  forall (ignored : list bool) (v : N),
    (N.to_nat v < length ignored)%nat ->
    let ignored' := foldl (fun ig corner => put ig corner false) ignored corners in
    length ignored' = length ignored /\
    (at_ true ignored' v = true <-> at_ true ignored v = true /\ v ∉ corners).
Proof.
  induction corners as [|c corners IH]; intros ignored v Hv.
  - cbn. split; [reflexivity | ]. split; [intros H; split; [exact H | apply not_elem_of_nil] | tauto].
  - cbn [foldl]. destruct (IH (put ignored c false) v) as [H1 H2]; [now rewrite length_put | ].
    rewrite length_put in H1. split; [exact H1 | ].
    rewrite H2, not_elem_of_cons. destruct (N.eq_dec c v) as [->|Hne].
    + rewrite at_put_eq by exact Hv. split; [intros [H _]; discriminate H | intros [_ [H _]]; now destruct H].
    + rewrite at_put_ne by exact Hne. split; [intros [H3 H4]; repeat split; auto | tauto].
Qed.

Lemma clear_marks_cells (tets : list (Tetrahedron F)) :
  forall (ignored : list bool) (v : N),
    (N.to_nat v < length ignored)%nat ->
    let ignored' :=
      foldl (fun ig t => foldl (fun ig' faceIndex => put ig' (get4 (indices_ t) faceIndex) false)
                               ig [0; 1; 2; 3]%nat)
            ignored tets in
    length ignored' = length ignored /\
    (at_ true ignored' v = true <->
     at_ true ignored v = true /\ forall t, t ∈ tets -> v ∉ list4 (indices_ t)).
Proof.
  intros ignored v Hv.
  set (step := fun (ig : list bool) (t : Tetrahedron F) =>
                 foldl (fun ig' faceIndex => put ig' (get4 (indices_ t) faceIndex) false)
                       ig [0; 1; 2; 3]%nat).
  revert ignored Hv. induction tets as [|t tets IH]; intros ignored Hv.
  - cbn. split; [reflexivity | ]. split; [ | tauto].
    intros H. split; [exact H | ]. intros t Ht. inversion Ht.
  - cbn [foldl].
    assert (Hstep : step ignored t
                    = foldl (fun ig corner => put ig corner false) ignored (list4 (indices_ t)))
      by reflexivity.
    pose proof (clear_marks (list4 (indices_ t)) ignored v Hv) as [L1 L2].
    rewrite <- Hstep in L1, L2.
    destruct (IH (step ignored t)) as [H1 H2]; [now rewrite L1 | ].
    split; [now rewrite H1, L1 | ].
    rewrite H2, L2. split.
    + intros [[H3 H4] H5]. split; [exact H3 | ]. intros t' Ht'.
      apply elem_of_cons in Ht' as [->|Ht']; [exact H4 | now apply H5].
    + intros [H3 H4]. split; [split; [exact H3 | ] | ].
      * apply H4, list_elem_of_here.
      * intros t' Ht'. apply H4. now apply list_elem_of_further.
Qed.

End IgnoredVertices.

Lemma UpdateIgnoredVertices_elem {F : Type} {SF : Scalar F} (m : TetrahedralMesh F) (v : N) :
  (8 <= length (vertices_ m))%nat ->
  v ∈ ignoredVertices_ (UpdateIgnoredVertices m) <->
  (N.to_nat v < length (vertices_ m) - 8)%nat /\
  forall t, t ∈ tetrahedrons_ m -> v ∉ list4 (indices_ t).
Proof.
  intros Hn. unfold UpdateIgnoredVertices. cbn [ignoredVertices_ with_ignoredVertices].
  rewrite list_elem_of_filter, list_elem_of_fmap.
  change (N.to_nat NumSuperMeshVertices) with 8%nat.
  split.
  - intros [Hmark (k & -> & Hk)]. apply elem_of_seq in Hk. rewrite Nat2N.id.
    split; [lia | ].
    apply (clear_marks_cells (tetrahedrons_ m) (replicate (length (vertices_ m)) true));
      [rewrite length_replicate, Nat2N.id; lia | exact Hmark].
  - intros [Hlt Hunused]. split.
    + apply (clear_marks_cells (tetrahedrons_ m) (replicate (length (vertices_ m)) true));
        [rewrite length_replicate; lia | ].
      split; [ | exact Hunused].
      unfold at_. rewrite lookup_replicate_2 by lia. reflexivity.
    + exists (N.to_nat v). split; [now rewrite N2Nat.id | apply elem_of_seq; lia].
Qed.



(** ** Disconnecting cells *)

Lemma get4_set4_cases {A : Type} (a : Arr4 A) (i j : nat) (x : A) :
  get4 (set4 a i x) j = get4 a j \/ get4 (set4 a i x) j = x.
Proof.
  destruct a as [a0 a1 a2 a3].
  destruct i as [|[|[|[|i]]]]; destruct j as [|[|[|[|j]]]]; cbn; auto.
Qed.

Section Unlinking.
Context {F : Type} {SF : Scalar F}.

(** The second vector of cells comes from the first by overwriting neighbour
    slots with the sentinel: same length, same corners and matrices, and
    every neighbour slot holds what it held or the sentinel. *)
Definition only_unlinked (tets tets' : list (Tetrahedron F)) : Prop :=
  length tets' = length tets /\
  forall k : N,
    indices_ (at_ Tetrahedron_default tets' k) = indices_ (at_ Tetrahedron_default tets k) /\
    matrix_ (at_ Tetrahedron_default tets' k) = matrix_ (at_ Tetrahedron_default tets k) /\
    forall j : nat,
      get4 (neighbors_ (at_ Tetrahedron_default tets' k)) j
      = get4 (neighbors_ (at_ Tetrahedron_default tets k)) j \/
      get4 (neighbors_ (at_ Tetrahedron_default tets' k)) j = M_MAX_UNSIGNED.

Lemma only_unlinked_refl (tets : list (Tetrahedron F)) : only_unlinked tets tets.
Proof. split; [reflexivity | ]. intros k. repeat split. intros j. now left. Qed.

Lemma only_unlinked_trans (t1 t2 t3 : list (Tetrahedron F)) :
  only_unlinked t1 t2 -> only_unlinked t2 t3 -> only_unlinked t1 t3.
Proof.
  intros [L1 H1] [L2 H2]. split; [congruence | ]. intros k.
  destruct (H1 k) as (A1 & B1 & C1). destruct (H2 k) as (A2 & B2 & C2).
  split; [congruence | split; [congruence | ]]. intros j.
  destruct (C2 j) as [E|E]; [ | now right]. rewrite E. apply C1.
Qed.

(** [tetrahedrons_[k].neighbors_[j] = M_MAX_UNSIGNED]. *)
Lemma unlink_slot (tets : list (Tetrahedron F)) (k : N) (j : nat) :
  only_unlinked tets
    (put tets k (set_neighbor (at_ Tetrahedron_default tets k) j M_MAX_UNSIGNED)).
Proof.
  split; [apply length_put | ]. intros i.
  destruct (N.eq_dec k i) as [->|Hne].
  - destruct (Nat.lt_ge_cases (N.to_nat i) (length tets)) as [Hlt|Hge].
    + rewrite at_put_eq by exact Hlt. repeat split. intros j'.
      cbn [set_neighbor set_neighbors neighbors_]. apply get4_set4_cases.
    + rewrite put_out_of_range by exact Hge. repeat split. intros j'. now left.
  - rewrite at_put_ne by exact Hne. repeat split. intros j'. now left.
Qed.

Lemma foldl_only_unlinked {A : Type} (step : list (Tetrahedron F) -> A -> list (Tetrahedron F))
    (l : list A) :
  (forall tets a, only_unlinked tets (step tets a)) ->
  forall tets, only_unlinked tets (foldl step tets l).
Proof.
  intros Hstep. induction l as [|a l IH]; intros tets; [apply only_unlinked_refl | ].
  cbn [foldl]. eapply only_unlinked_trans; [apply Hstep | apply IH].
Qed.

Lemma disconnect_face_unlinked (tetIndex : N) (tets : list (Tetrahedron F)) (faceIndex : nat) :
  only_unlinked tets (disconnect_face tetIndex tets faceIndex).
Proof.
  unfold disconnect_face.
  destruct (negb (get4 (neighbors_ (at_ Tetrahedron_default tets tetIndex)) faceIndex
                  =? M_MAX_UNSIGNED)); [ | apply only_unlinked_refl].
  eapply only_unlinked_trans; apply unlink_slot.
Qed.

(** After face [faceIndex] of a cell is handled, its slot holds the
    sentinel. *)
Lemma disconnect_face_clears (tetIndex : N) (tets : list (Tetrahedron F)) (faceIndex : nat) :
  (N.to_nat tetIndex < length tets)%nat -> (faceIndex < 4)%nat ->
  get4 (neighbors_ (at_ Tetrahedron_default (disconnect_face tetIndex tets faceIndex) tetIndex))
       faceIndex = M_MAX_UNSIGNED.
Proof.
  intros Hlt Hf. unfold disconnect_face.
  destruct (get4 (neighbors_ (at_ Tetrahedron_default tets tetIndex)) faceIndex
            =? M_MAX_UNSIGNED) eqn:Hmax; cbn [negb].
  { now apply N.eqb_eq in Hmax. }
  set (tets1 := put tets tetIndex
                    (set_neighbor (at_ Tetrahedron_default tets tetIndex) faceIndex
                                  M_MAX_UNSIGNED)).
  assert (H1 : get4 (neighbors_ (at_ Tetrahedron_default tets1 tetIndex)) faceIndex
               = M_MAX_UNSIGNED).
  { subst tets1. rewrite at_put_eq by exact Hlt.
    cbn [set_neighbor set_neighbors neighbors_].
    destruct (neighbors_ (at_ Tetrahedron_default tets tetIndex)) as [a0 a1 a2 a3].
    destruct faceIndex as [|[|[|[|j]]]]; [reflexivity.. | lia]. }
  match goal with
  | |- context [put tets1 ?k (set_neighbor _ ?j _)] =>
    destruct (unlink_slot tets1 k j) as [_ H2]
  end.
  destruct (H2 tetIndex) as (_ & _ & H3). destruct (H3 faceIndex) as [E|E]; [ | exact E].
  now rewrite E.
Qed.

(** The four faces of one cell: all its slots end on the sentinel. *)
Lemma disconnect_cell_clears (tetIndex : N) (tets : list (Tetrahedron F)) :
  (N.to_nat tetIndex < length tets)%nat ->
  let tets' := foldl (disconnect_face tetIndex) tets [0; 1; 2; 3]%nat in
  only_unlinked tets tets' /\
  forall j : nat,
    get4 (neighbors_ (at_ Tetrahedron_default tets' tetIndex)) j = M_MAX_UNSIGNED.
Proof.
  intros Hlt tets'.
  split; [apply foldl_only_unlinked; intros; apply disconnect_face_unlinked | ].
  subst tets'. cbn [foldl].
  set (t0 := disconnect_face tetIndex tets 0).
  set (t1 := disconnect_face tetIndex t0 1).
  set (t2 := disconnect_face tetIndex t1 2).
  set (t3 := disconnect_face tetIndex t2 3).
  pose proof (disconnect_face_unlinked tetIndex tets 0%nat) as U0. fold t0 in U0.
  pose proof (disconnect_face_unlinked tetIndex t0 1%nat) as U1. fold t1 in U1.
  pose proof (disconnect_face_unlinked tetIndex t1 2%nat) as U2. fold t2 in U2.
  pose proof (disconnect_face_unlinked tetIndex t2 3%nat) as U3. fold t3 in U3.
  assert (L0 : (N.to_nat tetIndex < length t0)%nat) by (destruct U0 as [-> _]; exact Hlt).
  assert (L1 : (N.to_nat tetIndex < length t1)%nat) by (destruct U1 as [-> _]; exact L0).
  assert (L2 : (N.to_nat tetIndex < length t2)%nat) by (destruct U2 as [-> _]; exact L1).
  pose proof (disconnect_face_clears tetIndex tets 0%nat Hlt ltac:(lia)) as C0. fold t0 in C0.
  pose proof (disconnect_face_clears tetIndex t0 1%nat L0 ltac:(lia)) as C1. fold t1 in C1.
  pose proof (disconnect_face_clears tetIndex t1 2%nat L1 ltac:(lia)) as C2. fold t2 in C2.
  pose proof (disconnect_face_clears tetIndex t2 3%nat L2 ltac:(lia)) as C3. fold t3 in C3.
  assert (keep : forall (a b : list (Tetrahedron F)) (j : nat),
             only_unlinked a b ->
             get4 (neighbors_ (at_ Tetrahedron_default a tetIndex)) j = M_MAX_UNSIGNED ->
             get4 (neighbors_ (at_ Tetrahedron_default b tetIndex)) j = M_MAX_UNSIGNED).
  { intros a b j [_ H] E. destruct (H tetIndex) as (_ & _ & H'). destruct (H' j) as [E'|E'];
      [now rewrite E' | exact E']. }
  intros j. destruct j as [|[|[|j]]].
  - apply (keep t2 t3 0%nat U3), (keep t1 t2 0%nat U2), (keep t0 t1 0%nat U1), C0.
  - apply (keep t2 t3 1%nat U3), (keep t1 t2 1%nat U2), C1.
  - apply (keep t2 t3 2%nat U3), C2.
  - exact C3.
Qed.

Lemma disconnect_cells (removedTetrahedrons : list N) :
  forall tets : list (Tetrahedron F),
    let tets' := foldl (fun ts tetIndex => foldl (disconnect_face tetIndex) ts [0; 1; 2; 3]%nat)
                       tets removedTetrahedrons in
    only_unlinked tets tets' /\
    forall tetIndex (j : nat),
      tetIndex ∈ removedTetrahedrons -> (N.to_nat tetIndex < length tets)%nat ->
      get4 (neighbors_ (at_ Tetrahedron_default tets' tetIndex)) j = M_MAX_UNSIGNED.
Proof.
  induction removedTetrahedrons as [|t l IH]; intros tets.
  - cbn. split; [apply only_unlinked_refl | ]. intros tetIndex j H. inversion H.
  - cbn [foldl].
    set (tets1 := foldl (disconnect_face t) tets [0; 1; 2; 3]%nat).
    assert (U1 : only_unlinked tets tets1)
      by (apply foldl_only_unlinked; intros; apply disconnect_face_unlinked).
    destruct (IH tets1) as [U2 H2]. split; [eapply only_unlinked_trans; eassumption | ].
    intros tetIndex j Hin Hlt.
    destruct (decide (tetIndex ∈ l)) as [Hl|Hl].
    + apply H2; [exact Hl | ]. destruct U1 as [-> _]. exact Hlt.
    + apply elem_of_cons in Hin as [->|Hin]; [ | contradiction].
      destruct (disconnect_cell_clears t tets Hlt) as [_ C]. fold tets1 in C.
      destruct U2 as [_ U2]. destruct (U2 t) as (_ & _ & U2').
      destruct (U2' j) as [E|E]; [exact (eq_trans E (C j)) | exact E].
Qed.

End Unlinking.

(** ** Where the writes of the unlinking loops land *)

(** A loop whose body can fail: the first failure ends it. *)
Definition foldl_checked {A B : Type} (step : A -> B -> option A) (a : A) (l : list B)
  : option A :=
  foldl (fun acc x => match acc with Some a' => step a' x | None => None end) (Some a) l.

(** A checked loop whose steps succeed along the way computes what the
    unchecked loop computes, and keeps an invariant of the steps. *)
Lemma foldl_checked_Some {A B : Type} (P : A -> Prop) (step : A -> B -> A)
    (checked : A -> B -> option A) (l : list B) :
  (forall a x, P a -> x ∈ l -> checked a x = Some (step a x) /\ P (step a x)) ->
  forall a, P a -> foldl_checked checked a l = Some (foldl step a l) /\ P (foldl step a l).
Proof.
  unfold foldl_checked. induction l as [|x l IH]; intros Hstep a Ha.
  - split; [reflexivity | exact Ha].
  - cbn [foldl]. destruct (Hstep a x Ha (list_elem_of_here _ _)) as [-> Hx].
    apply IH; [ | exact Hx].
    intros a' x' Ha' Hin. apply Hstep; [exact Ha' | now apply list_elem_of_further].
Qed.

Section Bounds.
Context {F : Type} {SF : Scalar F}.

(** [tetrahedrons_[k].neighbors_[j]]. *)
Definition slot (tets : list (Tetrahedron F)) (k : N) (j : nat) : N :=
  get4 (neighbors_ (at_ Tetrahedron_default tets k)) j.

(** The body of the loop of [DisconnectRemovedTetrahedrons] over the faces of
    a removed cell, with every subscript checked: [None] when the source
    would index outside an array, that is, when the removed cell or the
    neighbour is no cell of the mesh, or when the neighbour does not name the
    cell back, so that [GetNeighborFaceIndex] returns 4 and the write goes
    to [neighbors_[4]]. *)
Definition disconnect_face_checked (tetIndex : N) (tets : list (Tetrahedron F))
    (faceIndex : nat) : option (list (Tetrahedron F)) :=
  if tetIndex <? size tets then
    let neighborTetIndex := slot tets tetIndex faceIndex in
    if negb (neighborTetIndex =? M_MAX_UNSIGNED) then
      if (neighborTetIndex <? size tets)
         && (GetNeighborFaceIndex (at_ Tetrahedron_default tets neighborTetIndex) tetIndex <? 4)%nat
      then Some (disconnect_face tetIndex tets faceIndex)
      else None
    else Some tets
  else None.

Definition DisconnectRemovedTetrahedrons_checked (m : TetrahedralMesh F)
    (removedTetrahedrons : list N) : option (TetrahedralMesh F) :=
  match foldl_checked
          (fun tets tetIndex =>
             foldl_checked (disconnect_face_checked tetIndex) tets [0; 1; 2; 3]%nat)
          (tetrahedrons_ m) removedTetrahedrons with
  | Some tets => Some (with_tetrahedrons m tets)
  | None => None
  end.

(** No cell names the same neighbour in two of its slots. *)
Definition names_once (t : Tetrahedron F) : bool :=
  forallb (fun j =>
    forallb (fun j' =>
               (j =? j')%nat
               || (get4 (neighbors_ t) j =? M_MAX_UNSIGNED)
               || negb (get4 (neighbors_ t) j =? get4 (neighbors_ t) j'))
            [0; 1; 2; 3]%nat)
    [0; 1; 2; 3]%nat.

Definition no_double_links (m : TetrahedralMesh F) : bool :=
  forallb names_once (tetrahedrons_ m).

(** The links of the cells are reciprocal: a neighbour named by a cell is a
    cell, names the cell back, and is named by the cell only once. *)
Definition linked_back (tets : list (Tetrahedron F)) : Prop :=
  forall (k : N) (j : nat),
    (N.to_nat k < length tets)%nat -> (j < 4)%nat ->
    slot tets k j <> M_MAX_UNSIGNED ->
    (N.to_nat (slot tets k j) < length tets)%nat /\
    (GetNeighborFaceIndex (at_ Tetrahedron_default tets (slot tets k j)) k < 4)%nat /\
    forall j' : nat, (j' < 4)%nat -> slot tets k j' = slot tets k j -> j' = j.

Lemma GetNeighborFaceIndex_le (t : Tetrahedron F) (k : N) :
  (GetNeighborFaceIndex t k <= 4)%nat.
Proof.
  unfold GetNeighborFaceIndex.
  repeat match goal with |- context [if ?c then _ else _] => destruct c end; lia.
Qed.

Lemma GetNeighborFaceIndex_names (t : Tetrahedron F) (k : N) :
  (GetNeighborFaceIndex t k < 4)%nat ->
  get4 (neighbors_ t) (GetNeighborFaceIndex t k) = k.
Proof.
  unfold GetNeighborFaceIndex.
  destruct (e40 (neighbors_ t) =? k) eqn:E0; [intros _; now apply N.eqb_eq in E0 | ].
  destruct (e41 (neighbors_ t) =? k) eqn:E1; [intros _; now apply N.eqb_eq in E1 | ].
  destruct (e42 (neighbors_ t) =? k) eqn:E2; [intros _; now apply N.eqb_eq in E2 | ].
  destruct (e43 (neighbors_ t) =? k) eqn:E3; [intros _; now apply N.eqb_eq in E3 | ].
  lia.
Qed.

Lemma GetNeighborFaceIndex_found (t : Tetrahedron F) (k : N) (g : nat) :
  (g < 4)%nat -> get4 (neighbors_ t) g = k -> (GetNeighborFaceIndex t k < 4)%nat.
Proof.
  intros Hg E. unfold GetNeighborFaceIndex.
  destruct (e40 (neighbors_ t) =? k) eqn:E0; [lia | ].
  destruct (e41 (neighbors_ t) =? k) eqn:E1; [lia | ].
  destruct (e42 (neighbors_ t) =? k) eqn:E2; [lia | ].
  destruct (e43 (neighbors_ t) =? k) eqn:E3; [lia | ].
  apply N.eqb_neq in E0, E1, E2, E3.
  destruct g as [|[|[|[|g]]]]; cbn in E; try contradiction; lia.
Qed.

Lemma HasNeighbor_found (t : Tetrahedron F) (k : N) :
  HasNeighbor t k = true <-> (GetNeighborFaceIndex t k < 4)%nat.
Proof. unfold HasNeighbor. apply Nat.ltb_lt. Qed.

(** One neighbour slot overwritten with the sentinel. *)
Lemma slot_unlink (tets : list (Tetrahedron F)) (k : N) (g : nat) (x : N) (i : nat) :
  (N.to_nat k < length tets)%nat -> (g < 4)%nat -> (i < 4)%nat ->
  slot (put tets k (set_neighbor (at_ Tetrahedron_default tets k) g M_MAX_UNSIGNED)) x i
  = if decide (x = k /\ i = g) then M_MAX_UNSIGNED else slot tets x i.
Proof.
  intros Hk Hg Hi. unfold slot.
  destruct (N.eq_dec k x) as [<-|Hne].
  - rewrite at_put_eq by exact Hk. cbn [set_neighbor set_neighbors neighbors_].
    destruct (Nat.eq_dec g i) as [<-|Hgi].
    + rewrite get4_set4_eq by exact Hg. now rewrite decide_True.
    + rewrite get4_set4_ne by assumption. rewrite decide_False; [reflexivity | ].
      intros [_ E]. congruence.
  - rewrite at_put_ne by exact Hne. rewrite decide_False; [reflexivity | ].
    intros [E _]. congruence.
Qed.

(** What one face of [DisconnectRemovedTetrahedrons] does to the neighbour
    slots when the neighbour names the cell back. *)
Lemma disconnect_face_slots (t : N) (tets : list (Tetrahedron F)) (j : nat) :
  (N.to_nat t < length tets)%nat -> (j < 4)%nat ->
  slot tets t j <> M_MAX_UNSIGNED ->
  (N.to_nat (slot tets t j) < length tets)%nat ->
  (GetNeighborFaceIndex (at_ Tetrahedron_default tets (slot tets t j)) t < 4)%nat ->
  forall (x : N) (i : nat), (i < 4)%nat ->
    slot (disconnect_face t tets j) x i
    = if decide ((x = t /\ i = j) \/
                 (x = slot tets t j /\
                  i = GetNeighborFaceIndex (at_ Tetrahedron_default tets (slot tets t j)) t))
      then M_MAX_UNSIGNED else slot tets x i.
Proof.
  intros Ht Hj Hn Hnr Hg x i Hi. unfold disconnect_face. fold (slot tets t j).
  apply N.eqb_neq in Hn. rewrite Hn. cbn [negb].
  set (n := slot tets t j) in *.
  set (g := GetNeighborFaceIndex (at_ Tetrahedron_default tets n) t) in *.
  set (tets1 := put tets t (set_neighbor (at_ Tetrahedron_default tets t) j M_MAX_UNSIGNED)).
  assert (L1 : length tets1 = length tets) by apply length_put.
  rewrite slot_unlink by (rewrite ?L1; assumption).
  subst tets1. rewrite slot_unlink by assumption.
  destruct (decide (x = n /\ i = g)) as [H|H].
  - rewrite decide_True by (now right). reflexivity.
  - destruct (decide (x = t /\ i = j)) as [H'|H'].
    + rewrite decide_True by (now left). reflexivity.
    + rewrite decide_False by tauto. reflexivity.
Qed.

Lemma disconnect_face_length (t : N) (tets : list (Tetrahedron F)) (j : nat) :
  length (disconnect_face t tets j) = length tets.
Proof. apply disconnect_face_unlinked. Qed.

(** One face keeps the links reciprocal. *)
Lemma disconnect_face_linked_back (t : N) (tets : list (Tetrahedron F)) (j : nat) :
  size tets < 4294967296 ->
  linked_back tets -> (N.to_nat t < length tets)%nat -> (j < 4)%nat ->
  linked_back (disconnect_face t tets j).
Proof.
  intros Hsize H Ht Hj.
  destruct (N.eq_dec (slot tets t j) M_MAX_UNSIGNED) as [Hmax|Hn].
  { unfold disconnect_face. fold (slot tets t j). rewrite Hmax. exact H. }
  destruct (H t j Ht Hj Hn) as (Hnr & Hg & Hu).
  pose proof (disconnect_face_slots t tets j Ht Hj Hn Hnr Hg) as S.
  set (n := slot tets t j) in *.
  set (g := GetNeighborFaceIndex (at_ Tetrahedron_default tets n) t) in *.
  assert (Hng : slot tets n g = t) by (apply GetNeighborFaceIndex_names; exact Hg).
  assert (Htmax : t <> M_MAX_UNSIGNED) by (unfold M_MAX_UNSIGNED, size in *; lia).
  set (tets' := disconnect_face t tets j) in *.
  assert (L : length tets' = length tets) by apply disconnect_face_length.
  intros k i Hk Hi Hne. rewrite L in Hk.
  assert (Hold : slot tets' k i = slot tets k i /\
                 ~ ((k = t /\ i = j) \/ (k = n /\ i = g))).
  { rewrite S in Hne |- * by exact Hi.
    destruct (decide ((k = t /\ i = j) \/ (k = n /\ i = g))) as [D|D];
      [contradiction | split; [reflexivity | exact D]]. }
  destruct Hold as [E Hnot]. rewrite E in Hne |- *.
  destruct (H k i Hk Hi Hne) as (Hr' & Hg' & Hu').
  set (n' := slot tets k i) in *.
  set (g' := GetNeighborFaceIndex (at_ Tetrahedron_default tets n') k) in *.
  assert (Hng' : slot tets n' g' = k) by (apply GetNeighborFaceIndex_names; exact Hg').
  split; [rewrite L; exact Hr' | split].
  - apply (GetNeighborFaceIndex_found _ _ g' Hg'). fold (slot tets' n' g').
    rewrite S by exact Hg'.
    rewrite decide_False; [exact Hng' | ].
    intros [[E1 E2]|[E1 E2]].
    + (* the back link of [k] is the slot being cleared in [t] *)
      apply Hnot. right. rewrite E1, E2 in Hng'. fold n in Hng'. subst k.
      split; [reflexivity | ].
      assert (Hntmax : slot tets n g <> M_MAX_UNSIGNED) by (rewrite Hng; exact Htmax).
      destruct (H n g Hnr Hg Hntmax) as (_ & _ & Hun).
      apply Hun; [exact Hi | ]. fold n'. rewrite E1. now rewrite Hng.
    + (* the back link of [k] is the slot being cleared in [n] *)
      apply Hnot. left. rewrite E1, E2 in Hng'. rewrite Hng in Hng'. subst k.
      split; [reflexivity | ]. apply Hu; [exact Hi | ]. fold n'. exact E1.
  - intros j' Hj' Ej'. apply Hu'; [exact Hj' | ].
    rewrite S in Ej' by exact Hj'.
    destruct (decide ((k = t /\ j' = j) \/ (k = n /\ j' = g))) as [D|D];
      [ | exact Ej'].
    symmetry in Ej'. contradiction.
Qed.

(** One face: the checked body succeeds on reciprocal links. *)
Lemma disconnect_face_in_bounds (t : N) (tets : list (Tetrahedron F)) (j : nat) :
  linked_back tets -> (N.to_nat t < length tets)%nat -> (j < 4)%nat ->
  disconnect_face_checked t tets j = Some (disconnect_face t tets j).
Proof.
  intros H Ht Hj. unfold disconnect_face_checked.
  assert (E : (t <? size tets) = true) by (apply N.ltb_lt; unfold size; lia).
  rewrite E.
  destruct (N.eq_dec (slot tets t j) M_MAX_UNSIGNED) as [Hmax|Hn].
  - rewrite Hmax. cbn. unfold disconnect_face. fold (slot tets t j). now rewrite Hmax.
  - destruct (H t j Ht Hj Hn) as (Hnr & Hg & _).
    apply N.eqb_neq in Hn. rewrite Hn. cbn [negb].
    assert (E1 : (slot tets t j <? size tets) = true) by (apply N.ltb_lt; unfold size; lia).
    apply Nat.ltb_lt in Hg. now rewrite E1, Hg.
Qed.

Definition well_linked (n : nat) (tets : list (Tetrahedron F)) : Prop :=
  length tets = n /\ linked_back tets.

Lemma disconnect_cell_in_bounds (n : nat) (t : N) (tets : list (Tetrahedron F)) :
  N.of_nat n < 4294967296 -> (N.to_nat t < n)%nat -> well_linked n tets ->
  foldl_checked (disconnect_face_checked t) tets [0; 1; 2; 3]%nat
  = Some (foldl (disconnect_face t) tets [0; 1; 2; 3]%nat) /\
  well_linked n (foldl (disconnect_face t) tets [0; 1; 2; 3]%nat).
Proof.
  intros Hn Ht. apply (foldl_checked_Some (well_linked n)).
  intros a j [La Ha] Hj.
  assert (Hj4 : (j < 4)%nat).
  { repeat (apply elem_of_cons in Hj as [->|Hj]; [lia | ]). inversion Hj. }
  split; [apply disconnect_face_in_bounds; [exact Ha | lia | exact Hj4] | ].
  split; [rewrite disconnect_face_length; exact La | ].
  apply disconnect_face_linked_back; [unfold size; now rewrite La | exact Ha | lia | exact Hj4].
Qed.

Lemma disconnect_cells_in_bounds (n : nat) (l : list N) (tets : list (Tetrahedron F)) :
  N.of_nat n < 4294967296 -> (forall t, t ∈ l -> (N.to_nat t < n)%nat) -> well_linked n tets ->
  let step := fun ts tetIndex => foldl (disconnect_face tetIndex) ts [0; 1; 2; 3]%nat in
  foldl_checked
    (fun ts tetIndex => foldl_checked (disconnect_face_checked tetIndex) ts [0; 1; 2; 3]%nat)
    tets l
  = Some (foldl step tets l) /\
  well_linked n (foldl step tets l).
Proof.
  intros Hn Hl Hw step. apply (foldl_checked_Some (well_linked n)); [ | exact Hw].
  intros a t Ha Ht. apply disconnect_cell_in_bounds; [exact Hn | now apply Hl | exact Ha].
Qed.

Lemma names_once_spec (t : Tetrahedron F) :
  names_once t = true <->
  forall j j' : nat, (j < 4)%nat -> (j' < 4)%nat ->
    get4 (neighbors_ t) j <> M_MAX_UNSIGNED ->
    get4 (neighbors_ t) j' = get4 (neighbors_ t) j -> j' = j.
Proof.
  unfold names_once. rewrite forallb_forall. split.
  - intros H j j' Hj Hj' Hne E.
    assert (Hin : forall i, (i < 4)%nat -> In i [0; 1; 2; 3]%nat).
    { intros i Hi. do 4 (destruct i as [|i]; [cbn; tauto | ]). lia. }
    specialize (H j (Hin j Hj)). rewrite forallb_forall in H.
    specialize (H j' (Hin j' Hj')).
    apply orb_true_iff in H as [H|H]; [apply orb_true_iff in H as [H|H] | ].
    + apply Nat.eqb_eq in H. congruence.
    + apply N.eqb_eq in H. contradiction.
    + apply negb_true_iff, N.eqb_neq in H. congruence.
  - intros H j Hj. rewrite forallb_forall. intros j' Hj'.
    assert (Hlt : forall i, In i [0; 1; 2; 3]%nat -> (i < 4)%nat).
    { intros i Hi. cbn in Hi. lia. }
    destruct (Nat.eqb j j') eqn:Ejj; [reflexivity | ]. cbn [orb].
    destruct (get4 (neighbors_ t) j =? M_MAX_UNSIGNED) eqn:Emax; [reflexivity | ]. cbn [orb].
    apply negb_true_iff, N.eqb_neq. intros E.
    apply Nat.eqb_neq in Ejj. apply N.eqb_neq in Emax. apply Ejj. symmetry.
    apply H; [apply Hlt, Hj | apply Hlt, Hj' | exact Emax | congruence].
Qed.

(** The links are reciprocal exactly when the mesh passes the check of the
    source and no cell names a neighbour twice. *)
Lemma linked_back_checks (m : TetrahedralMesh F) :
  size (tetrahedrons_ m) < 4294967296 ->
  linked_back (tetrahedrons_ m) <->
  IsAdjacencyValid m false = true /\ no_double_links m = true.
Proof.
  intros Hsize.
  assert (Hin : forall i, (i < 4)%nat <-> In i [0; 1; 2; 3]%nat).
  { intros i. split; [ | cbn; lia].
    intros Hi. do 4 (destruct i as [|i]; [cbn; tauto | ]). lia. }
  unfold IsAdjacencyValid, no_double_links. rewrite !forallb_forall. split.
  - intros H. split.
    + intros k Hk. apply list_elem_of_In, elem_of_indices_of in Hk.
      rewrite forallb_forall. intros j Hj. apply Hin in Hj. cbv zeta.
      change (get4 (neighbors_ (tet m k)) j) with (slot (tetrahedrons_ m) k j).
      destruct (slot (tetrahedrons_ m) k j =? M_MAX_UNSIGNED) eqn:E; [reflexivity | ].
      cbn [negb]. apply N.eqb_neq in E.
      destruct (H k j Hk Hj E) as (_ & Hg & _). now apply HasNeighbor_found.
    + intros t Ht. apply list_elem_of_In, list_elem_of_lookup_1 in Ht as [i Hi].
      rewrite names_once_spec. intros j j' Hj Hj' Hne E.
      pose proof (lookup_lt_Some _ _ _ Hi) as Hlt.
      assert (Et : at_ Tetrahedron_default (tetrahedrons_ m) (N.of_nat i) = t).
      { unfold at_. now rewrite Nat2N.id, Hi. }
      assert (Hk : (N.to_nat (N.of_nat i) < length (tetrahedrons_ m))%nat) by lia.
      unfold linked_back, slot in H. specialize (H (N.of_nat i) j Hk Hj).
      rewrite Et in H. destruct (H Hne) as (_ & _ & Hu). now apply Hu.
  - intros [Hv Hd] k j Hk Hj Hne.
    assert (Hkmax : k <> M_MAX_UNSIGNED) by (unfold M_MAX_UNSIGNED, size in *; lia).
    specialize (Hv k). rewrite forallb_forall in Hv.
    assert (Hk' : In k (indices_of (tetrahedrons_ m)))
      by (apply list_elem_of_In, elem_of_indices_of; exact Hk).
    specialize (Hv Hk' j (proj1 (Hin j) Hj)). cbv zeta in Hv.
    change (get4 (neighbors_ (tet m k)) j) with (slot (tetrahedrons_ m) k j) in Hv.
    unfold tet in Hv.
    apply N.eqb_neq in Hne. rewrite Hne in Hv. cbn [negb] in Hv. apply N.eqb_neq in Hne.
    apply HasNeighbor_found in Hv.
    split; [ | split; [exact Hv | ]].
    + destruct (Nat.lt_ge_cases (N.to_nat (slot (tetrahedrons_ m) k j))
                                (length (tetrahedrons_ m))) as [Hlt|Hge]; [exact Hlt | ].
      exfalso. rewrite at_out_of_range in Hv by exact Hge.
      apply GetNeighborFaceIndex_names in Hv.
      assert (Hd4 : forall g, get4 (neighbors_ (@Tetrahedron_default F SF)) g = M_MAX_UNSIGNED).
      { intros g. do 4 (destruct g as [|g]; [reflexivity | ]). reflexivity. }
      rewrite Hd4 in Hv. congruence.
    + intros j' Hj' E.
      assert (Ht : In (at_ Tetrahedron_default (tetrahedrons_ m) k) (tetrahedrons_ m)).
      { apply list_elem_of_In, list_elem_of_lookup_2 with (N.to_nat k).
        now apply at_in_range. }
      specialize (Hd _ Ht). rewrite names_once_spec in Hd. now apply Hd.
Qed.

End Bounds.

(** X3.  [DisconnectRemovedTetrahedrons] on a mesh whose links are reciprocal
    (it passes [IsAdjacencyValid(false)] and no cell names a neighbour twice)
    and a list of cells of the mesh: every subscript of the loop is inside
    its array, the links stay reciprocal, every listed cell ends with the
    sentinel in all four neighbour slots, and nothing else happens: no cell
    is added or dropped, no corner or matrix changes, and a neighbour slot
    of any cell holds what it held before or the sentinel. *)
Theorem DisconnectRemovedTetrahedrons_isolates {F : Type} {SF : Scalar F}
    (m : TetrahedralMesh F) (removedTetrahedrons : list N) :
  IsAdjacencyValid m false = true ->
  no_double_links m = true ->
  size (tetrahedrons_ m) < 4294967296 ->
  (forall tetIndex, tetIndex ∈ removedTetrahedrons -> tetIndex < size (tetrahedrons_ m)) ->
  let m' := DisconnectRemovedTetrahedrons m removedTetrahedrons in
  DisconnectRemovedTetrahedrons_checked m removedTetrahedrons = Some m' /\
  IsAdjacencyValid m' false = true /\
  no_double_links m' = true /\
  vertices_ m' = vertices_ m /\
  length (tetrahedrons_ m') = length (tetrahedrons_ m) /\
  (forall k : N,
     indices_ (tet m' k) = indices_ (tet m k) /\
     matrix_ (tet m' k) = matrix_ (tet m k) /\
     forall j : nat,
       get4 (neighbors_ (tet m' k)) j = get4 (neighbors_ (tet m k)) j \/
       get4 (neighbors_ (tet m' k)) j = M_MAX_UNSIGNED) /\
  (forall (tetIndex : N) (j : nat),
     tetIndex ∈ removedTetrahedrons ->
     get4 (neighbors_ (tet m' tetIndex)) j = M_MAX_UNSIGNED).
Proof.
  intros Hv Hd Hsize Hl m'.
  pose proof Hsize as Hsize'. unfold size in Hsize'.
  assert (Hl' : forall t, t ∈ removedTetrahedrons -> (N.to_nat t < length (tetrahedrons_ m))%nat).
  { intros t Ht. specialize (Hl t Ht). unfold size in Hl. lia. }
  assert (Hw : well_linked (length (tetrahedrons_ m)) (tetrahedrons_ m)).
  { split; [reflexivity | ]. apply linked_back_checks; [exact Hsize | now split]. }
  destruct (disconnect_cells_in_bounds _ removedTetrahedrons _ Hsize' Hl' Hw) as [Hc [L' Hw']].
  destruct (disconnect_cells removedTetrahedrons (tetrahedrons_ m)) as [[L U] C].
  assert (Hlb : IsAdjacencyValid m' false = true /\ no_double_links m' = true).
  { apply linked_back_checks; [ | exact Hw'].
    subst m'. unfold DisconnectRemovedTetrahedrons. cbn [tetrahedrons_ with_tetrahedrons].
    unfold size. rewrite L'. exact Hsize'. }
  split; [ | split; [apply Hlb | split; [apply Hlb | ]]].
  - unfold DisconnectRemovedTetrahedrons_checked. now rewrite Hc.
  - split; [reflexivity | split; [exact L | split; [exact U | ]]].
    intros tetIndex j Hin. apply C; [exact Hin | now apply Hl'].
Qed.

Lemma DisconnectRemovedTetrahedrons_isolates_witness :
  let m := InitializeSuperMesh Mesh_empty
             (padded_box float_constants [point 0 0 0]) in
  let m' := DisconnectRemovedTetrahedrons m [4; 0] in
  DisconnectRemovedTetrahedrons_checked m [4; 0] = Some m' /\
  IsAdjacencyValid m' false = true /\
  neighbors_ (tet m' 4)
  = mk4 M_MAX_UNSIGNED M_MAX_UNSIGNED M_MAX_UNSIGNED M_MAX_UNSIGNED.
Proof.
  intros m m'.
  assert (H1 : IsAdjacencyValid m false = true) by (vm_compute; reflexivity).
  assert (H2 : no_double_links m = true) by (vm_compute; reflexivity).
  assert (H3 : size (tetrahedrons_ m) < 4294967296) by (vm_compute; reflexivity).
  assert (H4 : forall tetIndex, tetIndex ∈ [4; 0] -> tetIndex < size (tetrahedrons_ m)).
  { intros t Ht. apply elem_of_cons in Ht as [->|Ht]; [vm_compute; reflexivity | ].
    apply list_elem_of_singleton in Ht as ->. vm_compute; reflexivity. }
  pose proof (DisconnectRemovedTetrahedrons_isolates m [4; 0] H1 H2 H3 H4) as H.
  cbv zeta in H. fold m' in H.
  split; [exact (proj1 H) | split; [exact (proj1 (proj2 H)) | ]].
  vm_compute. reflexivity.
Defined.

Section SuperCells.
Context {F : Type} {SF : Scalar F}.

Lemma has_super_vertex_indices (t t' : Tetrahedron F) :
  indices_ t' = indices_ t -> has_super_vertex t' = has_super_vertex t.
Proof. intros H. unfold has_super_vertex. now rewrite H. Qed.

Lemma disconnect_super_face_unlinked (tetIndex : N) (nb : Arr4 N)
    (tets : list (Tetrahedron F)) (faceIndex : nat) :
  only_unlinked tets (disconnect_super_face tetIndex nb tets faceIndex).
Proof.
  unfold disconnect_super_face.
  destruct (negb (get4 nb faceIndex =? M_MAX_UNSIGNED)); [ | apply only_unlinked_refl].
  apply unlink_slot.
Qed.

(** One cell of the loop of [DisconnectSuperMeshTetrahedrons]: the cells are
    only unlinked, and one flag may be set. *)
Lemma disconnect_super_step_spec (st : list (Tetrahedron F) * list bool) (tetIndex : N) :
  let st' := disconnect_super_step st tetIndex in
  only_unlinked (fst st) (fst st') /\
  length (snd st') = length (snd st) /\
  forall i : N,
    at_ true (snd st') i = true <->
    at_ true (snd st) i = true \/
    (i = tetIndex /\ has_super_vertex (at_ Tetrahedron_default (fst st) i) = true).
Proof.
  destruct st as [tets removed]. unfold disconnect_super_step. cbn [fst snd].
  set (removed1 := if has_super_vertex (at_ Tetrahedron_default tets tetIndex)
                   then put removed tetIndex true else removed).
  assert (Hflags : length removed1 = length removed /\
                   forall i : N,
                     at_ true removed1 i = true <->
                     at_ true removed i = true \/
                     (i = tetIndex /\
                      has_super_vertex (at_ Tetrahedron_default tets i) = true)).
  { subst removed1.
    destruct (has_super_vertex (at_ Tetrahedron_default tets tetIndex)) eqn:Hs.
    - split; [apply length_put | ]. intros i. destruct (N.eq_dec tetIndex i) as [<-|Hne].
      + split; [intros _; right; split; [reflexivity | exact Hs] | ].
        intros _. destruct (Nat.lt_ge_cases (N.to_nat tetIndex) (length removed)) as [Hlt|Hge].
        * now apply at_put_eq.
        * rewrite put_out_of_range by exact Hge. now apply at_out_of_range.
      + rewrite at_put_ne by exact Hne. split; [auto | ].
        intros [H|[H _]]; [exact H | congruence].
    - split; [reflexivity | ]. intros i. split; [auto | ].
      intros [H|[-> H]]; [exact H | congruence]. }
  destruct (negb (at_ true removed1 tetIndex)); cbn [fst snd].
  - split; [apply only_unlinked_refl | exact Hflags].
  - split; [ | exact Hflags].
    set (step := fun ts faceIndex =>
                   disconnect_super_face tetIndex
                     (neighbors_ (at_ Tetrahedron_default ts tetIndex)) ts faceIndex).
    apply (foldl_only_unlinked step). intros ts a. apply disconnect_super_face_unlinked.
Qed.

Lemma disconnect_super_steps (l : list N) :
  forall st : list (Tetrahedron F) * list bool,
    let st' := foldl disconnect_super_step st l in
    only_unlinked (fst st) (fst st') /\
    length (snd st') = length (snd st) /\
    forall i : N,
      at_ true (snd st') i = true <->
      at_ true (snd st) i = true \/
      (i ∈ l /\ has_super_vertex (at_ Tetrahedron_default (fst st) i) = true).
Proof.
  induction l as [|a l IH]; intros st.
  - cbn. split; [apply only_unlinked_refl | split; [reflexivity | ]].
    intros i. split; [auto | ]. intros [H|[H _]]; [exact H | inversion H].
  - cbn [foldl]. destruct (disconnect_super_step_spec st a) as (U1 & L1 & H1).
    destruct (IH (disconnect_super_step st a)) as (U2 & L2 & H2).
    split; [eapply only_unlinked_trans; eassumption | split; [congruence | ]].
    intros i. rewrite H2, H1, elem_of_cons.
    assert (E : has_super_vertex (at_ Tetrahedron_default (fst (disconnect_super_step st a)) i)
                = has_super_vertex (at_ Tetrahedron_default (fst st) i)).
    { apply has_super_vertex_indices. destruct U1 as [_ U1]. apply (U1 i). }
    rewrite E. tauto.
Qed.

Lemma disconnect_super_unlinked (m : TetrahedralMesh F) (removed : list bool) :
  only_unlinked (tetrahedrons_ m)
                (tetrahedrons_ (fst (DisconnectSuperMeshTetrahedrons m removed))) /\
  length (snd (DisconnectSuperMeshTetrahedrons m removed)) = length removed.
Proof.
  destruct (disconnect_super_steps (indices_of (tetrahedrons_ m)) (tetrahedrons_ m, removed))
    as (U & L & _).
  split; [exact U | exact L].
Qed.

Lemma disconnect_super_flag (m : TetrahedralMesh F) (removed : list bool) (i : N) :
  (N.to_nat i < length (tetrahedrons_ m))%nat ->
  at_ true (snd (DisconnectSuperMeshTetrahedrons m removed)) i
  = at_ true removed i || has_super_vertex (tet m i).
Proof.
  intros Hi.
  destruct (disconnect_super_steps (indices_of (tetrahedrons_ m)) (tetrahedrons_ m, removed))
    as (_ & _ & H).
  cbn [fst snd] in H. apply eq_true_iff_eq.
  unfold DisconnectSuperMeshTetrahedrons. cbn [snd].
  rewrite H, orb_true_iff, elem_of_indices_of. unfold tet. tauto.
Qed.

End SuperCells.

Section SuperBounds.
Context {F : Type} {SF : Scalar F}.

(** The body of the loop of [DisconnectSuperMeshTetrahedrons] over the faces
    of a flagged cell, with every subscript checked: [None] when the
    neighbour is no cell of the mesh or does not name the cell back (the
    source asserts [neighborFaceIndex < 4] and then writes
    [neighbors_[neighborFaceIndex]]). *)
Definition disconnect_super_face_checked (tetIndex : N) (tetrahedron_neighbors : Arr4 N)
    (tets : list (Tetrahedron F)) (faceIndex : nat) : option (list (Tetrahedron F)) :=
  let neighborIndex := get4 tetrahedron_neighbors faceIndex in
  if negb (neighborIndex =? M_MAX_UNSIGNED) then
    if (neighborIndex <? size tets)
       && (GetNeighborFaceIndex (at_ Tetrahedron_default tets neighborIndex) tetIndex <? 4)%nat
    then Some (disconnect_super_face tetIndex tetrahedron_neighbors tets faceIndex)
    else None
  else Some tets.

(** One cell of the loop, checked: the cell and its flag must exist. *)
Definition disconnect_super_step_checked (st : list (Tetrahedron F) * list bool) (tetIndex : N)
  : option (list (Tetrahedron F) * list bool) :=
  let '(tets, removed) := st in
  if (tetIndex <? size tets) && (tetIndex <? size removed) then
    let removed1 :=
      if has_super_vertex (at_ Tetrahedron_default tets tetIndex)
      then put removed tetIndex true else removed in
    if negb (at_ true removed1 tetIndex) then Some (tets, removed1)
    else
      match foldl_checked
              (fun ts faceIndex =>
                 disconnect_super_face_checked tetIndex
                   (neighbors_ (at_ Tetrahedron_default ts tetIndex)) ts faceIndex)
              tets [0; 1; 2; 3]%nat with
      | Some ts => Some (ts, removed1)
      | None => None
      end
  else None.

Definition DisconnectSuperMeshTetrahedrons_checked (m : TetrahedralMesh F) (removed : list bool)
  : option (TetrahedralMesh F * list bool) :=
  match foldl_checked disconnect_super_step_checked (tetrahedrons_ m, removed)
                      (indices_of (tetrahedrons_ m)) with
  | Some r => Some (with_tetrahedrons m (fst r), snd r)
  | None => None
  end.

(** The links while flagged cells are being cut off.  [D a s] says that face
    [s] of the flagged cell [a] has been handled: a cell named in a slot is a
    cell, is named once, and either names the cell back in a slot that has
    not been handled, or the slot itself has been handled. *)
Definition half_linked (D : N -> nat -> Prop) (tets : list (Tetrahedron F)) : Prop :=
  forall (a : N) (s : nat),
    (N.to_nat a < length tets)%nat -> (s < 4)%nat ->
    slot tets a s <> M_MAX_UNSIGNED ->
    (N.to_nat (slot tets a s) < length tets)%nat /\
    (forall s' : nat, (s' < 4)%nat -> slot tets a s' = slot tets a s -> s' = s) /\
    ((exists s' : nat, (s' < 4)%nat /\ slot tets (slot tets a s) s' = a /\
                       ~ D (slot tets a s) s') \/
     D a s).

Lemma half_linked_ext (D D' : N -> nat -> Prop) (tets : list (Tetrahedron F)) :
  (forall a s, (s < 4)%nat -> D a s <-> D' a s) ->
  half_linked D tets -> half_linked D' tets.
Proof.
  intros HD H a s Ha Hs Hne. destruct (H a s Ha Hs Hne) as (Hr & Hu & Hb).
  split; [exact Hr | split; [exact Hu | ]].
  destruct Hb as [(s' & Hs' & E & Hn)|Hd].
  - left. exists s'. split; [exact Hs' | split; [exact E | ]]. now rewrite <- HD.
  - right. now apply HD.
Qed.

Lemma linked_back_half_linked (tets : list (Tetrahedron F)) :
  linked_back tets -> half_linked (fun _ _ => False) tets.
Proof.
  intros H a s Ha Hs Hne. destruct (H a s Ha Hs Hne) as (Hr & Hg & Hu).
  split; [exact Hr | split; [exact Hu | ]]. left.
  exists (GetNeighborFaceIndex (at_ Tetrahedron_default tets (slot tets a s)) a).
  split; [exact Hg | split; [ | tauto]].
  now apply GetNeighborFaceIndex_names.
Qed.

(** One face of a flagged cell. *)
Lemma disconnect_super_face_half_linked (D : N -> nat -> Prop)
    (ts : list (Tetrahedron F)) (k : N) (j : nat) :
  size ts < 4294967296 ->
  half_linked D ts -> (N.to_nat k < length ts)%nat -> (j < 4)%nat -> ~ D k j ->
  let ts' := disconnect_super_face k (neighbors_ (at_ Tetrahedron_default ts k)) ts j in
  disconnect_super_face_checked k (neighbors_ (at_ Tetrahedron_default ts k)) ts j = Some ts' /\
  length ts' = length ts /\
  half_linked (fun a s => D a s \/ (a = k /\ s = j)) ts' /\
  (forall (x : N) (g : nat), (g < 4)%nat ->
     slot ts' x g = slot ts x g \/ (slot ts' x g = M_MAX_UNSIGNED /\ slot ts x g = k)).
Proof.
  intros Hsize H Hk Hj HD ts'.
  assert (Hmax : forall a : N, (N.to_nat a < length ts)%nat -> a <> M_MAX_UNSIGNED).
  { intros a Ha. unfold M_MAX_UNSIGNED, size in *. lia. }
  subst ts'. unfold disconnect_super_face_checked, disconnect_super_face.
  change (get4 (neighbors_ (at_ Tetrahedron_default ts k)) j) with (slot ts k j).
  destruct (N.eq_dec (slot ts k j) M_MAX_UNSIGNED) as [En|Hn].
  { rewrite En. cbn.
    split; [reflexivity | split; [reflexivity | split; [ | intros; now left]]].
    intros a s Ha Hs Hne. destruct (H a s Ha Hs Hne) as (Hr & Hu & Hb).
    split; [exact Hr | split; [exact Hu | ]].
    destruct Hb as [(s' & Hs' & E & Hnd)|Hd]; [left | right; now left].
    exists s'. split; [exact Hs' | split; [exact E | ]].
    intros [Hd|[E1 E2]]; [contradiction | ].
    rewrite E1, E2, En in E. apply (Hmax a Ha). now symmetry. }
  destruct (H k j Hk Hj Hn) as (Hnr & Hu & Hb).
  destruct Hb as [(s0 & Hs0 & Es0 & Hnd0)|Hd]; [ | contradiction].
  set (n := slot ts k j) in *.
  assert (Hg : (GetNeighborFaceIndex (at_ Tetrahedron_default ts n) k < 4)%nat)
    by (apply (GetNeighborFaceIndex_found _ _ s0); assumption).
  set (g := GetNeighborFaceIndex (at_ Tetrahedron_default ts n) k) in *.
  assert (Hng : slot ts n g = k) by (apply GetNeighborFaceIndex_names; exact Hg).
  assert (Hkmax : slot ts n g <> M_MAX_UNSIGNED) by (rewrite Hng; now apply Hmax).
  destruct (H n g Hnr Hg Hkmax) as (_ & Hun & _).
  assert (Egs : s0 = g) by (apply Hun; [exact Hs0 | congruence]).
  subst s0.
  apply N.eqb_neq in Hn. rewrite Hn. cbn [negb]. apply N.eqb_neq in Hn.
  assert (E1 : (n <? size ts) = true) by (apply N.ltb_lt; unfold size; lia).
  rewrite E1. pose proof Hg as Hgb. apply Nat.ltb_lt in Hgb. rewrite Hgb. cbn [andb].
  set (ts' := put ts n (set_neighbor (at_ Tetrahedron_default ts n) g M_MAX_UNSIGNED)).
  assert (S : forall x i, (i < 4)%nat ->
                slot ts' x i = if decide (x = n /\ i = g) then M_MAX_UNSIGNED else slot ts x i).
  { intros x i Hi. subst ts'. now apply slot_unlink. }
  assert (L : length ts' = length ts) by apply length_put.
  split; [reflexivity | split; [exact L | split]].
  - intros a s Ha Hs Hne. rewrite L in Ha.
    assert (Hold : slot ts' a s = slot ts a s /\ ~ (a = n /\ s = g)).
    { rewrite S in Hne |- * by exact Hs.
      destruct (decide (a = n /\ s = g)) as [Dd|Dd];
        [contradiction | split; [reflexivity | exact Dd]]. }
    destruct Hold as [E Hnot]. rewrite E in Hne |- *.
    destruct (H a s Ha Hs Hne) as (Hr' & Hu' & Hb').
    split; [rewrite L; exact Hr' | split].
    + intros s' Hs' Es'. apply Hu'; [exact Hs' | ].
      rewrite S in Es' by exact Hs'.
      destruct (decide (a = n /\ s' = g)); [ | exact Es']. symmetry in Es'. contradiction.
    + destruct Hb' as [(s' & Hs' & Es' & Hnd')|Hd']; [ | right; now left].
      destruct (decide (slot ts a s = n /\ s' = g)) as [[Eb Eg]|Dn].
      * (* the back link is the slot being cleared: the cell is [k], the slot [j] *)
        right. right. rewrite Eb, Eg, Hng in Es'. subst a.
        split; [reflexivity | ]. apply Hu; [exact Hs | exact Eb].
      * left. exists s'. split; [exact Hs' | split].
        -- rewrite S by exact Hs'. rewrite decide_False by exact Dn. exact Es'.
        -- intros [Hd'|[Eb Ej]]; [contradiction | ].
           (* the back link would be slot [j] of [k]: the cell is [n], the slot [g] *)
           rewrite Eb, Ej in Es'. fold n in Es'. subst a.
           apply Hnot. split; [reflexivity | ].
           apply Hun; [exact Hs | ]. rewrite Hng. exact Eb.
  - intros x i Hi. rewrite S by exact Hi.
    destruct (decide (x = n /\ i = g)) as [[-> ->]|Dn]; [right | now left].
    split; [reflexivity | exact Hng].
Qed.

(** The four faces of a flagged cell. *)
Lemma disconnect_super_cell_half_linked (D : N -> nat -> Prop)
    (ts : list (Tetrahedron F)) (k : N) :
  size ts < 4294967296 ->
  half_linked D ts -> (N.to_nat k < length ts)%nat ->
  (forall j, (j < 4)%nat -> ~ D k j) ->
  let step := fun ts0 faceIndex =>
                disconnect_super_face k (neighbors_ (at_ Tetrahedron_default ts0 k)) ts0
                                      faceIndex in
  let checked := fun ts0 faceIndex =>
                   disconnect_super_face_checked k
                     (neighbors_ (at_ Tetrahedron_default ts0 k)) ts0 faceIndex in
  let ts' := foldl step ts [0; 1; 2; 3]%nat in
  foldl_checked checked ts [0; 1; 2; 3]%nat = Some ts' /\
  length ts' = length ts /\
  half_linked (fun a s => D a s \/ a = k) ts' /\
  (forall (x : N) (g : nat), (g < 4)%nat ->
     slot ts' x g = slot ts x g \/ (slot ts' x g = M_MAX_UNSIGNED /\ slot ts x g = k)).
Proof.
  intros Hsize H Hk HD step checked ts'.
  subst ts'. unfold foldl_checked. cbn [foldl].
  set (D0 := D).
  set (D1 := fun a s => D0 a s \/ (a = k /\ s = 0%nat)).
  set (D2 := fun a s => D1 a s \/ (a = k /\ s = 1%nat)).
  set (D3 := fun a s => D2 a s \/ (a = k /\ s = 2%nat)).
  set (D4 := fun a s => D3 a s \/ (a = k /\ s = 3%nat)).
  destruct (disconnect_super_face_half_linked D0 ts k 0 Hsize H Hk ltac:(lia)
              ltac:(apply HD; lia)) as (C0 & L0 & H0 & S0).
  fold (step ts 0%nat) in C0, L0, H0, S0. fold (checked ts 0%nat) in C0.
  set (t0 := step ts 0%nat) in *. rewrite C0.
  assert (Z0 : size t0 < 4294967296) by (unfold size in *; now rewrite L0).
  destruct (disconnect_super_face_half_linked D1 t0 k 1 Z0 H0 ltac:(lia) ltac:(lia))
    as (C1 & L1 & H1 & S1).
  { subst D1 D0. cbv beta. intros [Hd|[_ E]]; [apply (HD 1%nat); [lia | exact Hd] | lia]. }
  fold (step t0 1%nat) in C1, L1, H1, S1. fold (checked t0 1%nat) in C1.
  set (t1 := step t0 1%nat) in *. rewrite C1.
  assert (Z1 : size t1 < 4294967296) by (unfold size in *; now rewrite L1).
  destruct (disconnect_super_face_half_linked D2 t1 k 2 Z1 H1 ltac:(lia) ltac:(lia))
    as (C2 & L2 & H2 & S2).
  { subst D2 D1 D0. cbv beta.
    intros [[Hd|[_ E]]|[_ E]]; [apply (HD 2%nat); [lia | exact Hd] | lia | lia]. }
  fold (step t1 2%nat) in C2, L2, H2, S2. fold (checked t1 2%nat) in C2.
  set (t2 := step t1 2%nat) in *. rewrite C2.
  assert (Z2 : size t2 < 4294967296) by (unfold size in *; now rewrite L2).
  destruct (disconnect_super_face_half_linked D3 t2 k 3 Z2 H2 ltac:(lia) ltac:(lia))
    as (C3 & L3 & H3 & S3).
  { subst D3 D2 D1 D0. cbv beta.
    intros [[[Hd|[_ E]]|[_ E]]|[_ E]]; [apply (HD 3%nat); [lia | exact Hd] | lia | lia | lia]. }
  fold (step t2 3%nat) in C3, L3, H3, S3. fold (checked t2 3%nat) in C3.
  set (t3 := step t2 3%nat) in *. rewrite C3.
  split; [reflexivity | split; [lia | split]].
  - apply (half_linked_ext D4); [ | exact H3].
    intros a s Hs. subst D4 D3 D2 D1 D0. cbv beta. split.
    + intros [[[[Hd|[E _]]|[E _]]|[E _]]|[E _]]; auto.
    + intros [Hd|E]; [tauto | ].
      destruct s as [|[|[|[|s]]]]; [tauto.. | lia].
  - intros x g Hg.
    destruct (S3 x g Hg) as [E3|[E3 K3]]; [ | right; split; [exact E3 | ]].
    + rewrite E3. destruct (S2 x g Hg) as [E2|[E2 K2]]; [ | right; split; [exact E2 | ]].
      * rewrite E2. destruct (S1 x g Hg) as [E1|[E1 K1]]; [ | right; split; [exact E1 | ]].
        -- rewrite E1. apply S0, Hg.
        -- destruct (S0 x g Hg) as [E0|[E0 K0]]; [congruence | exact K0].
      * destruct (S1 x g Hg) as [E1|[E1 K1]].
        -- rewrite E1 in K2. destruct (S0 x g Hg) as [E0|[E0 K0]]; [congruence | exact K0].
        -- exfalso. rewrite E1 in K2. unfold M_MAX_UNSIGNED, size in *. lia.
    + destruct (S2 x g Hg) as [E2|[E2 K2]].
      * rewrite E2 in K3. destruct (S1 x g Hg) as [E1|[E1 K1]].
        -- rewrite E1 in K3. destruct (S0 x g Hg) as [E0|[E0 K0]]; [congruence | exact K0].
        -- exfalso. rewrite E1 in K3. unfold M_MAX_UNSIGNED, size in *. lia.
      * exfalso. rewrite E2 in K3. unfold M_MAX_UNSIGNED, size in *. lia.
Qed.

(** The faces handled once the loop has passed the cells before [i]: those
    of the flagged cells among them. *)
Definition handled (i : nat) (removed : list bool) (a : N) (s : nat) : Prop :=
  (N.to_nat a < i)%nat /\ at_ true removed a = true.

(** What holds after the cells before [i] are handled: the cells of [tets0]
    are only unlinked, a slot is cleared only when it named a flagged cell
    before [i], and the links are reciprocal but for the slots of these
    flagged cells. *)
Record cut_off (tets0 : list (Tetrahedron F)) (i : nat)
    (st : list (Tetrahedron F) * list bool) : Prop := {
  co_length : length (fst st) = length tets0;
  co_flags : (length tets0 <= length (snd st))%nat;
  co_links : half_linked (handled i (snd st)) (fst st);
  co_slots : forall (x : N) (g : nat), (g < 4)%nat ->
    slot (fst st) x g = slot tets0 x g \/
    (slot (fst st) x g = M_MAX_UNSIGNED /\
     (N.to_nat (slot tets0 x g) < i)%nat /\ at_ true (snd st) (slot tets0 x g) = true)
}.

Lemma disconnect_super_step_cut_off (tets0 : list (Tetrahedron F)) (i : nat)
    (st : list (Tetrahedron F) * list bool) :
  size tets0 < 4294967296 -> (i < length tets0)%nat ->
  cut_off tets0 i st ->
  disconnect_super_step_checked st (N.of_nat i) = Some (disconnect_super_step st (N.of_nat i)) /\
  cut_off tets0 (S i) (disconnect_super_step st (N.of_nat i)).
Proof.
  intros Hsize Hi [L Lf H S]. destruct st as [tets removed]. cbn [fst snd] in *.
  unfold disconnect_super_step_checked, disconnect_super_step.
  set (k := N.of_nat i).
  assert (Hk : (N.to_nat k < length tets)%nat) by (subst k; lia).
  assert (B1 : (k <? size tets) = true) by (apply N.ltb_lt; unfold size; lia).
  assert (B2 : (k <? size removed) = true) by (apply N.ltb_lt; unfold size; lia).
  rewrite B1, B2. cbn [andb].
  set (removed1 := if has_super_vertex (at_ Tetrahedron_default tets k)
                   then put removed k true else removed).
  assert (L1 : length removed1 = length removed).
  { subst removed1. destruct (has_super_vertex _); [apply length_put | reflexivity]. }
  assert (F1 : forall a : N, a <> k -> at_ true removed1 a = at_ true removed a).
  { intros a Ha. subst removed1. destruct (has_super_vertex _); [ | reflexivity].
    apply at_put_ne. congruence. }
  assert (Hh : forall a s, handled i removed1 a s <-> handled i removed a s).
  { intros a s. unfold handled. split; intros [Ha Hf]; (split; [exact Ha | ]).
    - rewrite <- F1; [exact Hf | subst k; lia].
    - rewrite F1; [exact Hf | subst k; lia]. }
  assert (S1 : forall (x : N) (g : nat), (g < 4)%nat ->
             slot tets x g = slot tets0 x g \/
             (slot tets x g = M_MAX_UNSIGNED /\
              (N.to_nat (slot tets0 x g) < i)%nat /\
              at_ true removed1 (slot tets0 x g) = true)).
  { intros x g Hg. destruct (S x g Hg) as [E|(E & Hlt & Hf)]; [now left | right].
    split; [exact E | split; [exact Hlt | ]]. rewrite F1; [exact Hf | subst k; lia]. }
  destruct (at_ true removed1 k) eqn:Fk; cbn [negb].
  - (* a flagged cell *)
    assert (H1 : half_linked (handled i removed1) tets).
    { apply (half_linked_ext (handled i removed)); [ | exact H].
      intros a s _. symmetry. apply Hh. }
    assert (Z : size tets < 4294967296) by (unfold size in *; now rewrite L).
    destruct (disconnect_super_cell_half_linked (handled i removed1) tets k Z H1 Hk)
      as (C & L' & H' & S').
    { intros j _ [Hlt _]. subst k. lia. }
    cbv zeta in C, L', H', S'. rewrite C. split; [reflexivity | ].
    constructor; cbn [fst snd].
    + congruence.
    + lia.
    + eapply half_linked_ext; [ | exact H'].
      intros a s _. cbv beta. unfold handled. split.
      * intros [[Hlt Hf]| ->]; [split; [lia | exact Hf] | ].
        split; [subst k; lia | exact Fk].
      * intros [Hlt Hf]. destruct (N.eq_dec a k) as [->|Hne]; [now right | left].
        split; [subst k; lia | exact Hf].
    + intros x g Hg. destruct (S' x g Hg) as [E|[E K]].
      * rewrite E. destruct (S1 x g Hg) as [E1|(E1 & Hlt & Hf)]; [now left | right].
        split; [exact E1 | split; [lia | exact Hf]].
      * right. split; [exact E | ].
        destruct (S1 x g Hg) as [E1|(E1 & _)].
        -- rewrite <- E1, K. split; [subst k; lia | exact Fk].
        -- exfalso. rewrite E1 in K. subst k. unfold M_MAX_UNSIGNED, size in *. lia.
  - (* a cell that stays *)
    split; [reflexivity | ]. constructor; cbn [fst snd].
    + exact L.
    + lia.
    + apply (half_linked_ext (handled i removed)); [ | exact H].
      intros a s _. unfold handled. split.
      * intros [Hlt Hf]. split; [lia | ]. rewrite F1; [exact Hf | subst k; lia].
      * intros [Hlt Hf]. destruct (N.eq_dec a k) as [->|Hne]; [congruence | ].
        split; [subst k; lia | ]. now rewrite <- F1.
    + intros x g Hg. destruct (S1 x g Hg) as [E1|(E1 & Hlt & Hf)]; [now left | right].
      split; [exact E1 | split; [lia | exact Hf]].
Qed.

Lemma disconnect_super_steps_cut_off (tets0 : list (Tetrahedron F)) (count : nat) :
  size tets0 < 4294967296 ->
  forall (i : nat) (st : list (Tetrahedron F) * list bool),
    (i + count <= length tets0)%nat ->
    cut_off tets0 i st ->
    foldl_checked disconnect_super_step_checked st (map N.of_nat (seq i count))
    = Some (foldl disconnect_super_step st (map N.of_nat (seq i count))) /\
    cut_off tets0 (i + count) (foldl disconnect_super_step st (map N.of_nat (seq i count))).
Proof.
  intros Hsize. unfold foldl_checked.
  induction count as [|count IH]; intros i st Hi Hst.
  - cbn. rewrite Nat.add_0_r. split; [reflexivity | exact Hst].
  - cbn [seq map foldl].
    destruct (disconnect_super_step_cut_off tets0 i st Hsize ltac:(lia) Hst) as [C Hst'].
    rewrite C. replace (i + S count)%nat with (S i + count)%nat by lia.
    apply IH; [lia | exact Hst'].
Qed.

Lemma DisconnectSuperMeshTetrahedrons_cut_off (m : TetrahedralMesh F) (removed : list bool) :
  size (tetrahedrons_ m) < 4294967296 ->
  linked_back (tetrahedrons_ m) ->
  (length (tetrahedrons_ m) <= length removed)%nat ->
  let r := DisconnectSuperMeshTetrahedrons m removed in
  DisconnectSuperMeshTetrahedrons_checked m removed = Some r /\
  cut_off (tetrahedrons_ m) (length (tetrahedrons_ m)) (tetrahedrons_ (fst r), snd r).
Proof.
  intros Hsize Hl Hf r.
  assert (H0 : cut_off (tetrahedrons_ m) 0 (tetrahedrons_ m, removed)).
  { constructor; cbn [fst snd].
    - reflexivity.
    - exact Hf.
    - apply (half_linked_ext (fun _ _ => False)); [ | now apply linked_back_half_linked].
      intros a s _. unfold handled. split; [tauto | lia].
    - intros; now left. }
  destruct (disconnect_super_steps_cut_off (tetrahedrons_ m) (length (tetrahedrons_ m))
              Hsize 0%nat _ ltac:(lia) H0) as [C H].
  cbn [Nat.add] in H. fold (indices_of (tetrahedrons_ m)) in C, H.
  split.
  - unfold DisconnectSuperMeshTetrahedrons_checked. rewrite C. reflexivity.
  - destruct H as [A1 A2 A3 A4]. constructor; assumption.
Qed.

End SuperBounds.

(** X4.  [DisconnectSuperMeshTetrahedrons] on a mesh whose links are
    reciprocal (it passes [IsAdjacencyValid(false)] and no cell names a
    neighbour twice) with a flag for every cell: every subscript of the loop
    is inside its array.  The flag of a cell afterwards is set if and only
    if it was set or one of the four corners is a super-mesh vertex (an
    index below 8).  The cells are only unlinked: none is added or dropped,
    corners and matrices stay, and a neighbour slot holds what it held or the
    sentinel.  A cell that stays unflagged keeps its links to the cells that
    stay and has the sentinel where it named a flagged cell. *)
Theorem DisconnectSuperMeshTetrahedrons_flags {F : Type} {SF : Scalar F}
    (m : TetrahedralMesh F) (removed : list bool) :
  IsAdjacencyValid m false = true ->
  no_double_links m = true ->
  size (tetrahedrons_ m) < 4294967296 ->
  (length (tetrahedrons_ m) <= length removed)%nat ->
  let r := DisconnectSuperMeshTetrahedrons m removed in
  DisconnectSuperMeshTetrahedrons_checked m removed = Some r /\
  vertices_ (fst r) = vertices_ m /\
  only_unlinked (tetrahedrons_ m) (tetrahedrons_ (fst r)) /\
  length (snd r) = length removed /\
  (forall i : N,
     (N.to_nat i < length (tetrahedrons_ m))%nat ->
     at_ true (snd r) i = at_ true removed i || has_super_vertex (tet m i)) /\
  (forall i : N,
     (length (tetrahedrons_ m) <= N.to_nat i)%nat -> at_ true (snd r) i = at_ true removed i) /\
  (forall (i : N) (j : nat),
     (N.to_nat i < length (tetrahedrons_ m))%nat -> (j < 4)%nat ->
     at_ true (snd r) i = false ->
     get4 (neighbors_ (tet (fst r) i)) j
     = if at_ true (snd r) (get4 (neighbors_ (tet m i)) j) then M_MAX_UNSIGNED
       else get4 (neighbors_ (tet m i)) j).
Proof.
  intros Hv Hd Hsize Hf r.
  assert (Hl : linked_back (tetrahedrons_ m)) by (apply linked_back_checks; [exact Hsize | now split]).
  destruct (DisconnectSuperMeshTetrahedrons_cut_off m removed Hsize Hl Hf) as [C [L _ H S]].
  fold r in C, L, H, S. cbn [fst snd] in L, H, S.
  destruct (disconnect_super_unlinked m removed) as [U Lr]. fold r in U, Lr.
  split; [exact C | split; [reflexivity | split; [exact U | split; [exact Lr | split; [ | split]]]]].
  - intros i Hi. now apply disconnect_super_flag.
  - intros i Hi.
    destruct (disconnect_super_steps (indices_of (tetrahedrons_ m)) (tetrahedrons_ m, removed))
      as (_ & _ & Hflag).
    cbn [fst snd] in Hflag. apply eq_true_iff_eq.
    subst r. unfold DisconnectSuperMeshTetrahedrons. cbn [snd].
    rewrite Hflag, elem_of_indices_of. split; [ | auto]. intros [E|[Hlt _]]; [exact E | lia].
  - intros i j Hi Hj Hkept.
    change (get4 (neighbors_ (tet (fst r) i)) j) with (slot (tetrahedrons_ (fst r)) i j).
    change (get4 (neighbors_ (tet m i)) j) with (slot (tetrahedrons_ m) i j).
    destruct (S i j Hj) as [E|(E & _ & Hflagged)].
    + rewrite E.
      destruct (N.eq_dec (slot (tetrahedrons_ m) i j) M_MAX_UNSIGNED) as [Emax|Hne].
      { rewrite Emax. now destruct (at_ true (snd r) M_MAX_UNSIGNED). }
      rewrite <- E in Hne.
      destruct (H i j ltac:(rewrite L; exact Hi) Hj Hne) as (Hr & _ & Hb).
      rewrite E in Hr, Hb.
      destruct Hb as [(s' & _ & _ & Hnh)|[_ Hfl]]; [ | congruence].
      destruct (at_ true (snd r) (slot (tetrahedrons_ m) i j)) eqn:Eflag; [ | reflexivity].
      exfalso. apply Hnh. split; [rewrite L in Hr; exact Hr | exact Eflag].
    + rewrite E, Hflagged. reflexivity.
Qed.

Lemma DisconnectSuperMeshTetrahedrons_flags_witness :
  let m := InitializeSuperMesh Mesh_empty (padded_box float_constants [point 0 0 0]) in
  let removed := [false; false; false; false; false] in
  let r := DisconnectSuperMeshTetrahedrons m removed in
  DisconnectSuperMeshTetrahedrons_checked m removed = Some r /\
  snd r = [true; true; true; true; true].
Proof.
  intros m removed r.
  assert (H1 : IsAdjacencyValid m false = true) by (vm_compute; reflexivity).
  assert (H2 : no_double_links m = true) by (vm_compute; reflexivity).
  assert (H3 : size (tetrahedrons_ m) < 4294967296) by (vm_compute; reflexivity).
  assert (H4 : (length (tetrahedrons_ m) <= length removed)%nat) by (vm_compute; lia).
  pose proof (DisconnectSuperMeshTetrahedrons_flags m removed H1 H2 H3 H4) as H.
  cbv zeta in H. fold r in H.
  split; [exact (proj1 H) | ]. vm_compute. reflexivity.
Defined.

(** ** The evaluated runs stay inside the arrays *)

Section Monitor.
Context {F : Type} {SF : Scalar F}.
Variable md : Constants F.

(** The unlinking loop of one insertion indexes inside its arrays. *)
Definition insertion_in_bounds (st : Build F * list N) (newVertexIndex : N) : bool :=
  let m := build_mesh (fst st) in
  let c := FindAndRemoveIntersected md m (build_ctx (fst st)) (vertex m newVertexIndex) false in
  if carve_ok c then
    match DisconnectRemovedTetrahedrons_checked m (carve_removedTetrahedrons c) with
    | Some _ => true
    | None => false
    end
  else true.

(** So do the insertions of a queue, one after the other, and the unlinking
    of the super mesh that follows (for a queue that leaves no vertex
    postponed). *)
Fixpoint insertions_in_bounds (st : Build F * list N) (queue : list N) : bool :=
  match queue with
  | [] =>
    match DisconnectSuperMeshTetrahedrons_checked (build_mesh (fst st))
                                                  (removed_ (build_ctx (fst st))) with
    | Some _ => true
    | None => false
    end
  | v :: rest => insertion_in_bounds st v && insertions_in_bounds (insert_vertex md st v) rest
  end.

End Monitor.

(** In the runs of [Define] that are evaluated in this file for the pinched
    points and for the sliver points, no vertex is postponed and both
    unlinking loops index inside their arrays throughout. *)
Lemma evaluated_runs_in_bounds :
  let start := fun positions : list (Vector3 float) =>
    (initial_build float_constants
       (InitializeSuperMesh Mesh_empty (padded_box float_constants positions)) positions,
     @nil N) in
  insertions_in_bounds float_constants (start pinched_points) [8; 9; 10; 11; 12; 13] = true /\
  snd (process_queue float_constants (fst (start pinched_points)) [8; 9; 10; 11; 12; 13]) = [] /\
  insertions_in_bounds float_constants (start sliver_points) [8; 9; 10; 11; 12] = true /\
  snd (process_queue float_constants (fst (start sliver_points)) [8; 9; 10; 11; 12]) = [].
Proof. vm_compute. repeat split; reflexivity. Qed.

(** ** Compaction *)

Section Compaction.
Context {F : Type} {SF : Scalar F}.
Variable removed : list bool.

(** The cell at an old index survives. *)
Definition survives (oldTetIndex : nat) : bool := negb (at_ true removed (N.of_nat oldTetIndex)).

(** The number of surviving cells among the [count] old indices from
    [start]: for a surviving cell at old index [i], [survivors 0 i] is its new
    index. *)
Definition survivors (start count : nat) : nat :=
  length (List.filter survives (seq start count)).



(** "Adjust neighbor indices" on one cell: corners and matrix stay, and each
    slot that held an old index holds what the index maps to. *)
Lemma remap_neighbors_spec (oldToNewIndexMap : list N) (t : Tetrahedron F) :
  indices_ (remap_neighbors oldToNewIndexMap t) = indices_ t /\
  matrix_ (remap_neighbors oldToNewIndexMap t) = matrix_ t /\
  forall j : nat,
    get4 (neighbors_ (remap_neighbors oldToNewIndexMap t)) j
    = if get4 (neighbors_ t) j =? M_MAX_UNSIGNED then M_MAX_UNSIGNED
      else at_ 0 oldToNewIndexMap (get4 (neighbors_ t) j).
Proof.
  destruct t as [ix [n0 n1 n2 n3] mat]. unfold remap_neighbors.
  cbn [foldl get4 neighbors_ e40 e41 e42 e43].
  destruct (n0 =? M_MAX_UNSIGNED) eqn:E0;
    cbn [negb get4 neighbors_ set_neighbor set_neighbors set4 indices_ matrix_ e40 e41 e42 e43];
  destruct (n1 =? M_MAX_UNSIGNED) eqn:E1;
    cbn [negb get4 neighbors_ set_neighbor set_neighbors set4 indices_ matrix_ e40 e41 e42 e43];
  destruct (n2 =? M_MAX_UNSIGNED) eqn:E2;
    cbn [negb get4 neighbors_ set_neighbor set_neighbors set4 indices_ matrix_ e40 e41 e42 e43];
  destruct (n3 =? M_MAX_UNSIGNED) eqn:E3;
    cbn [negb get4 neighbors_ set_neighbor set_neighbors set4 indices_ matrix_ e40 e41 e42 e43];
  (split; [reflexivity | split; [reflexivity | ]]);
  intros j; destruct j as [|[|[|j]]]; cbn [get4 e40 e41 e42 e43];
  rewrite ?E0, ?E1, ?E2, ?E3; first [reflexivity | now apply N.eqb_eq].
Qed.

End Compaction.

Section Compaction2.
Context {F : Type} {SF : Scalar F}.
Variable removed : list bool.

(** The old cells that survive, with their old indices. *)
Definition surviving_cells (tets : list (Tetrahedron F)) : list (N * Tetrahedron F) :=
  List.filter (fun it : N * Tetrahedron F => negb (at_ true removed (fst it)))
              (zip (indices_of tets) tets).

Lemma rebuild_kept (l : list (N * Tetrahedron F)) :
  forall (kept : list (Tetrahedron F)) (map_ : list N),
    fst (foldl (rebuild_step removed) (kept, map_) l)
    = kept ++ map snd (List.filter (fun it : N * Tetrahedron F =>
                                      negb (at_ true removed (fst it))) l).
Proof.
  induction l as [|[i t] l IH]; intros kept map_.
  - cbn. now rewrite app_nil_r.
  - cbn [foldl List.filter]. unfold rebuild_step at 2. cbn [fst snd].
    destruct (at_ true removed i); cbn [negb]; rewrite IH; [reflexivity | ].
    cbn [map snd]. now rewrite <- app_assoc.
Qed.

Lemma survivors_snoc (start count : nat) :
  survivors removed start (S count)
  = (survivors removed start count
     + if survives removed (start + count) then 1 else 0)%nat.
Proof.
  unfold survivors. rewrite seq_S, List.filter_app, length_app. cbn [List.filter].
  destruct (survives removed (start + count)); reflexivity.
Qed.

Lemma survivors_mono (start count count' : nat) :
  (count <= count')%nat -> (survivors removed start count <= survivors removed start count')%nat.
Proof.
  induction 1 as [|c H IH]; [lia | ]. rewrite survivors_snoc. lia.
Qed.

End Compaction2.


Lemma map_filter_Forall2 {A B C : Type} (p1 : A -> bool) (p2 : B -> bool)
    (f1 : A -> C) (f2 : B -> C) (l1 : list A) (l2 : list B) :
  Forall2 (fun x y => p1 x = p2 y /\ f1 x = f2 y) l1 l2 ->
  map f1 (List.filter p1 l1) = map f2 (List.filter p2 l2).
Proof.
  induction 1 as [|x y l1 l2 [Hp Hf] _ IH]; [reflexivity | ].
  cbn [List.filter]. rewrite <- Hp. destruct (p1 x); [ | exact IH].
  cbn [map]. now rewrite Hf, IH.
Qed.

Section Stripped.
Context {F : Type} {SF : Scalar F}.

Lemma shift_corners_list (t : Tetrahedron F) :
  list4 (indices_ (shift_corners t))
  = map (fun corner => usub corner NumSuperMeshVertices) (list4 (indices_ t)).
Proof.
  pose proof (shift_corners_indices t) as H.
  pose proof (H 0%nat) as H0. pose proof (H 1%nat) as H1.
  pose proof (H 2%nat) as H2. pose proof (H 3%nat) as H3.
  cbn [get4] in H0, H1, H2, H3. unfold list4. cbn [map]. congruence.
Qed.

(** The cells that the stripping keeps: live, and with no corner on the
    super mesh. *)
Definition inner_cells_of (removed : list bool) (tets : list (Tetrahedron F))
  : list (N * Tetrahedron F) :=
  List.filter (fun it : N * Tetrahedron F =>
                 negb (at_ true removed (fst it)) && negb (has_super_vertex (snd it)))
              (zip (indices_of tets) tets).

End Stripped.

(** X6.  What "Finalize triangulation" leaves of the cells: exactly the cells
    that are not flagged as removed and have no corner on the super mesh, in
    their order, each corner index lowered by the eight super-mesh vertices.
    The vertices are the same, the eight of the super mesh moved to the
    end. *)
Theorem finalize_keeps_inner_cells {F : Type} {SF : Scalar F} (b : Build F) :
  let m := build_mesh b in
  map (fun t => list4 (indices_ t)) (tetrahedrons_ (finalize b))
  = map (fun it : N * Tetrahedron F =>
           map (fun corner => usub corner NumSuperMeshVertices) (list4 (indices_ (snd it))))
        (inner_cells_of (removed_ (build_ctx b)) (tetrahedrons_ m)) /\
  vertices_ (finalize b) = drop 8 (vertices_ m) ++ take 8 (vertices_ m).
Proof.
  intros m. split; [ | reflexivity].
  unfold finalize.
  destruct (disconnect_super_unlinked m (removed_ (build_ctx b))) as [[Hlen Hun] _].
  pose proof (disconnect_super_flag m (removed_ (build_ctx b))) as Hflag.
  fold m.
  set (d := DisconnectSuperMeshTetrahedrons m (removed_ (build_ctx b))) in *.
  change (tetrahedrons_ (UpdateIgnoredVertices
                           (RemoveSuperMeshVertices
                              (RemoveMarkedTetrahedrons (fst d) (snd d)))))
    with (map shift_corners (tetrahedrons_ (RemoveMarkedTetrahedrons (fst d) (snd d)))).
  unfold RemoveMarkedTetrahedrons. cbn [tetrahedrons_ with_tetrahedrons].
  rewrite rebuild_kept. cbn [app]. rewrite !map_map.
  unfold inner_cells_of.
  apply map_filter_Forall2.
  apply Forall2_same_length_lookup_2.
  { rewrite !length_zip_with, !indices_of_length, Hlen. reflexivity. }
  intros k [i1 t1] [i2 t2] H1 H2.
  apply lookup_zip_with_Some in H1 as (a1 & b1 & E1 & Ha1 & Hb1).
  apply lookup_zip_with_Some in H2 as (a2 & b2 & E2 & Ha2 & Hb2).
  injection E1 as -> ->. injection E2 as -> ->.
  pose proof (lookup_lt_Some _ _ _ Hb2) as Hk.
  rewrite indices_of_lookup in Ha1 by (rewrite Hlen; exact Hk).
  rewrite indices_of_lookup in Ha2 by exact Hk.
  injection Ha1 as <-. injection Ha2 as <-. cbn [fst snd].
  assert (Et1 : at_ Tetrahedron_default (tetrahedrons_ (fst d)) (N.of_nat k) = b1)
    by (unfold at_; now rewrite Nat2N.id, Hb1).
  assert (Et2 : tet m (N.of_nat k) = b2)
    by (unfold tet, at_; now rewrite Nat2N.id, Hb2).
  destruct (Hun (N.of_nat k)) as (Hix & _ & _). rewrite Et1 in Hix. fold (tet m (N.of_nat k)) in Hix.
  rewrite Et2 in Hix. split.
  - rewrite Hflag by (rewrite Nat2N.id; exact Hk). rewrite Et2. apply negb_orb.
  - rewrite shift_corners_list.
    destruct (remap_neighbors_spec
                (snd (foldl (rebuild_step (snd d)) ([], [])
                            (zip (indices_of (tetrahedrons_ (fst d))) (tetrahedrons_ (fst d)))))
                b1) as [-> _].
    now rewrite Hix.
Qed.

(** ** The carve, once more *)

Section CarveShape.
Context {F : Type} {SF : Scalar F}.
Variable md : Constants F.
Variable m : TetrahedralMesh F.
Variable ctx : DelaunayContext F.
Variable position : Vector3 F.

Lemma search_face_NoDup (tetrahedron : Tetrahedron F) (st : DelaunayContext F * list N)
    (faceIndex : nat) :
  search_state md ctx position st -> NoDup (snd st) ->
  NoDup (snd (search_face md position tetrahedron st faceIndex)).
Proof.
  intros [_ Hq _ _ _] Hnd. unfold search_face.
  destruct (get4 (neighbors_ tetrahedron) faceIndex =? M_MAX_UNSIGNED); [exact Hnd | ].
  destruct (is_removed (fst st) (get4 (neighbors_ tetrahedron) faceIndex)) eqn:Hr;
    [exact Hnd | ].
  destruct (IsInsideCircumsphere md (fst st) (get4 (neighbors_ tetrahedron) faceIndex) position);
    [ | exact Hnd].
  cbn [snd]. apply NoDup_app. split; [exact Hnd | split; [ | apply NoDup_singleton]].
  intros t Ht Ht'. apply list_elem_of_singleton in Ht'. subst t.
  destruct (Hq _ Ht) as [H _]. congruence.
Qed.

Lemma search_faces_NoDup (tetrahedron : Tetrahedron F) (faces : list nat) :
  forall st : DelaunayContext F * list N,
    search_state md ctx position st -> NoDup (snd st) ->
    NoDup (snd (foldl (search_face md position tetrahedron) st faces)).
Proof.
  induction faces as [|f faces IH]; intros st Hst Hnd; [exact Hnd | ].
  cbn [foldl]. apply IH.
  - apply (search_face_settles md ctx position tetrahedron st f Hst).
  - now apply search_face_NoDup.
Qed.

Lemma breadth_search_NoDup (fuel : nat) :
  forall (st : DelaunayContext F * list N) (i : nat),
    search_state md ctx position st -> NoDup (snd st) ->
    NoDup (snd (breadth_search md fuel m position st i)).
Proof.
  induction fuel as [|fuel IH]; intros st i Hst Hnd; [exact Hnd | ].
  cbn [breadth_search]. destruct (snd st !! i) as [tetIndex|]; [ | exact Hnd].
  apply IH.
  - apply (search_faces_settle md ctx position (tet m tetIndex) [0; 1; 2; 3]%nat st Hst).
  - now apply search_faces_NoDup.
Qed.

Lemma revert_flags_spheres (queue : list N) :
  forall c : DelaunayContext F,
    circumspheres_ (foldl (fun c0 tetIndex => set_removed c0 tetIndex false) c queue)
    = circumspheres_ c.
Proof.
  induction queue as [|t queue IH]; intros c; [reflexivity | ].
  cbn [foldl]. now rewrite IH.
Qed.

(** Whatever its result, the call leaves the cached circumspheres as they
    were and the vector of flags at its length. *)
Lemma FindAndRemoveIntersected_shape (dumpErrors : bool) :
  let carve := FindAndRemoveIntersected md m ctx position dumpErrors in
  circumspheres_ (carve_ctx carve) = circumspheres_ ctx /\
  length (removed_ (carve_ctx carve)) = length (removed_ ctx).
Proof.
  unfold FindAndRemoveIntersected.
  destruct (find_first_intersected md m ctx position) as [first|] eqn:Hfirst;
    [ | split; reflexivity].
  cbv zeta.
  destruct (breadth_search_from_first md m ctx position first Hfirst) as ([Hs _ Hl _ _] & _ & _).
  set (st := breadth_search md (S (length (removed_ ctx))) m position
                            (set_removed ctx first true, [first]) 0) in *.
  destruct (negb (fst (verify_hole_triangles md m position
                         (collect_hole_triangles m (fst st) (snd st)))) || dumpErrors).
  { cbn [carve_ctx]. rewrite revert_flags_spheres.
    destruct (revert_flags (snd st)
                (set_holeTriangles (fst st)
                   (snd (verify_hole_triangles md m position
                           (collect_hole_triangles m (fst st) (snd st)))))) as (H1 & _ & _).
    cbn [set_holeTriangles removed_ circumspheres_] in *. split; [exact Hs | congruence]. }
  destruct (build_hole_surface _ _) as [holeSurface|]; [ | split; [exact Hs | exact Hl]].
  destruct (negb (IsClosedSurface holeSurface)); split; first [exact Hs | exact Hl].
Qed.

End CarveShape.

(** X7.  What a successful carve hands to the fill.  When
    [FindAndRemoveIntersected] returns true nothing is logged, the hole
    surface is closed, and the list of removed cells is not empty, names no
    cell twice, and names only cells that are within the flags and were live
    at the call. *)
Theorem FindAndRemoveIntersected_success {F : Type} {SF : Scalar F} (md : Constants F)
    (m : TetrahedralMesh F) (ctx : DelaunayContext F) (position : Vector3 F)
    (dumpErrors : bool) :
  let carve := FindAndRemoveIntersected md m ctx position dumpErrors in
  carve_ok carve = true ->
  dumpErrors = false /\
  carve_log carve = [] /\
  carve_debugHighlightEdges carve = debugHighlightEdges_ m /\
  IsClosedSurface (carve_holeSurface carve) = true /\
  carve_removedTetrahedrons carve <> [] /\
  NoDup (carve_removedTetrahedrons carve) /\
  forall tetIndex : N,
    tetIndex ∈ carve_removedTetrahedrons carve ->
    (N.to_nat tetIndex < length (removed_ ctx))%nat /\ is_removed ctx tetIndex = false.
Proof.
  intros carve. subst carve. unfold FindAndRemoveIntersected.
  destruct (find_first_intersected md m ctx position) as [first|] eqn:Hfirst;
    [ | intros H; discriminate H].
  cbv zeta.
  destruct (breadth_search_from_first md m ctx position first Hfirst) as (Hst & _ & Hin).
  pose proof (breadth_search_NoDup md m ctx position (S (length (removed_ ctx)))
                (set_removed ctx first true, [first]) 0) as Hnd.
  set (st := breadth_search md (S (length (removed_ ctx))) m position
                            (set_removed ctx first true, [first]) 0) in *.
  destruct (negb (fst (verify_hole_triangles md m position
                         (collect_hole_triangles m (fst st) (snd st))))) eqn:Hvalid;
    [intros H; discriminate H | ].
  destruct dumpErrors; [intros H; discriminate H | ]. cbn [orb].
  destruct (build_hole_surface _ _) as [holeSurface|]; [ | intros H; discriminate H].
  destruct (negb (IsClosedSurface holeSurface)) eqn:Hclosed; [intros H; discriminate H | ].
  intros _. cbn [carve_log carve_holeSurface carve_removedTetrahedrons carve_debugHighlightEdges].
  apply negb_false_iff in Hclosed.
  split; [reflexivity | split; [reflexivity | split; [reflexivity | split; [exact Hclosed | ]]]].
  split; [intros E; rewrite E in Hin; inversion Hin | split].
  - apply Hnd; [ | apply NoDup_singleton].
    unfold find_first_intersected in Hfirst. apply find_some in Hfirst as [_ Hf].
    apply andb_prop in Hf as [Hlive Hinside]. apply negb_true_iff in Hlive.
    constructor; cbn [fst snd set_removed removed_ circumspheres_].
    + reflexivity.
    + intros t Ht. apply list_elem_of_singleton in Ht. subst t.
      split; [now apply flag_put_live | exact Hinside].
    + now rewrite length_put.
    + intros t Ht. apply list_elem_of_singleton in Ht. subst t. exact Hlive.
    + intros t Ht. rewrite not_elem_of_cons in Ht. destruct Ht as [Hne _].
      unfold is_removed. apply at_put_ne. congruence.
  - intros tetIndex Ht. destruct Hst as [_ _ _ Hlive _]. pose proof (Hlive _ Ht) as Hl.
    split; [ | exact Hl].
    destruct (Nat.lt_ge_cases (N.to_nat tetIndex) (length (removed_ ctx))) as [Hlt|Hge];
      [exact Hlt | ].
    unfold is_removed in Hl. rewrite at_out_of_range in Hl by exact Hge. discriminate Hl.
Qed.

Lemma FindAndRemoveIntersected_success_witness :
  let m := InitializeSuperMesh Mesh_empty (padded_box float_constants [point 0 0 0]) in
  let ctx := fst (initial_context float_constants m) in
  let carve := FindAndRemoveIntersected float_constants m ctx (point 0 0 0) false in
  carve_ok carve = true /\ NoDup (carve_removedTetrahedrons carve).
Proof.
  intros m ctx carve.
  assert (Hok : carve_ok carve = true) by (vm_compute; reflexivity).
  split; [exact Hok | ].
  exact (proj1 (proj2 (proj2 (proj2 (proj2 (proj2
           (FindAndRemoveIntersected_success float_constants m ctx (point 0 0 0) false Hok))))))).
Defined.

(** X8.  The dump mode changes nothing that the triangulation depends on: with
    [dumpErrors] set, [FindAndRemoveIntersected] always returns false, with
    the flags and the circumspheres of the call, an empty list of removed
    cells and an empty hole surface.  So the pass "Dump failed attempts for
    debugging" of [BuildTetrahedrons] leaves the flags, the circumspheres,
    the cells and the vertices as the loop left them. *)
Theorem dump_mode_changes_nothing {F : Type} {SF : Scalar F} (md : Constants F) :
  (forall (m : TetrahedralMesh F) (ctx : DelaunayContext F) (position : Vector3 F),
     let carve := FindAndRemoveIntersected md m ctx position true in
     carve_ok carve = false /\
     removed_ (carve_ctx carve) = removed_ ctx /\
     circumspheres_ (carve_ctx carve) = circumspheres_ ctx /\
     carve_removedTetrahedrons carve = [] /\
     faces_ (carve_holeSurface carve) = []) /\
  (forall (b : Build F) (verticesQueue : list N),
     let b' := dump_failed md b verticesQueue in
     removed_ (build_ctx b') = removed_ (build_ctx b) /\
     circumspheres_ (build_ctx b') = circumspheres_ (build_ctx b) /\
     tetrahedrons_ (build_mesh b') = tetrahedrons_ (build_mesh b) /\
     vertices_ (build_mesh b') = vertices_ (build_mesh b)).
Proof.
  assert (Hcall : forall (m : TetrahedralMesh F) (ctx : DelaunayContext F)
                         (position : Vector3 F),
             let carve := FindAndRemoveIntersected md m ctx position true in
             carve_ok carve = false /\
             removed_ (carve_ctx carve) = removed_ ctx /\
             circumspheres_ (carve_ctx carve) = circumspheres_ ctx /\
             carve_removedTetrahedrons carve = [] /\
             faces_ (carve_holeSurface carve) = []).
  { intros m ctx position carve.
    pose proof (FindAndRemoveIntersected_shape md m ctx position true) as [Hs _].
    fold carve in Hs. subst carve. unfold FindAndRemoveIntersected in *.
    destruct (find_first_intersected md m ctx position) as [first|] eqn:Hfirst;
      [ | repeat split].
    cbv zeta in *.
    destruct (breadth_search_from_first md m ctx position first Hfirst) as (Hst & _ & _).
    rewrite orb_true_r in *. cbn [carve_ok carve_ctx carve_removedTetrahedrons
                                   carve_holeSurface] in *.
    split; [reflexivity | split; [ | split; [exact Hs | split; reflexivity]]].
    eapply revert_flags_restores. exact Hst. }
  split; [exact Hcall | ].
  intros b verticesQueue. unfold dump_failed.
  assert (Hfold : forall (positions queue : list N) (b0 : Build F),
             let b' := foldl (dump_step md positions) b0 queue in
             removed_ (build_ctx b') = removed_ (build_ctx b0) /\
             circumspheres_ (build_ctx b') = circumspheres_ (build_ctx b0) /\
             tetrahedrons_ (build_mesh b') = tetrahedrons_ (build_mesh b0) /\
             vertices_ (build_mesh b') = vertices_ (build_mesh b0)).
  { intros positions queue. induction queue as [|v queue IH]; intros b0; [repeat split | ].
    cbn [foldl]. destruct (IH (dump_step md positions b0 v)) as (H1 & H2 & H3 & H4).
    destruct (Hcall (build_mesh b0) (build_ctx b0)
                    (vertex (build_mesh b0) (at_ 0 positions 0))) as (_ & C1 & C2 & _).
    cbv zeta. rewrite H1, H2, H3, H4. unfold dump_step. cbn [build_ctx build_mesh].
    split; [exact C1 | split; [exact C2 | split; reflexivity]]. }
  apply Hfold.
Qed.

(** ** The parallel vectors of the insertion loop *)

Section InSync.
Context {F : Type} {SF : Scalar F}.
Variable md : Constants F.

(** The flags and the circumspheres of the context run parallel to the
    cells. *)
Definition in_sync (b : Build F) : Prop :=
  length (removed_ (build_ctx b)) = length (tetrahedrons_ (build_mesh b)) /\
  length (circumspheres_ (build_ctx b)) = length (tetrahedrons_ (build_mesh b)).

Lemma fill_step_shape (outputTetrahedrons : list N) (holeSurface : TetrahedralMeshSurface)
    (centerIndex : N) (st : TetrahedralMesh F * DelaunayContext F * list (LogEvent F)) (i : N) :
  let st' := fill_step md outputTetrahedrons holeSurface centerIndex st i in
  vertices_ (fst (fst st')) = vertices_ (fst (fst st)) /\
  length (tetrahedrons_ (fst (fst st'))) = length (tetrahedrons_ (fst (fst st))) /\
  length (removed_ (snd (fst st'))) = length (removed_ (snd (fst st))) /\
  length (circumspheres_ (snd (fst st'))) = length (circumspheres_ (snd (fst st))).
Proof.
  destruct st as [[m c] l]. unfold fill_step. cbv zeta.
  cbn [fst snd vertices_ tetrahedrons_ with_tetrahedrons removed_ circumspheres_
       set_circumsphere set_removed].
  split; [reflexivity | split; [ | split; apply length_put]].
  destruct (negb (tetIndex_ (at_ Triangle_default (faces_ holeSurface) i) =? M_MAX_UNSIGNED));
    now rewrite ?length_put.
Qed.

Lemma FillStarShapedHole_shape (m : TetrahedralMesh F) (ctx : DelaunayContext F)
    (outputTetrahedrons : list N) (holeSurface : TetrahedralMeshSurface) (centerIndex : N) :
  let r := FillStarShapedHole md m ctx outputTetrahedrons holeSurface centerIndex in
  vertices_ (fst (fst r)) = vertices_ m /\
  length (tetrahedrons_ (fst (fst r))) = length (tetrahedrons_ m) /\
  length (removed_ (snd (fst r))) = length (removed_ ctx) /\
  length (circumspheres_ (snd (fst r))) = length (circumspheres_ ctx).
Proof.
  unfold FillStarShapedHole.
  generalize (indices_of (faces_ holeSurface)) as l.
  assert (H : forall (l : list N) (st : TetrahedralMesh F * DelaunayContext F * list (LogEvent F)),
             let r := foldl (fill_step md outputTetrahedrons holeSurface centerIndex) st l in
             vertices_ (fst (fst r)) = vertices_ (fst (fst st)) /\
             length (tetrahedrons_ (fst (fst r))) = length (tetrahedrons_ (fst (fst st))) /\
             length (removed_ (snd (fst r))) = length (removed_ (snd (fst st))) /\
             length (circumspheres_ (snd (fst r))) = length (circumspheres_ (snd (fst st)))).
  { induction l as [|i l IH]; intros st; [repeat split | ].
    cbn [foldl].
    destruct (IH (fill_step md outputTetrahedrons holeSurface centerIndex st i))
      as (H1 & H2 & H3 & H4).
    destruct (fill_step_shape outputTetrahedrons holeSurface centerIndex st i)
      as (G1 & G2 & G3 & G4).
    cbv zeta. rewrite H1, H2, H3, H4. auto. }
  intros l. apply (H l (m, ctx, [])).
Qed.

(** One vertex of the queue: the vertices stay, no cell is dropped, and the
    vectors stay parallel. *)
Lemma insert_vertex_sync (st : Build F * list N) (newVertexIndex : N) :
  in_sync (fst st) ->
  let st' := insert_vertex md st newVertexIndex in
  in_sync (fst st') /\
  vertices_ (build_mesh (fst st')) = vertices_ (build_mesh (fst st)) /\
  (length (tetrahedrons_ (build_mesh (fst st)))
   <= length (tetrahedrons_ (build_mesh (fst st'))))%nat.
Proof.
  destruct st as [b postponed]. intros [S1 S2]. cbn [fst] in S1, S2.
  unfold insert_vertex. cbv zeta.
  destruct (FindAndRemoveIntersected_shape md (build_mesh b) (build_ctx b)
              (vertex (build_mesh b) newVertexIndex) false) as [C1 C2].
  set (c := FindAndRemoveIntersected md (build_mesh b) (build_ctx b)
              (vertex (build_mesh b) newVertexIndex) false) in *.
  destruct (negb (carve_ok c)); cbn [fst build_ctx build_mesh].
  { unfold in_sync. cbn [build_ctx build_mesh]. rewrite C1, C2. auto. }
  rewrite allocate_closed_form.
  set (count := (length (faces_ (carve_holeSurface c))
                 - length (carve_removedTetrahedrons c))%nat).
  cbn [fst snd].
  match goal with
  | |- context [FillStarShapedHole md ?m1 ?c1 ?out ?hs ?v] =>
    destruct (FillStarShapedHole_shape m1 c1 out hs v) as (F1 & F2 & F3 & F4);
    set (f := FillStarShapedHole md m1 c1 out hs v) in *
  end.
  cbn [vertices_ tetrahedrons_ with_tetrahedrons removed_ circumspheres_
       DisconnectRemovedTetrahedrons] in F1, F2, F3, F4.
  rewrite length_app, length_replicate in F2.
  rewrite length_app, length_replicate in F3.
  rewrite length_app, length_replicate, C1 in F4.
  assert (D : length (foldl (fun tets tetIndex =>
                               foldl (disconnect_face tetIndex) tets [0; 1; 2; 3]%nat)
                            (tetrahedrons_ (build_mesh b)) (carve_removedTetrahedrons c))
              = length (tetrahedrons_ (build_mesh b))).
  { apply (disconnect_cells (carve_removedTetrahedrons c) (tetrahedrons_ (build_mesh b))). }
  unfold in_sync. cbn [build_ctx build_mesh].
  rewrite F1, F2, F3, F4, D. repeat split; lia.
Qed.

Lemma process_queue_sync (verticesQueue : list N) :
  forall st : Build F * list N,
    in_sync (fst st) ->
    let st' := foldl (insert_vertex md) st verticesQueue in
    in_sync (fst st') /\
    vertices_ (build_mesh (fst st')) = vertices_ (build_mesh (fst st)) /\
    (length (tetrahedrons_ (build_mesh (fst st)))
     <= length (tetrahedrons_ (build_mesh (fst st'))))%nat.
Proof.
  induction verticesQueue as [|v queue IH]; intros st Hs;
    [split; [exact Hs | split; [reflexivity | cbn; lia]] | ].
  cbn [foldl]. destruct (insert_vertex_sync st v Hs) as (H1 & H2 & H3).
  destruct (IH _ H1) as (G1 & G2 & G3). cbv zeta.
  split; [exact G1 | split; [congruence | lia]].
Qed.

Lemma triangulate_sync (fuel : nat) :
  forall (b : Build F) (verticesQueue : list N),
    in_sync b ->
    let r := triangulate md fuel b verticesQueue in
    in_sync (fst r) /\
    vertices_ (build_mesh (fst r)) = vertices_ (build_mesh b) /\
    (length (tetrahedrons_ (build_mesh b)) <= length (tetrahedrons_ (build_mesh (fst r))))%nat.
Proof.
  induction fuel as [|fuel IH]; intros b queue Hs;
    [split; [exact Hs | split; [reflexivity | cbn; lia]] | ].
  cbn [triangulate]. destruct queue as [|v queue];
    [split; [exact Hs | split; [reflexivity | cbn; lia]] | ].
  destruct (process_queue_sync (v :: queue) (b, []) Hs) as (H1 & H2 & H3).
  cbn [fst] in H2, H3. fold (process_queue md b (v :: queue)) in *.
  destruct (length (v :: queue) =? length (snd (process_queue md b (v :: queue))))%nat.
  - cbn [fst build_mesh]. split; [exact H1 | split; [exact H2 | exact H3]].
  - destruct (IH _ (snd (process_queue md b (v :: queue))) H1) as (G1 & G2 & G3).
    cbv zeta. split; [exact G1 | split; [congruence | lia]].
Qed.

Lemma initial_context_sync (m : TetrahedralMesh F) (positions : list (Vector3 F)) :
  in_sync (mkBuild (with_vertices m (vertices_ m ++ positions))
                   (fst (initial_context md m)) (snd (initial_context md m))).
Proof.
  unfold in_sync, initial_context.
  cbn [build_ctx build_mesh fst removed_ circumspheres_ tetrahedrons_ with_vertices].
  rewrite length_replicate, !length_map, indices_of_length. auto.
Qed.

End InSync.

(** X9.  The insertion loop keeps its vectors parallel: after the loop of
    [BuildTetrahedrons], whatever was inserted or postponed, the flags and
    the cached circumspheres of the context have one entry per cell; the
    loop drops no cell, and the vertices are those of the mesh followed by
    the input positions. *)
Theorem triangulate_points_in_sync {F : Type} {SF : Scalar F} (md : Constants F)
    (m : TetrahedralMesh F) (positions : list (Vector3 F)) :
  let b := fst (triangulate_points md m positions) in
  length (removed_ (build_ctx b)) = length (tetrahedrons_ (build_mesh b)) /\
  length (circumspheres_ (build_ctx b)) = length (tetrahedrons_ (build_mesh b)) /\
  (length (tetrahedrons_ m) <= length (tetrahedrons_ (build_mesh b)))%nat /\
  vertices_ (build_mesh b) = vertices_ m ++ positions.
Proof.
  intros b. subst b. unfold triangulate_points. cbv zeta.
  match goal with
  | |- context [triangulate md ?fuel ?b0 ?q] =>
    destruct (triangulate_sync md fuel b0 q (initial_context_sync md m positions))
      as ([H1 H2] & H3 & H4)
  end.
  split; [exact H1 | split; [exact H2 | split; [exact H4 | exact H3]]].
Qed.

(** ** What the adjacency check depends on *)

Lemma forallb_pointwise {A : Type} (f g : A -> bool) (l : list A) :
  (forall x, f x = g x) -> forallb f l = forallb g l.
Proof. intros H. induction l as [|x l IH]; [reflexivity | ]. cbn. now rewrite H, IH. Qed.

Section AdjacencyKept.
Context {F : Type} {SF : Scalar F}.

Lemma HasNeighbor_neighbors (t t' : Tetrahedron F) (i : N) :
  neighbors_ t' = neighbors_ t -> HasNeighbor t' i = HasNeighbor t i.
Proof. intros H. unfold HasNeighbor, GetNeighborFaceIndex. now rewrite H. Qed.

(** The check reads the number of cells and their neighbour slots, nothing
    else. *)
Lemma IsAdjacencyValid_neighbors (m m' : TetrahedralMesh F) (fullyConnected : bool) :
  length (tetrahedrons_ m') = length (tetrahedrons_ m) ->
  (forall k : N, neighbors_ (tet m' k) = neighbors_ (tet m k)) ->
  IsAdjacencyValid m' fullyConnected = IsAdjacencyValid m fullyConnected.
Proof.
  intros Hlen Hn. unfold IsAdjacencyValid, indices_of. rewrite Hlen.
  apply forallb_pointwise. intros tetIndex. apply forallb_pointwise. intros faceIndex.
  cbv zeta. rewrite (Hn tetIndex).
  rewrite (HasNeighbor_neighbors _ _ _ (Hn (get4 (neighbors_ (tet m tetIndex)) faceIndex))).
  reflexivity.
Qed.

Lemma CalculateInnerMatrices_neighbors (m : TetrahedralMesh F) (k : N) :
  neighbors_ (tet (CalculateInnerMatrices m) k) = neighbors_ (tet m k) /\
  indices_ (tet (CalculateInnerMatrices m) k) = indices_ (tet m k).
Proof.
  destruct (Nat.lt_ge_cases (N.to_nat k) (length (tetrahedrons_ m))) as [Hlt|Hge].
  - unfold tet, CalculateInnerMatrices. cbn [tetrahedrons_ with_tetrahedrons].
    rewrite (at_zip_with_indices _ _ Tetrahedron_default) by exact Hlt.
    destruct (k <? numInnerTetrahedrons_ m); split; reflexivity.
  - unfold tet. rewrite !at_out_of_range; [split; reflexivity | exact Hge | ].
    now rewrite CalculateInnerMatrices_length.
Qed.

Lemma CalculateOuterMatrices_neighbors (md : Constants F) (m : TetrahedralMesh F) (k : N) :
  neighbors_ (tet (CalculateOuterMatrices md m) k) = neighbors_ (tet m k) /\
  (forall j : nat, (j < 3)%nat ->
     get4 (indices_ (tet (CalculateOuterMatrices md m) k)) j = get4 (indices_ (tet m k)) j).
Proof.
  destruct (Nat.lt_ge_cases (N.to_nat k) (length (tetrahedrons_ m))) as [Hlt|Hge].
  - unfold tet, CalculateOuterMatrices. cbn [tetrahedrons_ with_tetrahedrons].
    rewrite (at_zip_with_indices _ _ Tetrahedron_default) by exact Hlt.
    destruct (k <? numInnerTetrahedrons_ m); [split; reflexivity | ].
    rewrite outer_cell_matrix_cases. destruct (s_ltb _ _); [split; reflexivity | ].
    split; [reflexivity | ]. intros j Hj.
    cbn [set_index set_indices set_matrix indices_].
    apply get4_set4_ne; lia.
  - unfold tet. rewrite !at_out_of_range; [split; reflexivity | exact Hge | ].
    unfold CalculateOuterMatrices. cbn [tetrahedrons_ with_tetrahedrons].
    rewrite length_zip_with, indices_of_length. lia.
Qed.

End AdjacencyKept.

(** X10.  The steps that follow the two adjacency assertions of
    [BuildTetrahedrons] cannot invalidate them.  [IsAdjacencyValid] reads
    only the number of cells and their neighbour slots; the two matrix
    passes leave both as they are (of the corners they change at most the
    fourth of an outer cell), and so do [RemoveSuperMeshVertices] and
    [UpdateIgnoredVertices], which run between the compaction and the first
    assertion.  So the check gives the same result on the finished mesh as
    at the assertion. *)
Theorem adjacency_kept_after_assertions {F : Type} {SF : Scalar F} (md : Constants F)
    (m : TetrahedralMesh F) (fullyConnected : bool) :
  let finished := CalculateOuterMatrices md (CalculateInnerMatrices m) in
  (forall k : N,
     neighbors_ (tet finished k) = neighbors_ (tet m k) /\
     forall j : nat, (j < 3)%nat ->
       get4 (indices_ (tet finished k)) j = get4 (indices_ (tet m k)) j) /\
  length (tetrahedrons_ finished) = length (tetrahedrons_ m) /\
  IsAdjacencyValid finished fullyConnected = IsAdjacencyValid m fullyConnected /\
  IsAdjacencyValid (UpdateIgnoredVertices (RemoveSuperMeshVertices m)) fullyConnected
  = IsAdjacencyValid m fullyConnected.
Proof.
  intros finished.
  assert (Hlen : length (tetrahedrons_ finished) = length (tetrahedrons_ m)).
  { subst finished. unfold CalculateOuterMatrices. cbn [tetrahedrons_ with_tetrahedrons].
    rewrite length_zip_with, indices_of_length, CalculateInnerMatrices_length. lia. }
  assert (Hn : forall k : N,
             neighbors_ (tet finished k) = neighbors_ (tet m k) /\
             forall j : nat, (j < 3)%nat ->
               get4 (indices_ (tet finished k)) j = get4 (indices_ (tet m k)) j).
  { intros k. subst finished.
    destruct (CalculateOuterMatrices_neighbors md (CalculateInnerMatrices m) k) as [H1 H2].
    destruct (CalculateInnerMatrices_neighbors m k) as [H3 H4].
    split; [congruence | ]. intros j Hj. rewrite H2 by exact Hj. now rewrite H4. }
  split; [exact Hn | split; [exact Hlen | split]].
  - apply IsAdjacencyValid_neighbors; [exact Hlen | intros k; apply Hn].
  - apply IsAdjacencyValid_neighbors.
    + unfold UpdateIgnoredVertices, RemoveSuperMeshVertices.
      cbn [tetrahedrons_ with_ignoredVertices with_debugEdges with_tetrahedrons]. apply length_map.
    + intros k.
      change (tet (UpdateIgnoredVertices (RemoveSuperMeshVertices m)) k)
        with (tet (RemoveSuperMeshVertices m) k).
      destruct (Nat.lt_ge_cases (N.to_nat k) (length (tetrahedrons_ m))) as [Hin|Hout].
      * rewrite RemoveSuperMeshVertices_tet by exact Hin. apply shift_corners_neighbors.
      * unfold tet. rewrite !at_out_of_range; [reflexivity | exact Hout | ].
        unfold RemoveSuperMeshVertices.
        cbn [tetrahedrons_ with_debugEdges with_tetrahedrons]. now rewrite length_map.
Qed.

(** ** The layout of the finished mesh *)

Section MeshLayout.
Context {F : Type} {SF : Scalar F}.
Variable md : Constants F.

Lemma resize_length {A : Type} (d : A) (v : list A) (n : nat) : length (resize d v n) = n.
Proof. unfold resize. rewrite length_app, length_take, length_replicate. lia. Qed.

Lemma accumulate_normal_length (m : TetrahedralMesh F) (normals : list (Vector3 F))
    (triangle : TetrahedralMeshSurfaceTriangle) :
  length (accumulate_normal m normals triangle) = length normals.
Proof. unfold accumulate_normal. cbn [foldl]. now rewrite !length_put. Qed.

Lemma CalculateHullNormals_length (m : TetrahedralMesh F) (hullSurface : TetrahedralMeshSurface) :
  length (hullNormals_ (CalculateHullNormals m hullSurface)) = length (vertices_ m).
Proof.
  unfold CalculateHullNormals. cbn [hullNormals_ with_hullNormals]. rewrite length_map.
  generalize (resize_length Vector3_ZERO (hullNormals_ m) (length (vertices_ m))).
  generalize (resize Vector3_ZERO (hullNormals_ m) (length (vertices_ m))) as normals.
  induction (faces_ hullSurface) as [|t l IH]; intros normals H; [exact H | ].
  cbn [foldl]. apply IH. now rewrite accumulate_normal_length.
Qed.

Lemma BuildOuterTetrahedrons_count (m : TetrahedralMesh F) (hullSurface : TetrahedralMeshSurface) :
  let m' := BuildOuterTetrahedrons md m hullSurface in
  numInnerTetrahedrons_ m' = size (tetrahedrons_ m) /\
  length (tetrahedrons_ m') = (length (tetrahedrons_ m) + length (faces_ hullSurface))%nat.
Proof.
  unfold BuildOuterTetrahedrons.
  cbn [numInnerTetrahedrons_ tetrahedrons_ with_tetrahedrons with_numInner].
  split; [reflexivity | ]. now rewrite foldl_outer_step_length, resize_length.
Qed.

Lemma InitializeSuperMesh_vertices_length (m : TetrahedralMesh F) (bb : BoundingBox F) :
  length (vertices_ (InitializeSuperMesh m bb)) = 8%nat.
Proof. reflexivity. Qed.

End MeshLayout.

Section InnerCorners.
Context {F : Type} {SF : Scalar F}.
Variable md : Constants F.

Lemma foldl_outer_step_inner (numInner : N) (hullSurface : TetrahedralMeshSurface)
    (l : list N) (k : nat) :
  (forall x, x ∈ l -> k <> N.to_nat x) ->
  forall tets : list (Tetrahedron F),
    (indices_ <$> foldl (outer_step md numInner hullSurface) tets l) !! k
    = (indices_ <$> tets) !! k.
Proof.
  induction l as [|x l IH]; intros Hl tets; [reflexivity | ].
  cbn [foldl]. rewrite IH by (intros y Hy; apply Hl; now apply list_elem_of_further).
  rewrite outer_step_indices. apply list_lookup_insert_ne.
  intros E. apply (Hl x); [apply list_elem_of_here | congruence].
Qed.

(** Building the outer space and the matrices leaves the corners of the
    inner cells as the stripping left them. *)
Lemma inner_corners_kept (m1 : TetrahedralMesh F) (k : N) :
  (N.to_nat k < length (tetrahedrons_ m1))%nat ->
  indices_ (tet (CalculateOuterMatrices md (CalculateInnerMatrices (build_outer_space md m1))) k)
  = indices_ (tet m1 k).
Proof.
  intros Hk. unfold build_outer_space. cbv zeta.
  set (hs := BuildHullSurface m1). set (m2 := CalculateHullNormals m1 hs).
  destruct (BuildOuterTetrahedrons_count md m2 hs) as [Hnum Hlen].
  set (m3 := BuildOuterTetrahedrons md m2 hs) in *.
  change (tetrahedrons_ m2) with (tetrahedrons_ m1) in Hnum, Hlen.
  rewrite CalculateOuterMatrices_inner.
  - destruct (CalculateInnerMatrices_neighbors m3 k) as [_ ->].
    assert (H : (indices_ <$> tetrahedrons_ m3) !! N.to_nat k
                = (indices_ <$> tetrahedrons_ m1) !! N.to_nat k).
    { subst m3. unfold BuildOuterTetrahedrons.
      cbn [tetrahedrons_ with_tetrahedrons with_numInner].
      change (tetrahedrons_ m2) with (tetrahedrons_ m1).
      rewrite foldl_outer_step_inner.
      - rewrite !list_lookup_fmap. unfold resize.
        rewrite lookup_app_l by (rewrite length_take; lia).
        now rewrite lookup_take_lt by lia.
      - intros x Hx. apply list_elem_of_fmap in Hx as (n & -> & Hn).
        apply elem_of_seq in Hn. lia. }
    rewrite !list_lookup_fmap in H. unfold tet, at_.
    destruct (tetrahedrons_ m3 !! N.to_nat k) as [t3|] eqn:E3;
      destruct (tetrahedrons_ m1 !! N.to_nat k) as [t1|] eqn:E1; cbn in H |- *;
      congruence.
  - change (numInnerTetrahedrons_ (CalculateInnerMatrices m3)) with (numInnerTetrahedrons_ m3).
    rewrite Hnum. unfold size. lia.
  - rewrite CalculateInnerMatrices_length, Hlen. lia.
Qed.

End InnerCorners.

(** X11.  The layout of the mesh [Define] builds, for any input.  Input
    position [i] is vertex [i]: the vertices are the positions, in order,
    followed by the eight corners of the super mesh.  There is one hull
    normal per vertex, and the inner cells come first, so the inner count
    never exceeds the number of cells.  The ignored vertices are exactly the
    indices of the input positions that are no corner of any inner cell. *)
Theorem Define_layout {F : Type} {SF : Scalar F} (md : Constants F)
    (m : TetrahedralMesh F) (positions : list (Vector3 F)) :
  let r := fst (Define md m positions) in
  vertices_ r
  = positions ++ vertices_ (InitializeSuperMesh m (padded_box md positions)) /\
  length (hullNormals_ r) = (length positions + 8)%nat /\
  (N.to_nat (numInnerTetrahedrons_ r) <= length (tetrahedrons_ r))%nat /\
  forall v : N,
    v ∈ ignoredVertices_ r <->
    (N.to_nat v < length positions)%nat /\
    forall k : N, k < numInnerTetrahedrons_ r -> v ∉ list4 (indices_ (tet r k)).
Proof.
  intros r. subst r. unfold Define, BuildTetrahedrons. cbv zeta. cbn [fst].
  set (m0 := InitializeSuperMesh m (padded_box md positions)).
  unfold triangulate_and_strip. cbv zeta. cbn [fst].
  assert (Hv : vertices_ (build_mesh (fst (triangulate_points md m0 positions)))
               = vertices_ m0 ++ positions).
  { unfold triangulate_points. cbv zeta.
    match goal with
    | |- context [triangulate md ?fuel ?b0 ?q] =>
      destruct (triangulate_sync md fuel b0 q (initial_context_sync md m0 positions))
        as (_ & H & _)
    end.
    exact H. }
  set (t := triangulate_points md m0 positions) in *.
  set (b := dump_failed md (mkBuild (with_debugEdges (build_mesh (fst t)) [])
                                    (build_ctx (fst t)) (build_log (fst t))) (snd t)).
  destruct (dump_failed_mesh md (mkBuild (with_debugEdges (build_mesh (fst t)) [])
                                        (build_ctx (fst t)) (build_log (fst t))) (snd t))
    as [_ Hdv].
  fold b in Hdv. cbn [build_mesh vertices_ with_debugEdges] in Hdv. rewrite Hv in Hdv.
  assert (Hfin : vertices_ (finalize b)
                 = drop 8 (vertices_ (build_mesh b)) ++ take 8 (vertices_ (build_mesh b)))
    by reflexivity.
  rewrite Hdv in Hfin.
  assert (Hm0 : length (vertices_ m0) = 8%nat) by reflexivity.
  rewrite drop_app_length', take_app_length' in Hfin by exact Hm0.
  assert (Hignored : forall v : N,
             v ∈ ignoredVertices_ (finalize b) <->
             (N.to_nat v < length positions)%nat /\
             forall t0, t0 ∈ tetrahedrons_ (finalize b) -> v ∉ list4 (indices_ t0)).
  { intros v. unfold finalize. cbv zeta.
    match goal with
    | |- _ ∈ ignoredVertices_ (UpdateIgnoredVertices ?mm) <-> _ =>
      assert (Hn : length (vertices_ mm) = (length positions + 8)%nat)
        by (change (vertices_ mm) with (vertices_ (finalize b));
            rewrite Hfin, length_app, Hm0; reflexivity);
      rewrite (UpdateIgnoredVertices_elem mm v ltac:(lia)), Hn;
      change (tetrahedrons_ (UpdateIgnoredVertices mm)) with (tetrahedrons_ mm)
    end.
    replace (length positions + 8 - 8)%nat with (length positions) by lia. reflexivity. }
  set (m1 := finalize b) in *.
  assert (Hlen : length (vertices_ m1) = (length positions + 8)%nat)
    by (rewrite Hfin, length_app, Hm0; reflexivity).
  assert (Hnum : numInnerTetrahedrons_
                   (CalculateOuterMatrices md (CalculateInnerMatrices (build_outer_space md m1)))
                 = size (tetrahedrons_ m1)) by reflexivity.
  split; [exact Hfin | split; [ | split]].
  - unfold build_outer_space. cbv zeta.
    change (length (hullNormals_ (CalculateHullNormals m1 (BuildHullSurface m1)))
            = (length positions + 8)%nat).
    now rewrite CalculateHullNormals_length.
  - rewrite Hnum. unfold build_outer_space. cbv zeta.
    set (m2 := CalculateHullNormals m1 (BuildHullSurface m1)).
    destruct (BuildOuterTetrahedrons_count md m2 (BuildHullSurface m1)) as [_ H2].
    set (m3 := BuildOuterTetrahedrons md m2 (BuildHullSurface m1)) in *.
    assert (H3 : length (tetrahedrons_ (CalculateOuterMatrices md (CalculateInnerMatrices m3)))
                 = length (tetrahedrons_ m3)).
    { unfold CalculateOuterMatrices. cbn [tetrahedrons_ with_tetrahedrons].
      rewrite length_zip_with, indices_of_length, CalculateInnerMatrices_length. lia. }
    rewrite H3, H2. change (tetrahedrons_ m2) with (tetrahedrons_ m1). unfold size. lia.
  - intros v.
    change (ignoredVertices_ (CalculateOuterMatrices md
              (CalculateInnerMatrices (build_outer_space md m1))))
      with (ignoredVertices_ m1).
    rewrite Hignored, Hnum. unfold size.
    split; intros [Hlt Hunused]; (split; [exact Hlt | ]).
    + intros k Hk. rewrite inner_corners_kept by lia.
      apply Hunused. unfold tet, at_.
      destruct (lookup_lt_is_Some_2 (tetrahedrons_ m1) (N.to_nat k) ltac:(lia)) as [t0 E].
      rewrite E. cbn. now apply list_elem_of_lookup_2 with (N.to_nat k).
    + intros t0 Hin. apply list_elem_of_lookup_1 in Hin as [k Hk].
      pose proof (lookup_lt_Some _ _ _ Hk) as Hlt'.
      specialize (Hunused (N.of_nat k) ltac:(lia)).
      rewrite inner_corners_kept in Hunused by (rewrite Nat2N.id; exact Hlt').
      unfold tet, at_ in Hunused. rewrite Nat2N.id, Hk in Hunused. exact Hunused.
Qed.

(** X12.  [Define] on no positions: the loop is not entered, every cell of the
    super mesh is stripped, and the mesh is left without cells, inner or
    outer, with the eight corners of the super mesh as its only vertices and
    no ignored vertex; the log holds what the circumspheres of the five
    super cells logged and nothing else. *)
Theorem Define_empty {F : Type} {SF : Scalar F} (md : Constants F) (m : TetrahedralMesh F) :
  let m0 := InitializeSuperMesh m (padded_box md []) in
  let r := Define md m [] in
  tetrahedrons_ (fst r) = [] /\
  numInnerTetrahedrons_ (fst r) = 0 /\
  ignoredVertices_ (fst r) = [] /\
  vertices_ (fst r) = vertices_ m0 /\
  debugHighlightEdges_ (fst r) = [] /\
  snd r = snd (initial_context md m0).
Proof.
  intros m0 r. subst r m0. repeat split.
Qed.

(** X13.  The first exit of [FindAndRemoveIntersected].  The error "Cannot
    update tetrahedral mesh" is logged exactly when no live cell of the mesh
    has the position in its cached circumsphere; the call then returns false
    and leaves the context as it was, with an empty list of removed cells and
    an empty hole surface. *)
Theorem FindAndRemoveIntersected_no_cell {F : Type} {SF : Scalar F} (md : Constants F)
    (m : TetrahedralMesh F) (ctx : DelaunayContext F) (position : Vector3 F)
    (dumpErrors : bool) :
  let carve := FindAndRemoveIntersected md m ctx position dumpErrors in
  (carve_log carve = [LogError_CannotUpdateMesh position] <->
   forall tetIndex : N,
     (N.to_nat tetIndex < length (tetrahedrons_ m))%nat ->
     is_removed ctx tetIndex = true \/
     IsInsideCircumsphere md ctx tetIndex position = false) /\
  (carve_log carve = [LogError_CannotUpdateMesh position] ->
   carve_ok carve = false /\ carve_ctx carve = ctx /\
   carve_removedTetrahedrons carve = [] /\ faces_ (carve_holeSurface carve) = []).
Proof.
  intros carve. subst carve. unfold FindAndRemoveIntersected.
  destruct (find_first_intersected md m ctx position) as [first|] eqn:Hfirst.
  - assert (Hsome : ~ forall tetIndex : N,
                        (N.to_nat tetIndex < length (tetrahedrons_ m))%nat ->
                        is_removed ctx tetIndex = true \/
                        IsInsideCircumsphere md ctx tetIndex position = false).
    { intros Hall. unfold find_first_intersected in Hfirst.
      apply find_some in Hfirst as [Hin Hf]. apply list_elem_of_In, elem_of_indices_of in Hin.
      apply andb_prop in Hf as [H1 H2]. apply negb_true_iff in H1.
      destruct (Hall first Hin); congruence. }
    cbv zeta.
    destruct (negb _ || dumpErrors);
      [cbn [carve_log]; split; [split; [intros H; discriminate H | tauto]
                               | intros H; discriminate H] | ].
    destruct (build_hole_surface _ _) as [holeSurface|];
      [ | cbn [carve_log]; split; [split; [intros H; discriminate H | tauto]
                                  | intros H; discriminate H]].
    destruct (negb (IsClosedSurface holeSurface));
      cbn [carve_log]; (split; [split; [intros H; discriminate H | tauto]
                               | intros H; discriminate H]).
  - cbn [carve_log carve_ok carve_ctx carve_removedTetrahedrons carve_holeSurface].
    split; [ | intros _; repeat split].
    split; [ | reflexivity]. intros _ tetIndex Hlt.
    unfold find_first_intersected in Hfirst.
    pose proof (find_none _ _ Hfirst tetIndex) as Hn. cbv beta in Hn.
    rewrite <- list_elem_of_In, elem_of_indices_of in Hn. specialize (Hn Hlt).
    apply andb_false_iff in Hn as [Hn|Hn]; [left; now apply negb_false_iff | now right].
Qed.

(** ** Hull normals *)

Section HullNormals.
Context {F : Type} {SF : Scalar F}.

Lemma accumulate_normal_other (m : TetrahedralMesh F) (normals : list (Vector3 F))
    (triangle : TetrahedralMeshSurfaceTriangle) (v : N) :
  v ∉ list3 (tri_indices_ triangle) ->
  at_ Vector3_ZERO (accumulate_normal m normals triangle) v = at_ Vector3_ZERO normals v.
Proof.
  intros Hv. unfold list3 in Hv. rewrite !not_elem_of_cons in Hv.
  destruct Hv as (H0 & H1 & H2 & _).
  unfold accumulate_normal. cbn [foldl get3].
  rewrite !at_put_ne by congruence. reflexivity.
Qed.

End HullNormals.

(** X14.  [CalculateHullNormals] gives one normal per vertex, and a vertex that
    lies on no face of the hull surface and had no normal before keeps the
    zero vector: nothing is accumulated for it and the zero vector is not
    normalised.  (The comparison of the zero vector with itself is assumed
    to hold, as it does for floating-point and for real numbers.) *)
Theorem CalculateHullNormals_off_hull {F : Type} {SF : Scalar F}
    (m : TetrahedralMesh F) (hullSurface : TetrahedralMeshSurface) (v : N) :
  s_eqb (s_of_Z 0 : F) (s_of_Z 0) = true ->
  at_ Vector3_ZERO (hullNormals_ m) v = Vector3_ZERO ->
  (forall triangle, triangle ∈ faces_ hullSurface -> v ∉ list3 (tri_indices_ triangle)) ->
  let m' := CalculateHullNormals m hullSurface in
  length (hullNormals_ m') = length (vertices_ m) /\
  at_ Vector3_ZERO (hullNormals_ m') v = Vector3_ZERO.
Proof.
  intros Hzero Hold Hoff m'. split; [apply CalculateHullNormals_length | ].
  subst m'. unfold CalculateHullNormals. cbn [hullNormals_ with_hullNormals].
  set (normals0 := resize Vector3_ZERO (hullNormals_ m) (length (vertices_ m))).
  assert (H0 : at_ Vector3_ZERO normals0 v = Vector3_ZERO).
  { subst normals0. unfold resize, at_.
    destruct (Nat.lt_ge_cases (N.to_nat v)
                (length (take (length (vertices_ m)) (hullNormals_ m)))) as [Hlt|Hge].
    - rewrite lookup_app_l by exact Hlt. rewrite length_take in Hlt.
      rewrite lookup_take_lt by lia. exact Hold.
    - rewrite lookup_app_r by exact Hge.
      destruct (replicate _ _ !! _) as [x|] eqn:E; [ | reflexivity].
      apply lookup_replicate in E as [-> _]. reflexivity. }
  assert (H1 : at_ Vector3_ZERO (foldl (accumulate_normal m) normals0 (faces_ hullSurface)) v
               = Vector3_ZERO).
  { revert H0. generalize normals0 as normals.
    induction (faces_ hullSurface) as [|t l IH]; intros normals H0; [exact H0 | ].
    cbn [foldl]. apply IH.
    - intros triangle Hin. apply Hoff. now apply list_elem_of_further.
    - rewrite accumulate_normal_other; [exact H0 | apply Hoff, list_elem_of_here]. }
  unfold at_ in *. rewrite list_lookup_fmap.
  destruct (foldl (accumulate_normal m) normals0 (faces_ hullSurface) !! N.to_nat v)
    as [x|]; [ | reflexivity].
  cbn in H1. subst x. cbn [fmap option_fmap option_map default].
  unfold veqb, Vector3_ZERO. cbn [x_ y_ z_]. rewrite Hzero. reflexivity.
Qed.

Lemma CalculateHullNormals_off_hull_witness :
  let m := mkMesh [point 0 0 0; point 1 0 0; point 0 1 0; point 0 0 1; point 5 5 5]
                  [mkTetrahedron (mk4 0 1 2 3)
                     (mk4 M_MAX_UNSIGNED M_MAX_UNSIGNED M_MAX_UNSIGNED M_MAX_UNSIGNED)
                     Matrix3x4_IDENTITY] [] [] 0 [] : TetrahedralMesh float in
  at_ Vector3_ZERO (hullNormals_ (CalculateHullNormals m (BuildHullSurface m))) 4 = Vector3_ZERO.
Proof.
  intros m.
  refine (proj2 (CalculateHullNormals_off_hull m (BuildHullSurface m) 4 _ _ _)).
  - vm_compute. reflexivity.
  - vm_compute. reflexivity.
  - intros triangle Hin. vm_compute in Hin.
    repeat (apply elem_of_cons in Hin as [->|Hin];
            [vm_compute; intros H; repeat (apply elem_of_cons in H as [H|H]; [discriminate H | ]);
             inversion H | ]).
    inversion Hin.
Defined.

(** ** The links of the outer cells *)

Section OuterLinks.
Context {F : Type} {SF : Scalar F}.
Variable md : Constants F.
Variable hullSurface : TetrahedralMeshSurface.
Variable numInner : nat.

Let hface (k : nat) : TetrahedralMeshSurfaceTriangle :=
  at_ Triangle_default (faces_ hullSurface) (N.of_nat k).
Let ocell (k : nat) : N := N.of_nat (numInner + k).

(** The hull faces refer to inner cells and to faces of them, each to a
    face of its own. *)
Definition hull_faces_refer_inside : Prop :=
  forall k : nat, (k < length (faces_ hullSurface))%nat ->
    (N.to_nat (tetIndex_ (hface k)) < numInner)%nat /\
    tetFace_ (hface k) < 4 /\
    forall k' : nat, (k' < length (faces_ hullSurface))%nat -> k' <> k ->
      tetIndex_ (hface k') = tetIndex_ (hface k) -> tetFace_ (hface k') <> tetFace_ (hface k).

(** What the first [p] iterations of the loop have established. *)
Record outer_linked (tets0 tets : list (Tetrahedron F)) (p : nat) : Prop := {
  ol_length : length tets = length tets0;
  ol_inner : forall i : N, (N.to_nat i < numInner)%nat ->
    indices_ (at_ Tetrahedron_default tets i) = indices_ (at_ Tetrahedron_default tets0 i) /\
    matrix_ (at_ Tetrahedron_default tets i) = matrix_ (at_ Tetrahedron_default tets0 i);
  ol_outer : forall k : nat, (k < p)%nat ->
    get4 (neighbors_ (at_ Tetrahedron_default tets (ocell k))) 3 = tetIndex_ (hface k) /\
    forall j : nat, (j < 3)%nat ->
      get4 (neighbors_ (at_ Tetrahedron_default tets (ocell k))) j
      = uadd (N.of_nat numInner) (get3 (tri_neighbors_ (hface k)) j);
  ol_back : forall k : nat, (k < p)%nat ->
    get4 (neighbors_ (at_ Tetrahedron_default tets (tetIndex_ (hface k))))
         (N.to_nat (tetFace_ (hface k))) = ocell k
}.

Lemma outer_step_linked (tets0 tets : list (Tetrahedron F)) (p : nat) :
  hull_faces_refer_inside ->
  length tets0 = (numInner + length (faces_ hullSurface))%nat ->
  (p < length (faces_ hullSurface))%nat ->
  outer_linked tets0 tets p ->
  outer_linked tets0 (outer_step md (N.of_nat numInner) hullSurface tets (ocell p)) (S p).
Proof.
  intros Href Hlen0 Hp [Hlen Hinner Houter Hback].
  destruct (Href p Hp) as (Hti & Htf & Hown).
  unfold outer_step.
  replace (ocell p - N.of_nat numInner) with (N.of_nat p) by (unfold ocell; lia).
  fold (hface p).
  set (cell := set_neighbor
                 (set_index
                    (foldl (fun t faceIndex =>
                              set_neighbor
                                (set_index t faceIndex (get3 (tri_indices_ (hface p)) faceIndex))
                                faceIndex
                                (uadd (N.of_nat numInner)
                                      (get3 (tri_neighbors_ (hface p)) faceIndex)))
                           (at_ Tetrahedron_default tets (ocell p)) [0; 1; 2]%nat)
                    3 (Infinity3 md))
                 3 (tetIndex_ (hface p))).
  set (tets1 := put tets (ocell p) cell).
  assert (Hop : (N.to_nat (ocell p) < length tets)%nat) by (unfold ocell; lia).
  assert (Hne : ocell p <> tetIndex_ (hface p)) by (unfold ocell; lia).
  assert (Hcell : at_ Tetrahedron_default tets1 (ocell p) = cell)
    by (subst tets1; now apply at_put_eq).
  assert (Hinner1 : at_ Tetrahedron_default tets1 (tetIndex_ (hface p))
                    = at_ Tetrahedron_default tets (tetIndex_ (hface p)))
    by (subst tets1; now apply at_put_ne).
  assert (Hti1 : (N.to_nat (tetIndex_ (hface p)) < length tets1)%nat)
    by (subst tets1; rewrite length_put; unfold ocell in Hop; lia).
  constructor.
  - rewrite length_put. subst tets1. rewrite length_put. exact Hlen.
  - intros i Hi.
    destruct (N.eq_dec (tetIndex_ (hface p)) i) as [<-|Hni].
    + rewrite at_put_eq by exact Hti1. cbn [set_neighbor set_neighbors indices_ matrix_].
      rewrite Hinner1. now apply Hinner.
    + rewrite at_put_ne by exact Hni. subst tets1.
      rewrite at_put_ne by (unfold ocell; lia). now apply Hinner.
  - intros k Hk.
    assert (Hnk : tetIndex_ (hface p) <> ocell k) by (unfold ocell; lia).
    rewrite at_put_ne by exact Hnk.
    destruct (Nat.eq_dec k p) as [->|Hkp].
    + rewrite Hcell. subst cell. split; [reflexivity | ].
      intros j Hj. destruct (at_ Tetrahedron_default tets (ocell p)) as [ix [n0 n1 n2 n3] mat].
      destruct j as [|[|[|j]]]; [reflexivity.. | lia].
    + subst tets1. rewrite at_put_ne by (unfold ocell; lia). apply Houter. lia.
  - intros k Hk.
    destruct (Nat.eq_dec k p) as [->|Hkp].
    + rewrite at_put_eq by exact Hti1. cbn [set_neighbor set_neighbors neighbors_].
      apply get4_set4_eq. lia.
    + assert (Hk' : (k < p)%nat) by lia.
      destruct (Href k ltac:(lia)) as (Htik & Htfk & _).
      destruct (N.eq_dec (tetIndex_ (hface p)) (tetIndex_ (hface k))) as [E|E].
      * rewrite <- E. rewrite at_put_eq by exact Hti1.
        cbn [set_neighbor set_neighbors neighbors_].
        rewrite get4_set4_ne; [ | lia | ].
        -- rewrite Hinner1, E. now apply Hback.
        -- intros E'. apply (Hown k ltac:(lia) Hkp (eq_sym E)). lia.
      * rewrite at_put_ne by exact E. subst tets1.
        rewrite at_put_ne by (unfold ocell; lia). now apply Hback.
Qed.

Lemma outer_steps_linked (tets0 : list (Tetrahedron F)) (p : nat) :
  hull_faces_refer_inside ->
  length tets0 = (numInner + length (faces_ hullSurface))%nat ->
  (p <= length (faces_ hullSurface))%nat ->
  outer_linked tets0
    (foldl (outer_step md (N.of_nat numInner) hullSurface) tets0
           (map N.of_nat (seq numInner p))) p.
Proof.
  intros Href Hlen0. induction p as [|p IH]; intros Hp.
  - cbn. constructor; [reflexivity | auto | intros k Hk; lia | intros k Hk; lia].
  - rewrite seq_S, map_app, foldl_app. cbn [map foldl].
    apply outer_step_linked; [exact Href | exact Hlen0 | lia | apply IH; lia].
Qed.

End OuterLinks.

(** X15.  [BuildOuterTetrahedrons] ties every outer cell to the inner cell
    behind its hull face.  When every face of the hull surface refers to an
    inner cell and to one of its four faces, no two to the same, then the
    outer cell of hull face [k] names that inner cell in its fourth neighbour
    slot, the inner cell names the outer cell across the face referred to,
    the other three slots of the outer cell are the neighbours of the hull
    face shifted by the number of inner cells, and the inner cells keep
    their corners and matrices. *)
Theorem BuildOuterTetrahedrons_links {F : Type} {SF : Scalar F} (md : Constants F)
    (m : TetrahedralMesh F) (hullSurface : TetrahedralMeshSurface) :
  hull_faces_refer_inside hullSurface (length (tetrahedrons_ m)) ->
  let m' := BuildOuterTetrahedrons md m hullSurface in
  let numInner := length (tetrahedrons_ m) in
  (forall k : nat, (k < length (faces_ hullSurface))%nat ->
     let face := at_ Triangle_default (faces_ hullSurface) (N.of_nat k) in
     let outer := N.of_nat (numInner + k) in
     get4 (neighbors_ (tet m' outer)) 3 = tetIndex_ face /\
     get4 (neighbors_ (tet m' (tetIndex_ face))) (N.to_nat (tetFace_ face)) = outer /\
     forall j : nat, (j < 3)%nat ->
       get4 (neighbors_ (tet m' outer)) j
       = uadd (N.of_nat numInner) (get3 (tri_neighbors_ face) j)) /\
  (forall i : N, (N.to_nat i < numInner)%nat ->
     indices_ (tet m' i) = indices_ (tet m i) /\ matrix_ (tet m' i) = matrix_ (tet m i)).
Proof.
  intros Href m' numInner.
  set (tets0 := resize Tetrahedron_default (tetrahedrons_ m)
                       (numInner + length (faces_ hullSurface))).
  assert (Hlen0 : length tets0 = (numInner + length (faces_ hullSurface))%nat)
    by apply resize_length.
  pose proof (outer_steps_linked md hullSurface numInner tets0 (length (faces_ hullSurface))
                Href Hlen0 (Nat.le_refl _)) as [Hlen Hinner Houter Hback].
  assert (Hm' : tetrahedrons_ m'
                = foldl (outer_step md (N.of_nat numInner) hullSurface) tets0
                        (map N.of_nat (seq numInner (length (faces_ hullSurface))))).
  { subst m'. unfold BuildOuterTetrahedrons.
    cbn [tetrahedrons_ with_tetrahedrons with_numInner]. fold numInner. fold tets0.
    rewrite Hlen0. do 3 f_equal. lia. }
  unfold tet. rewrite Hm'. split.
  - intros k Hk. cbv zeta. destruct (Houter k Hk) as [H3 Hj].
    split; [exact H3 | split; [now apply Hback | exact Hj]].
  - intros i Hi. destruct (Hinner i Hi) as [H1 H2]. rewrite H1, H2.
    subst tets0. unfold resize, at_.
    rewrite lookup_app_l by (rewrite length_take; lia).
    rewrite lookup_take_lt by lia. split; reflexivity.
Qed.

Lemma BuildOuterTetrahedrons_links_witness :
  let hullSurface := BuildHullSurface single_cell_mesh in
  let m' := BuildOuterTetrahedrons float_constants single_cell_mesh hullSurface in
  get4 (neighbors_ (tet m' 1)) 3 = 0.
Proof.
  intros hullSurface m'.
  assert (Href : hull_faces_refer_inside hullSurface (length (tetrahedrons_ single_cell_mesh))).
  { intros k Hk. change (length (faces_ hullSurface)) with 4%nat in Hk.
    do 4 (destruct k as [|k];
          [split; [vm_compute; lia | split; [vm_compute; reflexivity | ]];
           intros k' Hk' Hne _; change (length (faces_ hullSurface)) with 4%nat in Hk';
           do 4 (destruct k' as [|k']; [first [congruence | vm_compute; discriminate] | ]); lia
          | ]).
    lia. }
  exact (proj1 (proj1 (BuildOuterTetrahedrons_links float_constants single_cell_mesh
                         hullSurface Href) 0%nat ltac:(vm_compute; lia))).
Defined.

(** ** The edges of the inner cells *)

(** [operator<] of [ea::pair<unsigned, unsigned>]: the lexicographic
    order. *)
Definition edge_ltb (e1 e2 : N * N) : bool :=
  (fst e1 <? fst e2) || ((fst e1 =? fst e2) && (snd e1 <? snd e2)).

(** [ea::sort(edges.begin(), edges.end())]: the edges in increasing order.
    The order is total and equivalent pairs are equal, so the result does not
    depend on the algorithm; it is computed here by insertion. *)
Fixpoint insert_edge (e : N * N) (l : list (N * N)) : list (N * N) :=
  match l with
  | [] => [e]
  | x :: rest => if edge_ltb x e then x :: insert_edge e rest else e :: l
  end.

Definition sort_edges (l : list (N * N)) : list (N * N) := foldr insert_edge [] l.

(** [ea::unique]: of every run of equal consecutive elements the first is
    kept. *)
Fixpoint unique_from (previous : N * N) (l : list (N * N)) : list (N * N) :=
  match l with
  | [] => []
  | x :: rest =>
    if edge_eqb previous x then unique_from previous rest else x :: unique_from x rest
  end.

Definition unique_edges (l : list (N * N)) : list (N * N) :=
  match l with
  | [] => []
  | x :: rest => x :: unique_from x rest
  end.

Section CollectEdges.
Context {F : Type} {SF : Scalar F}.

(** "Collect everything": the sixteen ordered pairs of corners of one
    cell. *)
Definition cell_pairs (tetrahedron : Tetrahedron F) : list (N * N) :=
  flat_map (fun i =>
              map (fun j => (get4 (indices_ tetrahedron) i, get4 (indices_ tetrahedron) j))
                  [0; 1; 2; 3]%nat)
           [0; 1; 2; 3]%nat.

Definition CollectEdges (m : TetrahedralMesh F) : list (N * N) :=
  let collected :=
    flat_map (fun tetIndex => cell_pairs (tet m tetIndex))
             (map N.of_nat (seq 0 (N.to_nat (numInnerTetrahedrons_ m)))) in
  let swapped :=
    map (fun edge : N * N => if snd edge <? fst edge then (snd edge, fst edge) else edge)
        collected in
  unique_edges (sort_edges swapped).

End CollectEdges.

(** The order as a proposition. *)
Definition edge_lt (e1 e2 : N * N) : Prop :=
  fst e1 < fst e2 \/ (fst e1 = fst e2 /\ snd e1 < snd e2).
Definition edge_le (e1 e2 : N * N) : Prop := e1 = e2 \/ edge_lt e1 e2.

Lemma edge_ltb_lt (e1 e2 : N * N) : edge_ltb e1 e2 = true <-> edge_lt e1 e2.
Proof.
  unfold edge_ltb, edge_lt.
  rewrite orb_true_iff, andb_true_iff, !N.ltb_lt, N.eqb_eq. reflexivity.
Qed.

Lemma edge_ltb_ge (e1 e2 : N * N) : edge_ltb e1 e2 = false -> edge_le e2 e1.
Proof.
  intros H. destruct e1 as [a1 b1], e2 as [a2 b2]. unfold edge_le, edge_lt.
  assert (Hn : ~ edge_lt (a1, b1) (a2, b2)) by (rewrite <- edge_ltb_lt; congruence).
  unfold edge_lt in Hn. cbn [fst snd] in *.
  destruct (N.lt_total a2 a1) as [Ha|[Ha|Ha]]; [now right; left | | lia].
  subst a2. destruct (N.lt_total b2 b1) as [Hb|[Hb|Hb]]; [right; right; auto | left; congruence | lia].
Qed.

Lemma edge_eqb_eq (e1 e2 : N * N) : edge_eqb e1 e2 = true <-> e1 = e2.
Proof.
  destruct e1 as [a1 b1], e2 as [a2 b2]. unfold edge_eqb. cbn [fst snd].
  rewrite andb_true_iff, !N.eqb_eq. split; [intros [-> ->]; reflexivity | intros E; now inversion E].
Qed.

Lemma edge_le_trans (e1 e2 e3 : N * N) : edge_le e1 e2 -> edge_le e2 e3 -> edge_le e1 e3.
Proof.
  unfold edge_le, edge_lt. intros [->|H1] [->|H2]; auto. right. lia.
Qed.

Lemma edge_le_lt (e1 e2 : N * N) : edge_le e1 e2 -> e1 <> e2 -> edge_lt e1 e2.
Proof. intros [E|H] Hne; [contradiction | exact H]. Qed.

Lemma edge_lt_le_trans (e1 e2 e3 : N * N) : edge_lt e1 e2 -> edge_le e2 e3 -> edge_lt e1 e3.
Proof. unfold edge_le, edge_lt. intros H1 [->|H2]; [exact H1 | lia]. Qed.

Lemma elem_of_insert_edge (e x : N * N) (l : list (N * N)) :
  x ∈ insert_edge e l <-> x = e \/ x ∈ l.
Proof.
  induction l as [|y l IH]; cbn [insert_edge].
  - rewrite list_elem_of_singleton, elem_of_nil. tauto.
  - destruct (edge_ltb y e); rewrite !elem_of_cons; [rewrite IH | ]; tauto.
Qed.

Lemma elem_of_sort_edges (x : N * N) (l : list (N * N)) : x ∈ sort_edges l <-> x ∈ l.
Proof.
  induction l as [|y l IH]; [reflexivity | ].
  cbn [sort_edges foldr]. fold (sort_edges l).
  rewrite elem_of_insert_edge, elem_of_cons, IH. reflexivity.
Qed.

Lemma insert_edge_sorted (e : N * N) (l : list (N * N)) :
  StronglySorted edge_le l -> StronglySorted edge_le (insert_edge e l).
Proof.
  induction 1 as [|y l Hs IH Hall]; cbn [insert_edge].
  - constructor; constructor.
  - destruct (edge_ltb y e) eqn:Hlt.
    + constructor; [exact IH | ]. apply Forall_forall. intros x Hx.
      apply elem_of_insert_edge in Hx as [->|Hx].
      * right. now apply edge_ltb_lt.
      * rewrite Forall_forall in Hall. now apply Hall.
    + apply edge_ltb_ge in Hlt. constructor; [now constructor | ].
      constructor; [exact Hlt | ]. apply Forall_forall. intros x Hx.
      rewrite Forall_forall in Hall. eapply edge_le_trans; [exact Hlt | now apply Hall].
Qed.

Lemma sort_edges_sorted (l : list (N * N)) : StronglySorted edge_le (sort_edges l).
Proof.
  induction l as [|y l IH]; [constructor | ].
  cbn [sort_edges foldr]. now apply insert_edge_sorted.
Qed.

Lemma unique_from_spec (l : list (N * N)) :
  forall previous : N * N,
    StronglySorted edge_le l -> Forall (edge_le previous) l ->
    StronglySorted edge_lt (unique_from previous l) /\
    Forall (edge_lt previous) (unique_from previous l) /\
    (forall x, x ∈ unique_from previous l -> x ∈ l) /\
    (forall x, x ∈ l -> x = previous \/ x ∈ unique_from previous l).
Proof.
  induction l as [|y l IH]; intros previous Hs Hall.
  - cbn. split; [constructor | split; [constructor | split; [ | intros x H; inversion H]]].
    intros x H. exact H.
  - apply StronglySorted_inv in Hs as [Hs Hy]. apply Forall_cons in Hall as [Hp Hall].
    cbn [unique_from]. destruct (edge_eqb previous y) eqn:E.
    + apply edge_eqb_eq in E. subst y. destruct (IH previous Hs Hall) as (H1 & H2 & H3 & H4).
      split; [exact H1 | split; [exact H2 | split]].
      * intros x Hx. apply list_elem_of_further. now apply H3.
      * intros x Hx. apply elem_of_cons in Hx as [Hx|Hx]; [now left | now apply H4].
    + assert (Hne : previous <> y).
      { intros ->. rewrite (proj2 (edge_eqb_eq y y) eq_refl) in E. discriminate E. }
      pose proof (edge_le_lt _ _ Hp Hne) as Hlt.
      destruct (IH y Hs Hy) as (H1 & H2 & H3 & H4).
      split; [constructor; [exact H1 | exact H2] | split; [ | split]].
      * constructor; [exact Hlt | ]. rewrite Forall_forall in H2 |- *. intros x Hx.
        specialize (H2 x Hx). unfold edge_lt in *. lia.
      * intros x Hx. apply elem_of_cons in Hx as [Hx|Hx];
          [subst x; apply list_elem_of_here | apply list_elem_of_further; now apply H3].
      * intros x Hx. right. apply elem_of_cons in Hx as [Hx|Hx];
          [subst x; apply list_elem_of_here | ].
        destruct (H4 x Hx) as [->|H]; [apply list_elem_of_here | now apply list_elem_of_further].
Qed.

Lemma unique_edges_spec (l : list (N * N)) :
  StronglySorted edge_le l ->
  StronglySorted edge_lt (unique_edges l) /\ forall x, x ∈ unique_edges l <-> x ∈ l.
Proof.
  intros Hs. destruct l as [|y l]; [split; [constructor | reflexivity] | ].
  apply StronglySorted_inv in Hs as [Hs Hy].
  destruct (unique_from_spec l y Hs Hy) as (H1 & H2 & H3 & H4).
  cbn [unique_edges]. split; [now constructor | ].
  intros x. rewrite !elem_of_cons. split.
  - intros [->|H]; [now left | right; now apply H3].
  - intros [->|H]; [now left | ]. destruct (H4 x H) as [->|H']; [now left | now right].
Qed.

Lemma elem_of_cell_pairs {F : Type} (t : Tetrahedron F) (a b : N) :
  (a, b) ∈ cell_pairs t <->
  exists i j : nat, (i < 4)%nat /\ (j < 4)%nat /\
                    a = get4 (indices_ t) i /\ b = get4 (indices_ t) j.
Proof.
  unfold cell_pairs. rewrite list_elem_of_In, in_flat_map. split.
  - intros (i & Hi & Hin). apply in_map_iff in Hin as (j & E & Hj).
    injection E as <- <-. exists i, j.
    cbn in Hi, Hj. repeat split; lia.
  - intros (i & j & Hi & Hj & -> & ->). exists i. split.
    + do 4 (destruct i as [|i]; [cbn; tauto | ]). lia.
    + apply in_map_iff. exists j. split; [reflexivity | ].
      do 4 (destruct j as [|j]; [cbn; tauto | ]). lia.
Qed.

(** X16.  [CollectEdges] returns the edges of the inner cells in strictly
    increasing lexicographic order, hence each once, every pair with its
    smaller index first.  A pair (a, b) is returned exactly when [a <= b] and
    [a] and [b] are corners of one inner cell; the two corners may be the
    same one, so every corner [c] of an inner cell contributes the pair
    (c, c). *)
Theorem CollectEdges_sorted_and_complete {F : Type} {SF : Scalar F} (m : TetrahedralMesh F) :
  StronglySorted edge_lt (CollectEdges m) /\
  forall a b : N,
    (a, b) ∈ CollectEdges m <->
    a <= b /\
    exists (tetIndex : N) (i j : nat),
      tetIndex < numInnerTetrahedrons_ m /\ (i < 4)%nat /\ (j < 4)%nat /\
      a = get4 (indices_ (tet m tetIndex)) i /\ b = get4 (indices_ (tet m tetIndex)) j.
Proof.
  unfold CollectEdges. cbv zeta.
  set (collected := flat_map (fun tetIndex => cell_pairs (tet m tetIndex))
                             (map N.of_nat (seq 0 (N.to_nat (numInnerTetrahedrons_ m))))).
  set (swap := fun edge : N * N => if snd edge <? fst edge then (snd edge, fst edge) else edge).
  destruct (unique_edges_spec (sort_edges (map swap collected)) (sort_edges_sorted _))
    as [Hsorted Hmem].
  split; [exact Hsorted | ].
  assert (Hcollected : forall a b : N,
             (a, b) ∈ collected <->
             exists (tetIndex : N) (i j : nat),
               tetIndex < numInnerTetrahedrons_ m /\ (i < 4)%nat /\ (j < 4)%nat /\
               a = get4 (indices_ (tet m tetIndex)) i /\
               b = get4 (indices_ (tet m tetIndex)) j).
  { intros a b. subst collected. rewrite list_elem_of_In, in_flat_map. split.
    - intros (k & Hk & Hin). apply list_elem_of_In, elem_of_cell_pairs in Hin
        as (i & j & Hi & Hj & Ha & Hb).
      apply in_map_iff in Hk as (n & <- & Hn). apply in_seq in Hn.
      exists (N.of_nat n), i, j. repeat split; try assumption. lia.
    - intros (k & i & j & Hk & Hi & Hj & Ha & Hb). exists k. split.
      + apply in_map_iff. exists (N.to_nat k). split; [apply N2Nat.id | apply in_seq; lia].
      + apply list_elem_of_In, elem_of_cell_pairs. exists i, j. auto. }
  intros a b. rewrite Hmem, elem_of_sort_edges, list_elem_of_fmap. split.
  - intros ([a' b'] & E & Hin). apply Hcollected in Hin as (k & i & j & Hk & Hi & Hj & -> & ->).
    subst swap. cbn [fst snd] in E.
    destruct (get4 (indices_ (tet m k)) j <? get4 (indices_ (tet m k)) i) eqn:Hlt;
      injection E as -> ->.
    + apply N.ltb_lt in Hlt. split; [lia | ]. exists k, j, i. auto.
    + apply N.ltb_ge in Hlt. split; [lia | ]. exists k, i, j. auto.
  - intros (Hle & k & i & j & Hk & Hi & Hj & Ha & Hb). exists (a, b). split.
    + subst swap. cbn [fst snd]. assert (E : (b <? a) = false) by (apply N.ltb_ge; lia).
      now rewrite E.
    + apply Hcollected. exists k, i, j. auto.
Qed.
